(** * Moon: the component wrapper and the executor test, embedded in Rocq

    [Module JS] is a small model of the JavaScript object store that
    [packages/moon/src/index.js] runs on (values, heap cells with identity,
    prototype chains, arrays updated in place, bound functions), followed by
    the functions of [index.js], one definition per function.
    [Module Executor] models the executor's patch of one element and of a
    keyed list from the specification, and [Module Test] embeds the
    executor test file ([ExecutorTest], [verify], [assertExecute]).
    [Module Lifecycle] and [Module Patch] hold the proofs about the
    lifecycle functions, [emit] and the patch. [Module Terms],
    [Module Walks], [Module Programs] and [Module Fuzz] add vocabulary,
    demo programs and the helpers of the fuzz tests; the modules after
    [Patch] build on them: handlers, completion callbacks and the end of a
    walk, instances, what [Moon] makes of its data, mounting, and the test
    helpers. *)

From Stdlib Require Import ZArith String List Lia.
From stdpp Require Import gmap strings list fin_maps pretty.

(** ** Values and heap cells *)

Module JS.

Definition loc := nat.

(** The six functions that [index.js] attaches to every prototype. They are
    module-level singletons, so their identity is their name. *)
Inductive native := Create | Update | Destroy | On | Off | Emit.

(** The entries of a compiled view object. *)
Inductive routine := RData | RCreate | RUpdate | RDestroy.

(** Code that lives outside [index.js]: functions supplied by the caller
    (hooks, handlers, [next] callbacks) and the routines [compile] returns. *)
Inductive extern :=
| User (id : nat)
| Compiled (template : nat) (r : routine).

Inductive value :=
| VUndef
| VNull
| VBool (b : bool)
| VNum (z : Z)
| VStr (s : string)
| VRef (l : loc)            (* object, array or closure on the heap *)
| VNode (n : nat)           (* a document node owned by the host *)
| VNative (f : native)
| VExtern (e : extern)
| VBuiltin (name : string). (* a member of Object.prototype *)

(** Closures created while [index.js] runs. Each one is a heap cell, so two
    closures made by the same expression are different objects. *)
Inductive closure :=
| Bound (target this : value)
| MoonComponent (prototype : value)
| CreateDone (this next : value)
| UpdateDone (this next : value)
| DestroyDone (this next : value)
| Mount (root : value).

Inductive cell :=
| ObjC (props : gmap string value) (proto : option loc)
| ArrC (elems : list value)
| FunC (c : closure).

Global Instance native_eq_dec : EqDecision native.
Proof. solve_decision. Defined.
Global Instance routine_eq_dec : EqDecision routine.
Proof. solve_decision. Defined.
Global Instance extern_eq_dec : EqDecision extern.
Proof. solve_decision. Defined.
Global Instance value_eq_dec : EqDecision value.
Proof. solve_decision. Defined.

(** What the wrapper does to the world outside the heap, in order. *)
Inductive event :=
| EvCall (e : extern) (this : value) (args : list value)
| EvExecute (flags startTime scope routine onComplete : value)
| EvCompile (view : string)
| EvError (name : value)
| EvQuerySelector (selector : string)
| EvAppendChild (parent : nat) (child : value).

Global Instance event_eq_dec : EqDecision event.
Proof. solve_decision. Defined.

Record state := State {
  heap : list cell;
  trace : list event;
  clock : Z
}.

Definition set_heap (h : list cell) (st : state) : state :=
  State h (trace st) (clock st).

Inductive exn := TypeError | ReferenceError | SyntaxError | Thrown (v : value).

(** [OutOfFuel] and [Unmodelled] are not JavaScript results: the first says
    the evaluator was given too little fuel, the second that the program
    left the fragment of the language modelled here. *)
Inductive outcome (A : Type) :=
| Ok (a : A)
| Throw (e : exn)
| OutOfFuel
| Unmodelled.
Arguments Ok {A} a.
Arguments Throw {A} e.
Arguments OutOfFuel {A}.
Arguments Unmodelled {A}.

Definition M (A : Type) := state → outcome A * state.

Definition ret {A} (a : A) : M A := λ st, (Ok a, st).

Definition bind {A B} (m : M A) (f : A → M B) : M B := λ st,
  match m st with
  | (Ok a, st') => f a st'
  | (Throw e, st') => (Throw e, st')
  | (OutOfFuel, st') => (OutOfFuel, st')
  | (Unmodelled, st') => (Unmodelled, st')
  end.

Definition throw {A} (e : exn) : M A := λ st, (Throw e, st).
Definition out_of_fuel {A} : M A := λ st, (OutOfFuel, st).
Definition unmodelled {A} : M A := λ st, (Unmodelled, st).

Declare Scope js_scope.
Delimit Scope js_scope with js.
Notation "x <- m ;; k" := (bind m (λ x, k))
  (at level 100, m at next level, right associativity) : js_scope.
Notation "m ;; k" := (bind m (λ _, k))
  (at level 100, right associativity) : js_scope.
Local Open Scope js_scope.

Definition log (ev : event) : M unit := λ st,
  (Ok tt, State (heap st) (trace st ++ [ev]) (clock st)).

(** A new cell goes to the end of the heap; its location is the old length. *)
Definition alloc (c : cell) : M value := λ st,
  (Ok (VRef (length (heap st))), set_heap (heap st ++ [c]) st).

Definition object (props : gmap string value) (proto : loc) : M value :=
  alloc (ObjC props (Some proto)).
Definition array (elems : list value) : M value := alloc (ArrC elems).
Definition function (c : closure) : M value := alloc (FunC c).

(** ** Object.prototype *)

Definition object_prototype : loc := 0.

Definition object_prototype_members : list string :=
  ["constructor"; "hasOwnProperty"; "isPrototypeOf"; "propertyIsEnumerable";
   "toLocaleString"; "toString"; "valueOf";
   "__defineGetter__"; "__defineSetter__"; "__lookupGetter__";
   "__lookupSetter__"]%string.

Definition object_prototype_props : gmap string value :=
  list_to_map ((λ k, (k, VBuiltin k)) <$> object_prototype_members).

Definition object_prototype_cell : cell := ObjC object_prototype_props None.

(** The object behind the module-level [const components = {}]. *)
Definition components : loc := 1.

Definition initial (now : Z) : state :=
  State [object_prototype_cell; ObjC ∅ (Some object_prototype)] [] now.

(** ** Property access *)

(** [o[k]] on a heap object: own property first, then the prototype chain.
    The chain of a JavaScript object is finite and acyclic, so the number
    of cells is always enough fuel. *)
Fixpoint lookup_chain (fuel : nat) (h : list cell) (l : loc) (k : string)
  : outcome value :=
  match fuel with
  | O => OutOfFuel
  | S fuel =>
    match h !! l with
    | Some (ObjC props proto) =>
      if decide (k = "__proto__")
      then Ok (from_option VRef VNull proto)
      else match props !! k with
           | Some v => Ok v
           | None =>
             match proto with
             | Some p => lookup_chain fuel h p k
             | None => Ok VUndef
             end
           end
    | Some (ArrC elems) =>
      if decide (k = "length") then Ok (VNum (Z.of_nat (length elems)))
      else Unmodelled
    | Some (FunC _) | None => Unmodelled
    end
  end.

Definition get (o : value) (k : string) : M value := λ st,
  match o with
  | VUndef | VNull => (Throw TypeError, st)
  | VRef l => (lookup_chain (length (heap st)) (heap st) l k, st)
  | _ => (Unmodelled, st)
  end.

(** [o[k] = v] in strict mode, for ordinary writable data properties. *)
Definition put (o : value) (k : string) (v : value) : M unit := λ st,
  match o with
  | VUndef | VNull | VBool _ | VNum _ | VStr _ => (Throw TypeError, st)
  | VRef l =>
    match heap st !! l with
    | Some (ObjC props proto) =>
      if decide (k = "__proto__") then (Unmodelled, st)
      else (Ok tt, set_heap (<[l := ObjC (<[k := v]> props) proto]> (heap st)) st)
    | _ => (Unmodelled, st)
    end
  | _ => (Unmodelled, st)
  end.

(** [delete o[k]]. *)
Definition del (o : value) (k : string) : M unit := λ st,
  match o with
  | VUndef | VNull => (Throw TypeError, st)
  | VRef l =>
    match heap st !! l with
    | Some (ObjC props proto) =>
      (Ok tt, set_heap (<[l := ObjC (delete k props) proto]> (heap st)) st)
    | _ => (Unmodelled, st)
    end
  | _ => (Unmodelled, st)
  end.

(** The keys [for (let key in o)] visits: the own keys, then the inherited
    ones not yet seen. Object.prototype's members are not enumerable. *)
Fixpoint enumerable_keys (fuel : nat) (h : list cell) (l : loc) : outcome (list string) :=
  match fuel with
  | O => OutOfFuel
  | S fuel =>
    if decide (l = object_prototype) then Ok []
    else match h !! l with
         | Some (ObjC props proto) =>
           let own := (map_to_list props).*1 in
           match proto with
           | None => Ok own
           | Some p =>
             match enumerable_keys fuel h p with
             | Ok inherited =>
               Ok (own ++ filter (λ k, props !! k = None) inherited)
             | r => r
             end
           end
         | _ => Unmodelled
         end
  end.

Definition for_in_keys (o : value) : M (list string) := λ st,
  match o with
  | VUndef | VNull | VBool _ | VNum _ => (Ok [], st)
  | VRef l => (enumerable_keys (length (heap st)) (heap st) l, st)
  | _ => (Unmodelled, st)
  end.

(** ** Arrays, method calls and code outside the module *)

Definition read (l : loc) : M cell := λ st,
  match heap st !! l with
  | Some c => (Ok c, st)
  | None => (Unmodelled, st)
  end.

Definition write (l : loc) (c : cell) : M unit := λ st,
  (Ok tt, set_heap (<[l := c]> (heap st)) st).

Definition arg (i : nat) (args : list value) : value := nth i args VUndef.

(** [xs.indexOf(v)]: the first position holding [v] itself, or -1. *)
Fixpoint index_of (v : value) (xs : list value) (i : Z) : Z :=
  match xs with
  | [] => (-1)%Z
  | x :: xs => if decide (x = v) then i else index_of v xs (i + 1)%Z
  end.

(** [xs.splice(start, count)]: a negative [start] counts from the end. The
    result is what stays in the array and what is removed. *)
Definition splice (xs : list value) (start count : Z) : list value * list value :=
  let len := Z.of_nat (length xs) in
  let from := if (start <? 0)%Z then Z.max (len + start) 0 else Z.min start len in
  let n := Z.min (Z.max count 0) (len - from) in
  (take (Z.to_nat from) xs ++ drop (Z.to_nat (from + n)) xs,
   take (Z.to_nat n) (drop (Z.to_nat from) xs)).

(** A property key from a value ([o[type]] with [type] not yet a string). *)
Definition to_key (v : value) : M string :=
  match v with
  | VStr s => ret s
  | VUndef => ret "undefined"%string
  | VNull => ret "null"%string
  | VBool true => ret "true"%string
  | VBool false => ret "false"%string
  | _ => unmodelled
  end.

(** [performance.now()]. *)
Definition performance_now : M value := λ st, (Ok (VNum (clock st)), st).

(** Modelled from the spec: [execute(flags, startTime, scope, renderRoutine,
    onComplete)], imported from the executor, which is not among the
    sources. A call is recorded with its five arguments; the completion
    callback is run by whoever calls it later, through [call]. *)
Definition execute (flags startTime scope routine onComplete : value) : M value :=
  log (EvExecute flags startTime scope routine onComplete) ;; ret VUndef.

(** Modelled from the spec: the view object [compile] returns for template
    [t], with its four entries (section 6 of the specification). *)
Definition view_cell (t : nat) : cell :=
  ObjC (list_to_map
          [("data"%string, VExtern (Compiled t RData));
           ("create"%string, VExtern (Compiled t RCreate));
           ("update"%string, VExtern (Compiled t RUpdate));
           ("destroy"%string, VExtern (Compiled t RDestroy))])
       (Some object_prototype).

Section Wrapper.

(** [process.env.MOON_ENV === "development"]. *)
Variable development : bool.
(** The global variable [name], which [Moon] reads; [None] when the host
    has no such global. *)
Variable global_name : option string.
(** [compile] from the compiler: [None] when it throws, else the number of
    the compiled template. *)
Variable compile : string → option nat.
(** [document.querySelector]. *)
Variable querySelector : string → value.
(** What a function outside the module does when called with [this] and
    arguments on a heap: it returns ([inl]) or throws ([inr]) a value and
    leaves a heap. *)
Variable run : extern → value → list value → list cell → (value + value) * list cell.

Definition external (e : extern) (this : value) (args : list value) : M value :=
  log (EvCall e this args) ;;
  λ st, match run e this args (heap st) with
        | (inl v, h) => (Ok v, set_heap h st)
        | (inr x, h) => (Throw (Thrown x), set_heap h st)
        end.

(** Modelled from the spec: [compile(view)], imported from the compiler,
    which is not among the sources. It throws a SyntaxError or returns a
    new view object. *)
Definition compile_view (view : string) : M value :=
  log (EvCompile view) ;;
  match compile view with
  | None => throw SyntaxError
  | Some t => alloc (view_cell t)
  end.

(** [error(message)], imported from util, which is not among the sources:
    the call is recorded with the component name that the message quotes. *)
Definition util_error (name : value) : M unit := log (EvError name).

(** [document.querySelector(selector)]. *)
Definition query_selector (selector : string) : M value :=
  log (EvQuerySelector selector) ;; ret (querySelector selector).

Section Functions.

(** How a function value is applied; tied to [call] below. *)
Variable callf : value → value → list value → M value.

(** [recv.name(args)]. Arrays and functions answer to the built-in methods
    the module uses; an ordinary object is asked for the property. *)
Definition call_method (recv : value) (name : string) (args : list value) : M value :=
  match recv with
  | VUndef | VNull => throw TypeError
  | VRef l =>
    c <- read l ;;
    match c with
    | ObjC _ _ => f <- get recv name ;; callf f recv args
    | ArrC elems =>
      if decide (name = "push") then
        write l (ArrC (elems ++ [arg 0 args])) ;;
        ret (VNum (Z.of_nat (length elems) + 1))
      else if decide (name = "indexOf") then
        ret (VNum (index_of (arg 0 args) elems 0))
      else if decide (name = "splice") then
        match arg 0 args, arg 1 args with
        | VNum start, VNum count =>
          let '(kept, removed) := splice elems start count in
          write l (ArrC kept) ;; array removed
        | _, _ => unmodelled
        end
      else unmodelled
    | FunC _ =>
      if decide (name = "bind") then function (Bound recv (arg 0 args))
      else unmodelled
    end
  | VNative _ | VExtern _ =>
    if decide (name = "bind") then function (Bound recv (arg 0 args))
    else unmodelled
  | VNode n =>
    if decide (name = "appendChild") then
      log (EvAppendChild n (arg 0 args)) ;; ret (arg 0 args)
    else unmodelled
  | _ => unmodelled
  end.

(** [handlers[i]]. *)
Definition get_index (o : value) (i : nat) : M value :=
  match o with
  | VUndef | VNull => throw TypeError
  | VRef l =>
    c <- read l ;;
    match c with
    | ArrC elems => ret (default VUndef (elems !! i))
    | _ => unmodelled
    end
  | _ => unmodelled
  end.

(** [i < len] for the loop of [emit]. *)
Definition less_than (i : nat) (len : value) : M bool :=
  match len with
  | VNum n => ret (bool_decide (Z.of_nat i < n)%Z)
  | VUndef => ret false
  | _ => unmodelled
  end.

(** *** The functions of index.js *)

Definition create (next start : value) (this : value) : M value :=
  view <- get this "view" ;;
  call_method view "data" [] ;;
  startTime <- (if decide (start = VUndef) then performance_now else ret start) ;;
  view <- get this "view" ;;
  routine <- get view "create" ;;
  onComplete <- function (CreateDone this next) ;;
  execute (VNum 0) startTime this routine onComplete.

Fixpoint assign_keys (this data : value) (keys : list string) : M unit :=
  match keys with
  | [] => ret tt
  | key :: keys =>
    v <- get data key ;;
    put this key v ;;
    assign_keys this data keys
  end.

Definition update (data next start : value) (this : value) : M value :=
  keys <- for_in_keys data ;;
  assign_keys this data keys ;;
  startTime <- (if decide (start = VUndef) then performance_now else ret start) ;;
  view <- get this "view" ;;
  routine <- get view "update" ;;
  onComplete <- function (UpdateDone this next) ;;
  execute (VNum 0) startTime this routine onComplete.

Definition destroy (next start : value) (this : value) : M value :=
  startTime <- (if decide (start = VUndef) then performance_now else ret start) ;;
  view <- get this "view" ;;
  routine <- get view "destroy" ;;
  onComplete <- function (DestroyDone this next) ;;
  execute (VNum 0) startTime this routine onComplete.

Definition on (type handler : value) (this : value) : M value :=
  events <- get this "events" ;;
  key <- to_key type ;;
  handlers <- get events key ;;
  if decide (handlers = VUndef) then
    events <- get this "events" ;;
    bound <- call_method handler "bind" [this] ;;
    fresh <- array [bound] ;;
    put events key fresh ;;
    ret VUndef
  else
    bound <- call_method handler "bind" [this] ;;
    call_method handlers "push" [bound] ;;
    ret VUndef.

Definition off (type handler : value) (this : value) : M value :=
  if decide (type = VUndef) then
    empty <- object ∅ object_prototype ;;
    put this "events" empty ;;
    ret VUndef
  else if decide (handler = VUndef) then
    events <- get this "events" ;;
    key <- to_key type ;;
    empty <- array [] ;;
    put events key empty ;;
    ret VUndef
  else
    events <- get this "events" ;;
    key <- to_key type ;;
    handlers <- get events key ;;
    i <- call_method handlers "indexOf" [handler] ;;
    call_method handlers "splice" [i; VNum 1] ;;
    ret VUndef.

(** The loop of [emit]. The length is read again on every round, as in the
    source, so a handler that grows the array is called too; [n] bounds the
    number of rounds. *)
Fixpoint emit_loop (n : nat) (handlers : value) (i : nat) (data : value) : M value :=
  match n with
  | O => out_of_fuel
  | S n =>
    len <- get handlers "length" ;;
    continue <- less_than i len ;;
    if continue : bool then
      handler <- get_index handlers i ;;
      callf handler handlers [data] ;;
      emit_loop n handlers (S i) data
    else ret VUndef
  end.

Definition emit (rounds : nat) (type data : value) (this : value) : M value :=
  events <- get this "events" ;;
  key <- to_key type ;;
  handlers <- get events key ;;
  emit_loop rounds handlers 0 data.

(** The three completion callbacks handed to [execute]. *)
Definition create_done (this next element : value) : M value :=
  call_method this "emit" [VStr "create"; element] ;;
  (if decide (next = VUndef) then ret VUndef else callf next VUndef [element]) ;;
  ret VUndef.

Definition update_done (this next : value) : M value :=
  call_method this "emit" [VStr "update"] ;;
  (if decide (next = VUndef) then ret VUndef else callf next VUndef []) ;;
  ret VUndef.

Definition destroy_done (this next : value) : M value :=
  call_method this "emit" [VStr "destroy"] ;;
  (if decide (next = VUndef) then ret VUndef else callf next VUndef []) ;;
  ret VUndef.

(** The body of [function MoonComponent(data)]. *)
Definition moon_component (data : value) (this : value) : M value :=
  view <- get this "view" ;;
  view' <- get this "view" ;;
  viewData <- get view' "data" ;;
  bound <- call_method viewData "bind" [this] ;;
  put view "data" bound ;;
  keys <- for_in_keys data ;;
  assign_keys this data keys ;;
  ret VUndef.

(** The callback [Moon] passes to [instance.create] when a root is given. *)
Definition mount (root instanceElement : value) : M value :=
  call_method root "appendChild" [instanceElement] ;;
  ret VUndef.

End Functions.

(** Application of a function value. Every call spends one unit of fuel,
    and [emit] may run as many rounds as fuel is left. *)
Fixpoint call (fuel : nat) (f this : value) (args : list value) : M value :=
  match fuel with
  | O => out_of_fuel
  | S fuel =>
    match f with
    | VNative Create => create (call fuel) (arg 0 args) (arg 1 args) this
    | VNative Update => update (arg 0 args) (arg 1 args) (arg 2 args) this
    | VNative Destroy => destroy (arg 0 args) (arg 1 args) this
    | VNative On => on (call fuel) (arg 0 args) (arg 1 args) this
    | VNative Off => off (call fuel) (arg 0 args) (arg 1 args) this
    | VNative Emit => emit (call fuel) fuel (arg 0 args) (arg 1 args) this
    | VExtern e => external e this args
    | VRef l =>
      c <- read l ;;
      match c with
      | FunC (Bound target bthis) => call fuel target bthis args
      | FunC (MoonComponent _) => moon_component (call fuel) (arg 0 args) this
      | FunC (CreateDone cthis next) => create_done (call fuel) cthis next (arg 0 args)
      | FunC (UpdateDone cthis next) => update_done (call fuel) cthis next
      | FunC (DestroyDone cthis next) => destroy_done (call fuel) cthis next
      | FunC (Mount root) => mount (call fuel) root (arg 0 args)
      | ObjC _ _ | ArrC _ => throw TypeError
      end
    | VBuiltin _ => unmodelled
    | _ => throw TypeError
    end
  end.

(** [new f(args)] for a component constructor. *)
Definition construct (fuel : nat) (f : value) (args : list value) : M value :=
  match f with
  | VRef l =>
    c <- read l ;;
    match c with
    | FunC (MoonComponent (VRef p)) =>
      this <- alloc (ObjC ∅ (Some p)) ;;
      moon_component (call fuel) (arg 0 args) this ;;
      ret this
    | _ => unmodelled
    end
  | _ => unmodelled
  end.

(** [Moon(data)]. The function object [MoonComponent] is allocated where
    its prototype is installed. *)
Definition Moon (fuel : nat) (data : value) : M value :=
  (* Handle the optional name parameter. *)
  name <- get data "name" ;;
  put data "name" (if decide (name = VUndef) then VStr "Root" else name) ;;
  (* Ensure the view is defined, and compile it if needed. *)
  view <- get data "view" ;;
  (if development && bool_decide (view = VUndef)
   then name <- get data "name" ;; util_error name
   else ret tt) ;;
  match view with
  | VStr source => compiled <- compile_view source ;; put data "view" compiled
  | _ => ret tt
  end ;;
  (* Create default events. *)
  onCreate <- get data "onCreate" ;;
  onUpdate <- get data "onUpdate" ;;
  onDestroy <- get data "onDestroy" ;;
  del data "onCreate" ;;
  del data "onUpdate" ;;
  del data "onDestroy" ;;
  creates <- array [] ;;
  updates <- array [] ;;
  destroys <- array [] ;;
  events <- object (list_to_map [("create"%string, creates);
                                 ("update"%string, updates);
                                 ("destroy"%string, destroys)])
                   object_prototype ;;
  put data "events" events ;;
  (if decide (onCreate = VUndef) then ret VUndef
   else events <- get data "events" ;;
        handlers <- get events "create" ;;
        call_method (call fuel) handlers "push" [onCreate]) ;;
  (if decide (onUpdate = VUndef) then ret VUndef
   else events <- get data "events" ;;
        handlers <- get events "update" ;;
        call_method (call fuel) handlers "push" [onUpdate]) ;;
  (if decide (onDestroy = VUndef) then ret VUndef
   else events <- get data "events" ;;
        handlers <- get events "destroy" ;;
        call_method (call fuel) handlers "push" [onDestroy]) ;;
  (* Initialize the component constructor. *)
  MoonComponent <- function (MoonComponent data) ;;
  m <- array [] ;;
  put data "m" m ;;
  put data "create" (VNative Create) ;;
  put data "update" (VNative Update) ;;
  put data "destroy" (VNative Destroy) ;;
  put data "on" (VNative On) ;;
  put data "off" (VNative Off) ;;
  put data "emit" (VNative Emit) ;;
  (* Mount on the root when one is given, else return the constructor. *)
  root <- get data "root" ;;
  del data "root" ;;
  root <- match root with
          | VStr selector => query_selector selector
          | _ => ret root
          end ;;
  if decide (root = VUndef) then
    match global_name with
    | None => throw ReferenceError
    | Some name => put (VRef components) name MoonComponent ;; ret MoonComponent
    end
  else
    instance <- construct fuel MoonComponent [] ;;
    callback <- function (Mount root) ;;
    call_method (call fuel) instance "create" [callback] ;;
    ret instance.

End Wrapper.

(** ** Vocabulary of the statements *)

(** Object.prototype is as the host made it. *)
Definition pristine (h : list cell) : Prop :=
  h !! object_prototype = Some object_prototype_cell.

(** A key that is neither [__proto__] nor a member of Object.prototype. *)
Definition own_name (k : string) : Prop :=
  k ≠ "__proto__"%string ∧ object_prototype_props !! k = None.

(** The heap [h] with the cell at [d] replaced and new cells at the end. *)
Definition heap_with (h : list cell) (d : loc) (c : cell) (cells : list cell) : list cell :=
  <[d := c]> h ++ cells.

(** A computation only adds events to the trace. *)
Definition extends {A} (m : M A) : Prop :=
  ∀ st, ∃ evs, trace (m st).2 = trace st ++ evs.

(** [props[k]] of an object with no inherited [k]. *)
Definition prop (props : gmap string value) (k : string) : value :=
  default VUndef (props !! k).

(** The handler list [Moon] makes from a hook. *)
Definition seed (hook : value) : list value :=
  if decide (hook = VUndef) then [] else [hook].

(** The properties after [data.name = ...]. *)
Definition named (props : gmap string value) : gmap string value :=
  <["name" := if decide (prop props "name" = VUndef) then VStr "Root" else prop props "name"]>
    props.

(** The cells [Moon] allocates from location [n] on: the three handler
    lists, the events map, the constructor and [m]. *)
Definition moon_cells (props : gmap string value) (d n : loc) : list cell :=
  [ArrC (seed (prop props "onCreate"));
   ArrC (seed (prop props "onUpdate"));
   ArrC (seed (prop props "onDestroy"));
   ObjC (list_to_map [("create"%string, VRef n);
                      ("update"%string, VRef (1 + n));
                      ("destroy"%string, VRef (2 + n))])
        (Some object_prototype);
   FunC (MoonComponent (VRef d));
   ArrC []].

(** The properties of [data] when [Moon] returns a constructor, from the
    properties [base] it has after the name and view steps. *)
Definition moon_props (base : gmap string value) (n : loc) : gmap string value :=
  delete "root"
    (<["emit" := VNative Emit]>
    (<["off" := VNative Off]>
    (<["on" := VNative On]>
    (<["destroy" := VNative Destroy]>
    (<["update" := VNative Update]>
    (<["create" := VNative Create]>
    (<["m" := VRef (5 + n)]>
    (<["events" := VRef (3 + n)]>
    (delete "onDestroy" (delete "onUpdate" (delete "onCreate" base))))))))))).

(** The compiled view object, when the view is a string that compiles. *)
Definition view_cells (compile : string → option nat) (props : gmap string value)
  : list cell :=
  match props !! "view" with
  | Some (VStr s) => match compile s with Some t => [view_cell t] | None => [] end
  | _ => []
  end.

(** The properties after the name and view steps; [n] is where the
    compiled view object goes. *)
Definition viewed (props : gmap string value) (n : loc) : gmap string value :=
  match props !! "view" with
  | Some (VStr s) => <["view" := VRef n]> (named props)
  | _ => named props
  end.

(** The events of [Moon] when it returns a constructor. *)
Definition moon_events (development : bool) (props : gmap string value) : list event :=
  (if development && bool_decide (prop props "view" = VUndef)
   then [EvError (prop (named props) "name")] else [])
  ++ match props !! "view" with Some (VStr s) => [EvCompile s] | _ => [] end.

(** The properties [Moon] writes or deletes. *)
Definition moon_keys : list string :=
  ["name"; "view"; "onCreate"; "onUpdate"; "onDestroy"; "events"; "root";
   "m"; "create"; "update"; "destroy"; "on"; "off"; "emit"]%string.

(** A value [handler.bind] accepts: a function of the module, a function
    from outside, or a closure on the heap. *)
Definition bindable (h : list cell) (f : value) : Prop :=
  match f with
  | VNative _ | VExtern _ => True
  | VRef l => ∃ c, h !! l = Some (FunC c)
  | _ => False
  end.

(** [start === undefined ? performance.now() : start]. *)
Definition start_time (start : value) (ck : Z) : value :=
  if decide (start = VUndef) then VNum ck else start.

(** The keys copied by [for (let key in data) this[key] = data[key]]. *)
Definition assigned (dprops tprops : gmap string value) (keys : list string)
  : gmap string value :=
  foldl (λ acc k, <[k := default VUndef (dprops !! k)]> acc) tprops keys.

(** The function a handler or a view entry stands for when it is code from
    outside the module, called directly or through one [bind]. *)
Definition callee (h : list cell) (f this : value) : option (extern * value) :=
  match f with
  | VExtern e => Some (e, this)
  | VRef b =>
    match h !! b with
    | Some (FunC (Bound (VExtern e) bthis)) => Some (e, bthis)
    | _ => None
    end
  | _ => None
  end.

(** The heap objects among the handlers of a list. *)
Definition refs (hs : list value) : list loc :=
  omap (λ v, match v with VRef l => Some l | _ => None end) hs.

(** [h'] has the cells of [h] at the locations [locs]. *)
Definition keeps (locs : list loc) (h h' : list cell) : Prop :=
  ∀ l, l ∈ locs → h' !! l = h !! l.

(** The calls [emit] makes, one per handler. *)
Definition calls (data : value) (targets : list (extern * value)) : list event :=
  (λ t, EvCall t.1 t.2 [data]) <$> targets.

(** The handlers return, and leave the cells at [locs] as they are. *)
Definition well_behaved
    (run : extern → value → list value → list cell → (value + value) * list cell)
    (data : value) (locs : list loc) (targets : list (extern * value)) : Prop :=
  ∀ e this h0, (e, this) ∈ targets →
    ∃ v h1, run e this [data] h0 = (inl v, h1) ∧ keeps locs h0 h1.

(** The first position of an event in a trace. *)
Fixpoint position (ev : event) (evs : list event) : option nat :=
  match evs with
  | [] => None
  | x :: evs => if decide (x = ev) then Some 0 else S <$> position ev evs
  end.

(** A host for running examples: no development checks, the global [name]
    is the empty string (as [window.name] is in a fresh browser window),
    every template compiles to template 0, selectors find node 0, and code
    outside the module returns [undefined] and leaves the heap alone. *)
Module Host.
Definition run (e : extern) (this : value) (args : list value) (h : list cell)
  : (value + value) * list cell := (inl VUndef, h).
Definition compile (s : string) : option nat := Some 0.
Definition querySelector (s : string) : value := VNode 0.
Definition Moon := Moon false (Some ""%string) compile querySelector run.
Definition call := call run.
Definition construct := construct run.
End Host.

(** A program to run the wrapper on:
    [const App = Moon({view: "<p/>", onCreate: hook});]
    [const instance = new App();] and an object [{count: 1}] to update
    with. The locations are those of the allocation order. *)
Module Demo.
Definition hook : value := VExtern (User 1).
Definition next : value := VExtern (User 2).
Definition listener : value := VExtern (User 3).
Definition app : gmap string value :=
  list_to_map [("view"%string, VStr "<p/>"); ("onCreate"%string, hook)].
Definition boot : M value :=
  data <- object app object_prototype ;;
  App <- Host.Moon 8 data ;;
  instance <- Host.construct 8 App [] ;;
  object {[ "count"%string := VNum 1 ]} object_prototype ;;
  ret instance.
Definition started : state := (boot (initial 100)).2.
Definition data : loc := 2.
Definition view : loc := 3.
Definition creates : loc := 4.
Definition events : loc := 7.
Definition instance : loc := 10.
Definition count : loc := 12.
(** [instance.create(next)], with the walk still pending. *)
Definition created : state :=
  (Host.call 8 (VNative Create) (VRef instance) [next] started).2.
Definition onComplete : loc := 13.
(** [{name: "Foo", view: "<p/>", m: 5}] as the first object on the initial
    heap. *)
Definition foo : gmap string value :=
  list_to_map [("name"%string, VStr "Foo"); ("view"%string, VStr "<p/>");
               ("m"%string, VNum 5)].
Definition foo_heap : list cell :=
  heap (initial 0) ++ [ObjC foo (Some object_prototype)].
End Demo.

End JS.

(** * The executor test: [ExecutorTest], [verify] and the patch they check *)

Module Executor.

(** Modelled from the spec: the executor and its view descriptions are not
    among the sources; this module follows sections 3, 4.3 and 4.4 of the
    specification for one element and for a keyed list of elements.

    An attribute value of a view description. *)
Inductive jsval := JNum (z : Z) | JStr (s : string) | JBool (b : bool).

Global Instance jsval_eq_dec : EqDecision jsval.
Proof. solve_decision. Defined.

(** The string the document keeps for a value. *)
Definition to_string (v : jsval) : string :=
  match v with
  | JNum z => pretty z
  | JStr s => s
  | JBool true => "true"
  | JBool false => "false"
  end.

(** The test's two click handlers; both store their argument in the
    global [eventResult]. *)
Inductive handler := handler1 | handler2.

Global Instance handler_eq_dec : EqDecision handler.
Proof. solve_decision. Defined.

(** Modelled from the spec: the view description of one element
    (section 3), with its attributes by category and its text. *)
Record description := Description {
  tag : string;
  plain : gmap string jsval;
  ariaset : gmap string jsval;
  dataset : gmap string jsval;
  style : gmap string jsval;
  events : gmap string handler;
  text : string
}.

(** A live element of the document, with what [verify] reads from it. *)
Record element := Element {
  tagName : string;
  properties : gmap string jsval;
  attributes : gmap string string;
  data : gmap string string;
  styles : gmap string string;
  MoonEvent : gmap string handler;
  textContent : string
}.

(** [tagName] is the tag in upper case. *)
Definition upper (c : Ascii.ascii) : Ascii.ascii :=
  let n := Ascii.nat_of_ascii c in
  if (97 <=? n) && (n <=? 122) then Ascii.ascii_of_nat (n - 32) else c.

Fixpoint uppercase (s : string) : string :=
  match s with
  | EmptyString => EmptyString
  | String c s => String (upper c) (uppercase s)
  end.

(** Modelled from the spec: the property of the live element behind a
    plain attribute (section 4.3: [class], [for] with [htmlFor] semantics,
    [id], passthrough), and the value the document keeps for it: [className],
    [id] and [lang] are strings, [htmlFor] keeps the value as given. *)
Definition property_name (k : string) : string :=
  if decide (k = "class") then "className"
  else if decide (k = "for") then "htmlFor"
  else k.

Definition property_value (k : string) (v : jsval) : jsval :=
  if decide (k = "for") then v else JStr (to_string v).

(** Modelled from the spec: each key of [ariaset] becomes an [aria-*]
    entry (section 4.3). *)
Definition aria_name (k : string) : string := "aria-" +:+ k.

(** Modelled from the spec: the executor's attribute diff for one category
    (section 4.4). The executor is not among the sources. Each key of the
    old description that the new one lacks is removed from the live node,
    then each key of the new description is set. [name] gives the live key
    of a description key and [conv] the stored value. *)
Definition diff_category {V W : Type} (name : string → string) (conv : string → V → W)
    (old new : gmap string V) (live : gmap string W) : gmap string W :=
  let removed :=
    foldr (λ '(k, _) acc, if decide (new !! k = None) then delete (name k) acc else acc)
          live (map_to_list old) in
  foldr (λ '(k, v) acc, <[name k := conv k v]> acc) removed (map_to_list new).

(** Modelled from the spec: creation of a live element from a description
    (section 4.4, the create half of a replace). *)
Definition create_element (d : description) : element :=
  Element (uppercase (tag d))
          (diff_category property_name property_value ∅ (plain d) ∅)
          (diff_category aria_name (λ _, to_string) ∅ (ariaset d) ∅)
          (diff_category id (λ _, to_string) ∅ (dataset d) ∅)
          (diff_category id (λ _, to_string) ∅ (style d) ∅)
          (diff_category id (λ _ h, h) ∅ (events d) ∅)
          (text d).

(** Modelled from the spec: the node-level diff policy of section 4.4. A
    different tag replaces the element; the same tag diffs the attributes
    category by category and replaces the text. *)
Definition patch_element (old new : description) (live : element) : element :=
  if decide (tag old = tag new) then
    Element (tagName live)
            (diff_category property_name property_value (plain old) (plain new) (properties live))
            (diff_category aria_name (λ _, to_string) (ariaset old) (ariaset new) (attributes live))
            (diff_category id (λ _, to_string) (dataset old) (dataset new) (data live))
            (diff_category id (λ _, to_string) (style old) (style new) (styles live))
            (diff_category id (λ _ h, h) (events old) (events new) (MoonEvent live))
            (text new)
  else create_element new.

(** A keyed entry of a list description, and the same with its live node. *)
Definition entry : Type := Z * description.
Definition placed : Type := entry * element.

(** Modelled from the spec: the index from keys to old entries
    (section 4.4); the first old entry with the key is taken out. *)
Fixpoint take_key (key : Z) (old : list placed) : option (placed * list placed) :=
  match old with
  | [] => None
  | ((k, d), el) :: old =>
    if decide (k = key) then Some (((k, d), el), old)
    else match take_key key old with
         | Some (found, rest) => Some (found, ((k, d), el) :: rest)
         | None => None
         end
  end.

(** Modelled from the spec: keyed list reconciliation (section 4.4). The
    new sequence is walked in order; an entry whose key is among the old
    ones reuses and patches that live node, another is created; old
    entries left over are removed. *)
Fixpoint reconcile (old : list placed) (new : list entry) : list placed :=
  match new with
  | [] => []
  | (key, d) :: new =>
    match take_key key old with
    | Some (((_, od), el), rest) => ((key, d), patch_element od d el) :: reconcile rest new
    | None => ((key, d), create_element d) :: reconcile old new
    end
  end.

End Executor.

(** * The test file: [ExecutorTest], [verify], [assertExecute] *)

Module Test.
Import Executor.

Inductive branch := If | ElseIf | Else.

Global Instance branch_eq_dec : EqDecision branch.
Proof. solve_decision. Defined.

(** [item % 2 === 0], else [item % 3 === 0], else the rest. *)
Definition classify (item : Z) : branch :=
  if decide (Z.rem item 2 = 0%Z) then If
  else if decide (Z.rem item 3 = 0%Z) then ElseIf
  else Else.

Definition item_text (item : Z) (index : nat) : string :=
  pretty item +:+ pretty index.

(** The three [<p>] elements of [ExecutorTest]. *)
Definition item_view (item : Z) (index : nat) : description :=
  match classify item with
  | If =>
    Description "p"
      (list_to_map [("lang", JStr "en"); ("class", JNum item); ("for", JNum item)])
      (list_to_map [("hidden", JBool false); ("removeme", JBool true)])
      (list_to_map [("foo", JStr "bar"); ("removeme", JBool true)])
      (list_to_map [("color", JStr "red"); ("background", JStr "blue")])
      (list_to_map [("@click", handler1)])
      (item_text item index)
  | ElseIf =>
    Description "p"
      (list_to_map [("lang", JStr "en"); ("class", JNum item); ("for", JNum item);
                    ("id", JNum item)])
      (list_to_map [("hidden", JBool false); ("different", JBool true)])
      (list_to_map [("foo", JStr "bar"); ("different", JBool true)])
      (list_to_map [("color", JStr "red"); ("fontSize", JStr "20px")])
      (list_to_map [("@click", handler2)])
      (item_text item index)
  | Else =>
    Description "p" (list_to_map [("lang", JStr "en")]) ∅ ∅ ∅ ∅ (item_text item index)
  end.

(** The keyed entries the [for] loop of [ExecutorTest] yields. *)
Definition ExecutorTest (items : list Z) : list entry :=
  imap (λ index item, (item, item_view item index)) items.

(** What a handler receives and stores in [eventResult]. *)
Inductive constructor := MouseEvent.
Record message := Message { view_constructor : constructor; message_list : list Z }.

Global Instance constructor_eq_dec : EqDecision constructor.
Proof. solve_decision. Defined.
Global Instance message_eq_dec : EqDecision message.
Proof. solve_decision. Defined.

(** [element.click()]: a bound click handler stores its argument. *)
Definition click (items : list Z) (el : element) (eventResult : option message) : option message :=
  match MoonEvent el !! "@click" with
  | Some _ => Some (Message MouseEvent items)
  | None => eventResult
  end.

Definition property (el : element) (k : string) (missing : jsval) : jsval :=
  default missing (properties el !! k).
Definition style_of (el : element) (k : string) : string :=
  default "" (styles el !! k).

(** The expectations of [verify] that the three branches share by name;
    [None] stands for [null] or [undefined]. *)
Record expectation := Expectation {
  e_className : string;
  e_htmlFor : option Z;
  e_id : string;
  e_aria_hidden : option string;
  e_aria_removeme : option string;
  e_aria_different : option string;
  e_data_foo : option string;
  e_data_removeme : option string;
  e_data_different : option string;
  e_color : string;
  e_background : string;
  e_fontSize : string;
  e_click_bound : bool
}.

(** The three blocks of [verify], by branch. *)
Definition expected (b : branch) (item : Z) : expectation :=
  match b with
  | If =>
    Expectation (pretty item) (Some item) ""
                (Some "false") (Some "true") None
                (Some "bar") (Some "true") None
                "red" "blue" "" true
  | ElseIf =>
    Expectation (pretty item) (Some item) (pretty item)
                (Some "false") None (Some "true")
                (Some "bar") None (Some "true")
                "red" "" "20px" true
  | Else =>
    Expectation "" None "" None None None None None None "" "" "" false
  end.

Definition meets (x : expectation) (item : Z) (i : nat) (el : element) : bool :=
  bool_decide (tagName el = "P")
  && bool_decide (property el "lang" (JStr "") = JStr "en")
  && bool_decide (property el "className" (JStr "") = JStr (e_className x))
  && match e_htmlFor x with
     | Some z => bool_decide (properties el !! "htmlFor" = Some (JNum z))
     | None => bool_decide (properties el !! "htmlFor" = None
                            ∨ properties el !! "htmlFor" = Some (JStr ""))
     end
  && bool_decide (property el "id" (JStr "") = JStr (e_id x))
  && bool_decide (attributes el !! "aria-hidden" = e_aria_hidden x)
  && bool_decide (attributes el !! "aria-removeme" = e_aria_removeme x)
  && bool_decide (attributes el !! "aria-different" = e_aria_different x)
  && bool_decide (data el !! "foo" = e_data_foo x)
  && bool_decide (data el !! "removeme" = e_data_removeme x)
  && bool_decide (data el !! "different" = e_data_different x)
  && bool_decide (style_of el "color" = e_color x)
  && bool_decide (style_of el "background" = e_background x)
  && bool_decide (style_of el "fontSize" = e_fontSize x)
  && bool_decide (is_Some (MoonEvent el !! "@click") ↔ e_click_bound x = true)
  && bool_decide (textContent el = item_text item i).

(** One round of the loop of [verify] under the expectations of branch [b]:
    the checks, the click, and what the click must have left in
    [eventResult]. The result is [false] when an expectation fails. *)
Definition verify_as (b : branch) (items : list Z) (item : Z) (i : nat) (el : element) : bool :=
  meets (expected b item) item i el
  && match b with
     | If | ElseIf =>
       bool_decide (click items el None = Some (Message MouseEvent items))
     | Else => bool_decide (click items el None = None)
     end.

(** [verify(list)] on the children of the rendered element. *)
Definition verify (items : list Z) (childNodes : list element) : bool :=
  forallb (λ '(i, item),
             match childNodes !! i with
             | Some el => verify_as (classify item) items item i el
             | None => false
             end)
          (imap pair items).

(** [Moon.run] with a new list: the executor patches the live entries. *)
Definition run (items : list Z) (live : list placed) : list placed :=
  reconcile live (ExecutorTest items).

(** [assertExecute(before, after)], from the live entries left by the
    previous run; the result is whether both [verify] calls pass, and the
    live entries at the end. *)
Definition assertExecute (before after : list Z) (live : list placed) : bool * list placed :=
  let live1 := run before live in
  let live2 := run after live1 in
  (verify before live1.*2 && verify after live2.*2, live2).

(** ** Vocabulary of the statements *)

(** The object-valued categories and the event bindings. *)
Inductive category := Style | Dataset | Ariaset | Events.

(** Key [k] is in category [c] of a description. *)
Definition described (d : description) (c : category) (k : string) : bool :=
  match c with
  | Style => bool_decide (is_Some (style d !! k))
  | Dataset => bool_decide (is_Some (dataset d !! k))
  | Ariaset => bool_decide (is_Some (ariaset d !! k))
  | Events => bool_decide (is_Some (events d !! k))
  end.

(** Key [k] of category [c] is on the live element. *)
Definition present (el : element) (c : category) (k : string) : bool :=
  match c with
  | Style => bool_decide (is_Some (styles el !! k))
  | Dataset => bool_decide (is_Some (data el !! k))
  | Ariaset => bool_decide (is_Some (attributes el !! aria_name k))
  | Events => bool_decide (is_Some (MoonEvent el !! k))
  end.

End Test.

(** * Further vocabulary *)

Module Terms.
Import JS.

(** The objects on the prototype chain of [l], [l] first. *)
Fixpoint protos (fuel : nat) (h : list cell) (l : loc) : list loc :=
  match fuel with
  | O => []
  | S fuel =>
    l :: match h !! l with
         | Some (ObjC _ (Some p)) => protos fuel h p
         | _ => []
         end
  end.

(** The call of a completion callback to [next], when there is one. *)
Definition next_call (next : value) (args : list value) : list event :=
  match next with
  | VExtern n => [EvCall n VUndef args]
  | _ => []
  end.

(** A function from outside the module returns when called with [this] and
    [args], and leaves the cells at [locs] as they are. *)
Definition returns
    (run : extern → value → list value → list cell → (value + value) * list cell)
    (e : extern) (this : value) (args : list value) (locs : list loc) : Prop :=
  ∀ h0, ∃ v h1, run e this args h0 = (inl v, h1) ∧ keeps locs h0 h1.

(** A function from outside the module throws [x] when called. *)
Definition throws
    (run : extern → value → list value → list cell → (value + value) * list cell)
    (e : extern) (this : value) (args : list value) (x : value) : Prop :=
  ∀ h0, ∃ h1, run e this args h0 = (inr x, h1).

(** The root [Moon] mounts on: a selector is looked up in the document. *)
Definition located (querySelector : string → value) (given : value) : value :=
  match given with
  | VStr selector => querySelector selector
  | _ => given
  end.

(** The query [Moon] makes for a root given as a selector. *)
Definition queries (given : value) : list event :=
  match given with
  | VStr selector => [EvQuerySelector selector]
  | _ => []
  end.

End Terms.

(** * The completion callbacks, by walk *)

Module Walks.
Import JS.

Inductive walk := Created | Updated | Destroyed.

(** The callback [create], [update] or [destroy] hands to [execute]. *)
Definition completion (w : walk) (this next : value) : closure :=
  match w with
  | Created => CreateDone this next
  | Updated => UpdateDone this next
  | Destroyed => DestroyDone this next
  end.

(** The event the callback emits. *)
Definition walk_event (w : walk) : string :=
  match w with
  | Created => "create"
  | Updated => "update"
  | Destroyed => "destroy"
  end.

(** What the callback emits the event with: the element it was called
    with after [create], nothing after [update] and [destroy]. *)
Definition emitted (w : walk) (args : list value) : value :=
  match w with
  | Created => arg 0 args
  | _ => VUndef
  end.

(** The arguments the callback calls [next] with. *)
Definition passed (w : walk) (args : list value) : list value :=
  match w with
  | Created => [arg 0 args]
  | _ => []
  end.

(** Modelled from the spec: the end of a walk. The executor is not among
    the sources; of the walk that a call of [execute] starts, section 4.4
    of the specification says: "When the walk completes, onComplete is
    invoked exactly once with the root live node." So the walk recorded
    as [walk] completes by one call of its completion callback, with the
    root live node as the only argument. What the walk does to the live
    tree before that is left out. *)
Definition completes
    (run : extern → value → list value → list cell → (value + value) * list cell)
    (fuel : nat) (walk : event) (root : value) : M value :=
  match walk with
  | EvExecute _ _ _ _ onComplete => call run fuel onComplete VUndef [root]
  | _ => unmodelled
  end.

(** The hook of the data object that seeds the handlers of the event. *)
Definition hook_name (w : walk) : string :=
  match w with
  | Created => "onCreate"
  | Updated => "onUpdate"
  | Destroyed => "onDestroy"
  end.

(** Where [Moon] allocates the handler list of the event, counted from the
    first cell it allocates after the view. *)
Definition slot (w : walk) : nat :=
  match w with
  | Created => 0
  | Updated => 1
  | Destroyed => 2
  end.

End Walks.

(** * More programs to run the wrapper on *)

Module Programs.
Import JS Demo.
Local Open Scope js_scope.

(** [const second = new App();] after the program of [Demo]. *)
Definition twins : state := (Host.construct 8 (VRef 8) [] Demo.started).2.
Definition second : loc := 13.

(** The heap of [twins] after [second.off()]. *)
Definition detached : list cell :=
  <[second := ObjC {[ "events"%string := VRef 15 ]} (Some data)]>
    (heap twins ++ [ObjC ∅ (Some object_prototype)]).

(** The program of [Demo] after [instance.on("create", listener)]. *)
Definition listening : state :=
  (on (Host.call 0) (VStr "create") listener (VRef instance) Demo.started).2.

(** The program of [Demo] after [instance.on("update", listener)] and
    [instance.update({count: 1}, next)], with the walk still pending. *)
Definition updated : state :=
  ((on (Host.call 0) (VStr "update") listener (VRef instance) ;;
    Host.call 8 (VNative Update) (VRef instance) [VRef count; next]) Demo.started).2.

(** The program of [Demo] after [instance.off()] and
    [instance.create(next)], with the walk still pending. *)
Definition silenced : state :=
  ((off (Host.call 0) VUndef VUndef (VRef instance) ;;
    Host.call 8 (VNative Create) (VRef instance) [next]) Demo.started).2.

(** The program of [Demo] with one more object, [{step: 2}]. *)
Definition loose : state :=
  (object {[ "step"%string := VNum 2 ]} object_prototype Demo.started).2.
Definition step : loc := 13.

(** The program of [Demo] before its first instance is made. *)
Definition defined : state :=
  ((data <- object app object_prototype ;; Host.Moon 8 data) (initial 100)).2.

(** The data object of [Demo] as the first object on the initial heap. *)
Definition app_heap : list cell :=
  heap (initial 100) ++ [ObjC app (Some object_prototype)].

(** [{name: "Bare"}], a component without a view. *)
Definition bare : gmap string value := {[ "name"%string := VStr "Bare" ]}.
Definition bare_heap : list cell :=
  heap (initial 0) ++ [ObjC bare (Some object_prototype)].

(** [{root: "#app", view: "<p/>", onCreate: hook}], and the program
    [Moon({root: "#app", view: "<p/>", onCreate: hook})]. *)
Definition rooted : gmap string value :=
  list_to_map [("root"%string, VStr "#app"); ("view"%string, VStr "<p/>");
               ("onCreate"%string, hook)].
Definition rooted_heap : list cell :=
  heap (initial 0) ++ [ObjC rooted (Some object_prototype)].
Definition mounted : state := (Host.Moon 8 (VRef 2) (State rooted_heap [] 0)).2.

(** [{root: undefined, view: "<p/>"}]: the [root] key is there, with no
    root in it. *)
Definition optional : gmap string value :=
  list_to_map [("root"%string, VUndef); ("view"%string, VStr "<p/>")].
Definition optional_heap : list cell :=
  heap (initial 0) ++ [ObjC optional (Some object_prototype)].

(** The same program in a document where the selector matches nothing. *)
Definition unmatched : state :=
  (Moon false (Some ""%string) Host.compile (λ _, VNull) Host.run 8 (VRef 2)
        (State rooted_heap [] 0)).2.

(** A host in which the hook adds [listener] to the list it is in
    ([this.push(listener)]), and every other function returns at once. *)
Definition adding (e : extern) (this : value) (args : list value) (h : list cell)
  : (value + value) * list cell :=
  match e, this with
  | User 1, VRef a => (inl VUndef, <[a := ArrC [hook; listener]]> h)
  | _, _ => (inl VUndef, h)
  end.

(** A host whose functions all throw the string "boom". *)
Definition failing (e : extern) (this : value) (args : list value) (h : list cell)
  : (value + value) * list cell := (inr (VStr "boom"), h).

(** The element that the last branch of [ExecutorTest] renders for item 5
    at index 0. *)
Definition paragraph : Executor.element :=
  Executor.Element "P" {[ "lang"%string := Executor.JStr "en" ]} ∅ ∅ ∅ ∅ "50".

End Programs.

(** * The helpers of the fuzz tests *)

Module Fuzz.
Import JS.

(** [arr[i]]: [undefined] outside the array. *)
Definition item_at (arr : list value) (i : nat) : value := default VUndef (arr !! i).

(** [arr[i] = x]: an index past the end makes the array longer, and the
    indices in between read as [undefined]. *)
Definition assign (arr : list value) (i : nat) (x : value) : list value :=
  if decide (i < length arr) then <[i := x]> arr
  else arr ++ replicate (i - length arr) VUndef ++ [x].

(** [[arr[i], arr[j]] = [arr[j], arr[i]]]: the right-hand side is read
    first, then [arr[i]] is written, then [arr[j]]. *)
Definition swap (arr : list value) (i j : nat) : list value :=
  let x := item_at arr j in
  let y := item_at arr i in
  assign (assign arr i x) j y.

(** The loop of [shuffle], from index [i] down to 1. [choose i] is the
    value of [Math.floor(Math.random() * (i + 1))] in the round of index
    [i]; each index has one round. *)
Fixpoint shuffle_loop (choose : nat → nat) (i : nat) (arr : list value) : list value :=
  match i with
  | O => arr
  | S i' => shuffle_loop choose i' (swap arr i (choose i))
  end.

(** [shuffle(arr)]: the array is changed in place and returned; here the
    contents it has at the end. *)
Definition shuffle (choose : nat → nat) (arr : list value) : list value :=
  shuffle_loop choose (length arr - 1) arr.

End Fuzz.

(** * Properties of the wrapper *)

Module Lifecycle.
Import JS.
Local Open Scope js_scope.

(** ** Stepping the monad *)

Lemma bind_ok {A B} (m : M A) (f : A → M B) st a st' :
  m st = (Ok a, st') → bind m f st = f a st'.
Proof. unfold bind. by intros ->. Qed.

Lemma bind_throw {A B} (m : M A) (f : A → M B) st e st' :
  m st = (Throw e, st') → bind m f st = (Throw e, st').
Proof. unfold bind. by intros ->. Qed.

Lemma get_ref l k h tr ck v :
  lookup_chain (length h) h l k = Ok v →
  get (VRef l) k (State h tr ck) = (Ok v, State h tr ck).
Proof. unfold get. simpl. by intros ->. Qed.

Lemma put_obj l k v h tr ck props proto :
  h !! l = Some (ObjC props proto) → k ≠ "__proto__"%string →
  put (VRef l) k v (State h tr ck)
  = (Ok tt, State (<[l := ObjC (<[k := v]> props) proto]> h) tr ck).
Proof.
  intros Hl Hk. unfold put. simpl. rewrite Hl.
  by destruct (decide (k = "__proto__"%string)).
Qed.

Lemma del_obj l k h tr ck props proto :
  h !! l = Some (ObjC props proto) →
  del (VRef l) k (State h tr ck)
  = (Ok tt, State (<[l := ObjC (delete k props) proto]> h) tr ck).
Proof. intros Hl. unfold del. simpl. by rewrite Hl. Qed.

Lemma alloc_at c h tr ck :
  alloc c (State h tr ck) = (Ok (VRef (length h)), State (h ++ [c]) tr ck).
Proof. done. Qed.

Lemma read_at l c h tr ck :
  h !! l = Some c → read l (State h tr ck) = (Ok c, State h tr ck).
Proof. unfold read. simpl. by intros ->. Qed.

(** ** Plain objects under an untouched Object.prototype *)

Lemma get_own h l props proto k v :
  h !! l = Some (ObjC props proto) → props !! k = Some v → k ≠ "__proto__"%string →
  lookup_chain (length h) h l k = Ok v.
Proof.
  intros Hl Hk Hne.
  assert (l < length h) as Hlt by (by eapply lookup_lt_Some).
  destruct (length h) as [|n]; [lia|]. simpl. rewrite Hl.
  destruct (decide (k = "__proto__"%string)); [done|]. by rewrite Hk.
Qed.

Lemma plain_not_prototype h l props :
  pristine h → h !! l = Some (ObjC props (Some object_prototype)) → l ≠ object_prototype.
Proof. unfold pristine. intros H0 Hl ->. rewrite H0 in Hl. discriminate. Qed.

Lemma get_plain h l props k :
  pristine h → h !! l = Some (ObjC props (Some object_prototype)) → own_name k →
  lookup_chain (length h) h l k = Ok (default VUndef (props !! k)).
Proof.
  intros H0 Hl [Hne Hk].
  pose proof (plain_not_prototype _ _ _ H0 Hl) as Hl0.
  assert (l < length h) as Hlt by (by eapply lookup_lt_Some).
  unfold object_prototype in *.
  destruct (length h) as [|[|n]]; [lia|lia|]. simpl. rewrite Hl.
  destruct (decide (k = "__proto__"%string)); [done|].
  destruct (props !! k); [done|]. simpl.
  unfold pristine, object_prototype in H0. rewrite H0. unfold object_prototype_cell.
  destruct (decide (k = "__proto__"%string)); [done|]. by rewrite Hk.
Qed.

(** ** A heap that differs from [h] in one object and some new cells *)

Lemma heap_with_start h d c : h !! d = Some c → h = heap_with h d c [].
Proof. intros Hd. unfold heap_with. by rewrite list_insert_id, app_nil_r. Qed.

Lemma heap_with_length h d c cells :
  length (heap_with h d c cells) = length cells + length h.
Proof. unfold heap_with. rewrite length_app, length_insert. lia. Qed.

Lemma heap_with_lookup h d c cells :
  d < length h → heap_with h d c cells !! d = Some c.
Proof.
  intros Hd. unfold heap_with.
  rewrite lookup_app_l by (by rewrite length_insert).
  by apply list_lookup_insert_eq.
Qed.

Lemma heap_with_lookup_old h d c cells l :
  l < length h → l ≠ d → heap_with h d c cells !! l = h !! l.
Proof.
  intros Hl Hne. unfold heap_with.
  rewrite lookup_app_l by (by rewrite length_insert).
  by apply list_lookup_insert_ne.
Qed.

Lemma heap_with_lookup_new h d c cells i :
  heap_with h d c cells !! (i + length h) = cells !! i.
Proof.
  unfold heap_with. rewrite lookup_app_r by (rewrite length_insert; lia).
  f_equal. rewrite length_insert. lia.
Qed.

Lemma heap_with_insert h d c c' cells :
  d < length h → <[d := c']> (heap_with h d c cells) = heap_with h d c' cells.
Proof.
  intros Hd. unfold heap_with.
  rewrite insert_app_l by (by rewrite length_insert).
  by rewrite list_insert_insert_eq.
Qed.

Lemma heap_with_insert_new h d c cells i x :
  <[i + length h := x]> (heap_with h d c cells) = heap_with h d c (<[i := x]> cells).
Proof.
  unfold heap_with.
  replace (i + length h) with (length (<[d := c]> h) + i) by (rewrite length_insert; lia).
  by rewrite insert_app_r.
Qed.

Lemma heap_with_app h d c cells x :
  heap_with h d c cells ++ [x] = heap_with h d c (cells ++ [x]).
Proof. unfold heap_with. by rewrite app_assoc. Qed.

Lemma heap_with_pristine h d c cells :
  pristine h → d ≠ object_prototype → pristine (heap_with h d c cells).
Proof.
  unfold pristine. intros H0 Hd.
  rewrite heap_with_lookup_old; [done| by eapply lookup_lt_Some |done].
Qed.

Section Steps.
Context (h : list cell) (d : loc) (tr : list event) (ck : Z).
Context (Hpristine : pristine h) (Hd : d < length h) (Hd0 : d ≠ object_prototype).

Lemma get_data props cells k :
  own_name k →
  get (VRef d) k (State (heap_with h d (ObjC props (Some object_prototype)) cells) tr ck)
  = (Ok (default VUndef (props !! k)),
     State (heap_with h d (ObjC props (Some object_prototype)) cells) tr ck).
Proof.
  intros Hk. apply get_ref. apply get_plain; [|by apply heap_with_lookup|done].
  by apply heap_with_pristine.
Qed.

Lemma put_data props proto cells k v :
  k ≠ "__proto__"%string →
  put (VRef d) k v (State (heap_with h d (ObjC props proto) cells) tr ck)
  = (Ok tt, State (heap_with h d (ObjC (<[k := v]> props) proto) cells) tr ck).
Proof.
  intros Hk. erewrite put_obj; [|by apply heap_with_lookup|done].
  by rewrite heap_with_insert.
Qed.

Lemma del_data props proto cells k :
  del (VRef d) k (State (heap_with h d (ObjC props proto) cells) tr ck)
  = (Ok tt, State (heap_with h d (ObjC (delete k props) proto) cells) tr ck).
Proof.
  erewrite del_obj; [|by apply heap_with_lookup].
  by rewrite heap_with_insert.
Qed.

Lemma alloc_new c0 cells c :
  alloc c (State (heap_with h d c0 cells) tr ck)
  = (Ok (VRef (length cells + length h)), State (heap_with h d c0 (cells ++ [c])) tr ck).
Proof. rewrite alloc_at. by rewrite heap_with_length, heap_with_app. Qed.

Lemma get_new c0 cells i props proto k v :
  cells !! i = Some (ObjC props proto) → props !! k = Some v → k ≠ "__proto__"%string →
  get (VRef (i + length h)) k (State (heap_with h d c0 cells) tr ck)
  = (Ok v, State (heap_with h d c0 cells) tr ck).
Proof.
  intros Hi Hk Hne. apply get_ref. eapply get_own; [|done|done].
  by rewrite heap_with_lookup_new.
Qed.

Lemma push_new callf c0 cells i elems v :
  cells !! i = Some (ArrC elems) →
  call_method callf (VRef (i + length h)) "push" [v] (State (heap_with h d c0 cells) tr ck)
  = (Ok (VNum (Z.of_nat (length elems) + 1)),
     State (heap_with h d c0 (<[i := ArrC (elems ++ [v])]> cells)) tr ck).
Proof.
  intros Hi. unfold call_method.
  erewrite bind_ok by (apply read_at; by rewrite heap_with_lookup_new).
  simpl. unfold bind, write, set_heap. simpl.
  by rewrite heap_with_insert_new.
Qed.

End Steps.


Lemma heap_with_again h d c cells c' cells' :
  d < length h →
  heap_with (heap_with h d c cells) d c' cells' = heap_with h d c' (cells ++ cells').
Proof.
  intros Hd. unfold heap_with.
  rewrite insert_app_l by (by rewrite length_insert).
  by rewrite list_insert_insert_eq, app_assoc.
Qed.

Lemma bind_assoc {A B C} (m : M A) (f : A → M B) (k : B → M C) st :
  bind (bind m f) k st = bind m (λ x, bind (f x) k) st.
Proof. unfold bind. by destruct (m st) as [[]]. Qed.

Lemma bind_ret {A B} (a : A) (k : A → M B) st : bind (ret a) k st = k a st.
Proof. done. Qed.

Ltac map_lookup :=
  repeat first
    [ rewrite lookup_insert_eq | rewrite lookup_delete_eq
    | rewrite lookup_insert_ne by done | rewrite lookup_delete_ne by done ].

Ltac own := split; [done | by vm_compute].

Ltac mstep :=
  first
  [ erewrite bind_ok by (apply get_data; [done|done|done|own])
  | erewrite bind_ok by (apply put_data; done)
  | erewrite bind_ok by (apply del_data; done)
  | erewrite bind_ok by (apply alloc_new) ].

Ltac hook i :=
  match goal with
  | |- context [decide (?v = VUndef)] => destruct (decide (v = VUndef))
  end;
  [ rewrite bind_ret
  | rewrite !bind_assoc; mstep; rewrite lookup_insert_eq; simpl default;
    rewrite ?bind_assoc;
    erewrite bind_ok by
      (eapply (get_new _ _ _ _ _ _ 3); [reflexivity | by vm_compute | done]);
    erewrite bind_ok by (eapply (push_new _ _ _ _ _ _ _ i); reflexivity);
    simpl insert ].


(** ** The trace only grows *)

Lemma extends_quiet {A} (m : M A) :
  (∀ st, trace (m st).2 = trace st) → extends m.
Proof. intros Hm st. exists []. by rewrite app_nil_r. Qed.

Lemma extends_bind {A B} (m : M A) (f : A → M B) :
  extends m → (∀ a, extends (f a)) → extends (bind m f).
Proof.
  intros Hm Hf st. unfold bind. destruct (Hm st) as [evs Hevs].
  destruct (m st) as [[a|e| |] st']; simpl in *; try by exists evs.
  destruct (Hf a st') as [evs' Hevs']. exists (evs ++ evs').
  by rewrite Hevs', Hevs, app_assoc.
Qed.

Lemma extends_ret {A} (a : A) : extends (ret a).
Proof. by apply extends_quiet. Qed.
Lemma extends_throw {A} e : extends (@throw A e).
Proof. by apply extends_quiet. Qed.
Lemma extends_unmodelled {A} : extends (@unmodelled A).
Proof. by apply extends_quiet. Qed.
Lemma extends_out_of_fuel {A} : extends (@out_of_fuel A).
Proof. by apply extends_quiet. Qed.
Lemma extends_log ev : extends (log ev).
Proof. intros st. by exists [ev]. Qed.
Lemma extends_get o k : extends (get o k).
Proof. apply extends_quiet. intros st. unfold get. by destruct o. Qed.
Lemma extends_put o k v : extends (put o k v).
Proof.
  apply extends_quiet. intros st. unfold put.
  destruct o; try done. destruct (heap st !! l) as [[]|]; try done.
  by destruct (decide _).
Qed.
Lemma extends_del o k : extends (del o k).
Proof.
  apply extends_quiet. intros st. unfold del.
  destruct o; try done. by destruct (heap st !! l) as [[]|].
Qed.
Lemma extends_alloc c : extends (alloc c).
Proof. by apply extends_quiet. Qed.
Lemma extends_read l : extends (read l).
Proof. apply extends_quiet. intros st. unfold read. by destruct (heap st !! l). Qed.
Lemma extends_write l c : extends (write l c).
Proof. by apply extends_quiet. Qed.
Lemma extends_for_in_keys o : extends (for_in_keys o).
Proof. apply extends_quiet. intros st. unfold for_in_keys. by destruct o. Qed.
Lemma extends_performance_now : extends performance_now.
Proof. by apply extends_quiet. Qed.
Lemma extends_external run e this args : extends (external run e this args).
Proof.
  intros st. exists [EvCall e this args]. unfold external, bind, log. simpl.
  by destruct (run e this args (heap st)) as [[v|x] h'].
Qed.

Ltac extends_step :=
  first
  [ apply extends_ret | apply extends_throw | apply extends_unmodelled
  | apply extends_out_of_fuel | apply extends_log | apply extends_get
  | apply extends_put | apply extends_del | apply extends_alloc
  | apply extends_read | apply extends_write | apply extends_for_in_keys
  | apply extends_performance_now | apply extends_external
  | assumption
  | apply extends_bind; [|intros]
  | match goal with
    | |- extends (if ?c then _ else _) => destruct c
    | |- extends (match ?x with _ => _ end) => destruct x
    | |- extends (let '(_, _) := ?x in _) => destruct x
    end ].

Ltac extends_all := repeat extends_step.

Lemma extends_to_key v : extends (to_key v).
Proof. unfold to_key. extends_all. Qed.

Lemma extends_execute f s scope r cb : extends (execute f s scope r cb).
Proof. unfold execute. extends_all. Qed.

Lemma extends_assign_keys this data keys : extends (assign_keys this data keys).
Proof. induction keys as [|key keys IH]; simpl; extends_all. Qed.

Section Extends.
Context (development : bool) (global_name : option string).
Context (compile : string → option nat) (querySelector : string → value).
Context (run : extern → value → list value → list cell → (value + value) * list cell).

Lemma extends_compile_view s : extends (compile_view compile s).
Proof. unfold compile_view, object. extends_all. Qed.

Lemma extends_query_selector s : extends (query_selector querySelector s).
Proof. unfold query_selector. extends_all. Qed.

Section Callf.
Context (callf : value → value → list value → M value).
Context (Hcallf : ∀ f this args, extends (callf f this args)).

Lemma extends_call_method recv name args : extends (call_method callf recv name args).
Proof. unfold call_method, array, function. extends_all. apply Hcallf. Qed.

Lemma extends_get_index o i : extends (get_index o i).
Proof. unfold get_index. extends_all. Qed.

Lemma extends_less_than i len : extends (less_than i len).
Proof. unfold less_than. extends_all. Qed.

Lemma extends_emit_loop n handlers i data : extends (emit_loop callf n handlers i data).
Proof.
  revert i. induction n as [|n IH]; intros i; simpl; [extends_all|].
  apply extends_bind; [apply extends_get|intros len].
  apply extends_bind; [apply extends_less_than|intros [|]]; [|extends_all].
  apply extends_bind; [apply extends_get_index|intros handler].
  apply extends_bind; [apply Hcallf|intros _]. apply IH.
Qed.

Lemma extends_natives :
  (∀ next start this, extends (create callf next start this))
  ∧ (∀ data next start this, extends (update data next start this))
  ∧ (∀ next start this, extends (destroy next start this))
  ∧ (∀ type handler this, extends (on callf type handler this))
  ∧ (∀ type handler this, extends (off callf type handler this))
  ∧ (∀ n type data this, extends (emit callf n type data this))
  ∧ (∀ this next element, extends (create_done callf this next element))
  ∧ (∀ this next, extends (update_done callf this next))
  ∧ (∀ this next, extends (destroy_done callf this next))
  ∧ (∀ data this, extends (moon_component callf data this))
  ∧ (∀ root element, extends (mount callf root element)).
Proof.
  pose proof extends_call_method. pose proof extends_execute.
  pose proof extends_assign_keys. pose proof extends_to_key.
  pose proof extends_emit_loop.
  repeat split; intros;
    unfold create, update, destroy, on, off, emit, create_done, update_done,
      destroy_done, moon_component, mount, array, object, function;
    extends_all; auto.
Qed.

End Callf.

Lemma extends_call fuel f this args : extends (call run fuel f this args).
Proof.
  revert f this args. induction fuel as [|fuel IH]; intros f this args; simpl;
    [extends_all|].
  destruct (extends_natives (call run fuel) IH)
    as (? & ? & ? & ? & ? & ? & ? & ? & ? & ? & ?).
  destruct f as [| | | | |l| |[]| |]; extends_all;
    auto using extends_call_method, extends_assign_keys, extends_to_key,
      extends_emit_loop, extends_execute.
Qed.

Lemma extends_construct fuel f args : extends (construct run fuel f args).
Proof.
  destruct (extends_natives (call run fuel) (extends_call fuel))
    as (? & ? & ? & ? & ? & ? & ? & ? & ? & ? & ?).
  unfold construct. extends_all;
    auto using extends_call_method, extends_assign_keys, extends_call.
Qed.

End Extends.

(** ** The heap that [Moon] builds *)

Section MoonConstructor.
Context (compile : string → option nat).

Lemma compile_view_ok s t h tr ck :
  compile s = Some t →
  compile_view compile s (State h tr ck)
  = (Ok (VRef (length h)), State (h ++ [view_cell t]) (tr ++ [EvCompile s]) ck).
Proof. intros Ht. unfold compile_view. by rewrite Ht. Qed.

Lemma compile_view_fails s h tr ck :
  compile s = None →
  compile_view compile s (State h tr ck)
  = (Throw SyntaxError, State h (tr ++ [EvCompile s]) ck).
Proof. intros Ht. unfold compile_view. by rewrite Ht. Qed.

Lemma moon_heap_data h d c cells x :
  d < length h → d ≠ components →
  <[components := x]> (heap_with h d c cells) !! d = Some c.
Proof.
  intros Hd Hdc. rewrite list_lookup_insert_ne by done. by apply heap_with_lookup.
Qed.

Lemma moon_heap_new h d c vc cells x i :
  components < length h →
  <[components := x]> (heap_with h d c (vc ++ cells)) !! (i + (length vc + length h))
  = cells !! i.
Proof.
  intros Hc. rewrite list_lookup_insert_ne by lia.
  replace (i + (length vc + length h)) with ((i + length vc) + length h) by lia.
  rewrite heap_with_lookup_new. rewrite lookup_app_r by lia.
  f_equal. lia.
Qed.

Lemma moon_heap_view h d c v cells x :
  components < length h →
  <[components := x]> (heap_with h d c ([v] ++ cells)) !! length h = Some v.
Proof.
  intros Hc. rewrite list_lookup_insert_ne by lia.
  exact (heap_with_lookup_new h d c ([v] ++ cells) 0).
Qed.

End MoonConstructor.


Section Compile.
Context (development : bool) (global_name : option string).
Context (compile : string → option nat) (querySelector : string → value).
Context (run : extern → value → list value → list cell → (value + value) * list cell).

(** C5: with a string view, the first thing [Moon] does to the outside
    world is to call [compile]; whatever follows, a call of [execute]
    included, comes after it. When [compile] throws, [Moon] throws the same
    error, having set [data.name] and nothing else: no instance exists and
    [execute] has not been called. *)
Theorem compile_error_propagates fuel h tr ck d props s :
  pristine h →
  h !! d = Some (ObjC props (Some object_prototype)) →
  props !! "view" = Some (VStr s) →
  let result :=
    Moon development global_name compile querySelector run fuel (VRef d) (State h tr ck) in
  (∃ evs, trace result.2 = tr ++ EvCompile s :: evs)
  ∧ (compile s = None →
     result = (Throw SyntaxError,
               State (<[d := ObjC (named props) (Some object_prototype)]> h)
                     (tr ++ [EvCompile s]) ck)).
Proof.
  intros H0 Hd Hview result. subst result.
  pose proof (plain_not_prototype _ _ _ H0 Hd) as Hd0.
  assert (d < length h) as Hlt by (by eapply lookup_lt_Some).
  assert (State h tr ck
          = State (heap_with h d (ObjC props (Some object_prototype)) []) tr ck) as ->
    by (by rewrite <- heap_with_start).
  unfold Moon. mstep. mstep. mstep.
  change (<["name" := _]> props) with (named props).
  assert (named props !! "view" = Some (VStr s)) as Hnv
    by (unfold named; by rewrite lookup_insert_ne).
  rewrite !Hnv.
  cbn [from_option id].
  assert ((if development && bool_decide (VStr s = VUndef)
           then name <- get (VRef d) "name";; util_error name else ret ())
          = ret tt) as -> by (by destruct development).
  rewrite bind_ret, bind_assoc. unfold compile_view. rewrite !bind_assoc.
  erewrite bind_ok by reflexivity. cbn [trace heap clock].
  unfold heap_with. rewrite !app_nil_r.
  match goal with
  | |- (∃ evs, trace (?K ?st).2 = _) ∧ _ => assert (extends K) as Hext
  end.
  { pose proof (extends_call run fuel). pose proof (extends_construct run fuel).
    pose proof (extends_call_method _ (extends_call run fuel)).
    pose proof (extends_query_selector querySelector).
    unfold object, array, function. extends_all; auto. }
  split.
  - destruct (Hext (State (<[d := ObjC (named props) (Some object_prototype)]> h)
                          (tr ++ [EvCompile s]) ck)) as [evs Hevs].
    exists evs. rewrite Hevs. simpl. by rewrite <- app_assoc.
  - intros Hnone. by rewrite Hnone.
Qed.

End Compile.

(** ** Event handlers: [on] and [off] *)

Lemma index_of_absent (v : value) (xs : list value) (i : Z) :
  v ∉ xs → index_of v xs i = (-1)%Z.
Proof.
  revert i. induction xs as [|x xs IH]; intros i Hnot; [done|].
  simpl. apply not_elem_of_cons in Hnot as [Hne Hnot].
  destruct (decide (x = v)); [congruence|]. by apply IH.
Qed.

Lemma splice_last (xs : list value) :
  xs ≠ [] →
  splice xs (-1) 1 = (take (length xs - 1) xs, drop (length xs - 1) xs).
Proof.
  intros Hne. unfold splice.
  assert (0 < length xs) by (destruct xs; [done | simpl; lia]).
  replace ((-1 <? 0)%Z) with true by done.
  replace (Z.max (Z.of_nat (length xs) + -1) 0) with (Z.of_nat (length xs - 1)) by lia.
  replace (Z.min (Z.max 1 0) (Z.of_nat (length xs) - Z.of_nat (length xs - 1)))
    with 1%Z by lia.
  replace (Z.to_nat (Z.of_nat (length xs - 1) + 1)) with (length xs) by lia.
  rewrite Nat2Z.id, drop_all, app_nil_r.
  f_equal. change (Z.to_nat 1) with 1.
  rewrite take_ge; [done|]. rewrite length_drop. lia.
Qed.

Section Handlers.
Context (callf : value → value → list value → M value).

Lemma call_method_indexOf a hs v h tr ck :
  h !! a = Some (ArrC hs) →
  call_method callf (VRef a) "indexOf" [v] (State h tr ck)
  = (Ok (VNum (index_of v hs 0)), State h tr ck).
Proof. intros Ha. unfold call_method, bind, read. simpl. by rewrite Ha. Qed.

Lemma call_method_splice a hs start count h tr ck :
  h !! a = Some (ArrC hs) →
  call_method callf (VRef a) "splice" [VNum start; VNum count] (State h tr ck)
  = (Ok (VRef (length h)),
     State (<[a := ArrC (splice hs start count).1]> h ++ [ArrC (splice hs start count).2])
           tr ck).
Proof.
  intros Ha. unfold call_method, bind, read. simpl. rewrite Ha. simpl.
  destruct (splice hs start count) as [kept removed]. simpl.
  unfold array, alloc, set_heap. simpl. by rewrite length_insert.
Qed.

Lemma call_method_push a hs v h tr ck :
  h !! a = Some (ArrC hs) →
  call_method callf (VRef a) "push" [v] (State h tr ck)
  = (Ok (VNum (Z.of_nat (length hs) + 1)), State (<[a := ArrC (hs ++ [v])]> h) tr ck).
Proof. intros Ha. unfold call_method, bind, read. simpl. by rewrite Ha. Qed.

Lemma call_method_bind f this h tr ck :
  bindable h f →
  call_method callf f "bind" [this] (State h tr ck)
  = (Ok (VRef (length h)), State (h ++ [FunC (Bound f this)]) tr ck).
Proof.
  intros Hf. destruct f; try done. destruct Hf as [c Hc].
  unfold call_method, bind, read. simpl. by rewrite Hc.
Qed.

(** C8, as amended: [on] stores a fresh bound closure, which is not the
    caller's function; and when the caller's function is not itself in a
    non-empty list, [off] with it removes the last handler of the list,
    whichever that is. *)
Theorem off_removes_last h tr ck this e key a hs handler :
  lookup_chain (length h) h this "events" = Ok (VRef e) →
  lookup_chain (length h) h e key = Ok (VRef a) →
  h !! a = Some (ArrC hs) →
  hs ≠ [] →
  handler ∉ hs →
  bindable h handler →
  on callf (VStr key) handler (VRef this) (State h tr ck)
  = (Ok VUndef,
     State (<[a := ArrC (hs ++ [VRef (length h)])]> (h ++ [FunC (Bound handler (VRef this))]))
           tr ck)
  ∧ VRef (length h) ≠ handler
  ∧ off callf (VStr key) handler (VRef this) (State h tr ck)
    = (Ok VUndef,
       State (<[a := ArrC (take (length hs - 1) hs)]> h ++ [ArrC (drop (length hs - 1) hs)])
             tr ck).
Proof.
  intros He Ha Hhs Hne Hnot Hbind.
  assert (handler ≠ VUndef) as Hh by (by destruct handler).
  split; [|split].
  - unfold on.
    erewrite bind_ok by (by apply get_ref).
    erewrite bind_ok by done.
    erewrite bind_ok by (by apply get_ref).
    destruct (decide (VRef a = VUndef)); [done|].
    erewrite bind_ok by (by apply call_method_bind).
    erewrite bind_ok by (apply call_method_push; by apply lookup_app_l_Some).
    done.
  - destruct handler; try done. destruct Hbind as [c Hc].
    apply lookup_lt_Some in Hc. intros [= Heq]. lia.
  - unfold off.
    destruct (decide (VStr key = VUndef)); [done|].
    destruct (decide (handler = VUndef)); [done|].
    erewrite bind_ok by (by apply get_ref).
    erewrite bind_ok by done.
    erewrite bind_ok by (by apply get_ref).
    erewrite bind_ok by (by apply call_method_indexOf).
    erewrite bind_ok by (by apply call_method_splice).
    rewrite index_of_absent by done. by rewrite splice_last.
Qed.

End Handlers.

(** ** The lifecycle entry points *)

Lemma start_step start h tr ck :
  (if decide (start = VUndef) then performance_now else ret start) (State h tr ck)
  = (Ok (start_time start ck), State h tr ck).
Proof. unfold start_time. by destruct (decide (start = VUndef)). Qed.

Lemma execute_step f s scope r cb h tr ck :
  execute f s scope r cb (State h tr ck)
  = (Ok VUndef, State h (tr ++ [EvExecute f s scope r cb]) ck).
Proof. done. Qed.

Lemma assigned_lookup dprops keys tprops j :
  assigned dprops tprops keys !! j
  = if decide (j ∈ keys) then Some (default VUndef (dprops !! j)) else tprops !! j.
Proof.
  unfold assigned. revert tprops. induction keys as [|k keys IH]; intros tprops; simpl.
  - destruct (decide (j ∈ [])) as [Hin|]; [by apply elem_of_nil in Hin|done].
  - rewrite IH. destruct (decide (j ∈ keys)) as [Hin|Hnot].
    + rewrite decide_True; [done|by right].
    + destruct (decide (j = k)) as [->|Hne].
      * rewrite decide_True by left. by rewrite lookup_insert_eq.
      * rewrite decide_False by (intros [?|?]%elem_of_cons; done).
        by rewrite lookup_insert_ne.
Qed.

Lemma assigned_union (dprops tprops : gmap string value) :
  assigned dprops tprops (map_to_list dprops).*1 = dprops ∪ tprops.
Proof.
  apply map_eq. intros j. rewrite assigned_lookup.
  destruct (dprops !! j) as [x|] eqn:Hj.
  - rewrite decide_True.
    + symmetry. by apply lookup_union_Some_l.
    + apply list_elem_of_fmap. exists (j, x). split; [done|].
      by apply elem_of_map_to_list.
  - rewrite decide_False.
    + by rewrite lookup_union_r.
    + intros ([j' x] & -> & Hin)%list_elem_of_fmap.
      apply elem_of_map_to_list in Hin. simpl in *. congruence.
Qed.

Lemma assign_keys_plain h tr ck l d tprops tproto dprops dproto keys :
  h !! l = Some (ObjC tprops tproto) →
  h !! d = Some (ObjC dprops dproto) →
  l ≠ d →
  (∀ k, k ∈ keys → is_Some (dprops !! k) ∧ k ≠ "__proto__"%string) →
  assign_keys (VRef l) (VRef d) keys (State h tr ck)
  = (Ok tt, State (<[l := ObjC (assigned dprops tprops keys) tproto]> h) tr ck).
Proof.
  revert h tprops. induction keys as [|k keys IH]; intros h tprops Hl Hd Hne Hkeys.
  - simpl. by rewrite list_insert_id.
  - destruct (Hkeys k) as [[x Hx] Hk]; [left|]. simpl.
    erewrite bind_ok by (apply get_ref; by eapply get_own).
    erewrite bind_ok by (by eapply put_obj).
    assert (l < length h) as Hlt by (by eapply lookup_lt_Some).
    rewrite IH with (tprops := <[k := x]> tprops).
    + rewrite list_insert_insert_eq. unfold assigned. simpl. by rewrite Hx.
    + by apply list_lookup_insert_eq.
    + by rewrite list_lookup_insert_ne.
    + done.
    + intros k' Hk'. apply Hkeys. by right.
Qed.

Lemma for_in_keys_plain h tr ck d dprops :
  h !! d = Some (ObjC dprops (Some object_prototype)) →
  d ≠ object_prototype →
  for_in_keys (VRef d) (State h tr ck) = (Ok (map_to_list dprops).*1, State h tr ck).
Proof.
  intros Hd Hd0. unfold for_in_keys. simpl.
  assert (d < length h) as Hlt by (by eapply lookup_lt_Some).
  unfold object_prototype in *.
  destruct (length h) as [|[|n]]; [lia|lia|]. simpl. unfold object_prototype.
  destruct (decide (d = 0)); [done|]. rewrite Hd.
  destruct (decide (0 = 0)); [|done]. f_equal. f_equal. apply app_nil_r.
Qed.

Section Entry.
Context (run : extern → value → list value → list cell → (value + value) * list cell).

Lemma call_callee fuel h tr ck f this args e ethis :
  callee h f this = Some (e, ethis) →
  call run (2 + fuel) f this args (State h tr ck)
  = external run e ethis args (State h tr ck).
Proof.
  intros Hc. destruct f; try done.
  - simpl in Hc. destruct (h !! l) as [[| |[[]| | | | |]]|] eqn:Hl; try done.
    injection Hc as -> ->. simpl.
    erewrite bind_ok by (by apply read_at). done.
  - by injection Hc as -> ->.
Qed.

Lemma external_returns e this args h tr ck r h1 :
  run e this args h = (inl r, h1) →
  external run e this args (State h tr ck)
  = (Ok r, State h1 (tr ++ [EvCall e this args]) ck).
Proof. intros Hr. unfold external, bind, log. simpl. by rewrite Hr. Qed.

Lemma destroy_calls_execute h tr ck l v next start rd :
  lookup_chain (length h) h l "view" = Ok (VRef v) →
  lookup_chain (length h) h v "destroy" = Ok rd →
  destroy next start (VRef l) (State h tr ck)
  = (Ok VUndef,
     State (h ++ [FunC (DestroyDone (VRef l) next)])
           (tr ++ [EvExecute (VNum 0) (start_time start ck) (VRef l) rd (VRef (length h))])
           ck).
Proof.
  intros Hv Hr. unfold destroy.
  erewrite bind_ok by apply start_step.
  erewrite bind_ok by (by apply get_ref).
  erewrite bind_ok by (by apply get_ref).
  erewrite bind_ok by apply alloc_at.
  apply execute_step.
Qed.

Lemma update_calls_execute h tr ck l tprops tproto d dprops vu ru next start :
  h !! l = Some (ObjC tprops tproto) →
  h !! d = Some (ObjC dprops (Some object_prototype)) →
  d ≠ object_prototype → d ≠ l →
  dprops !! "__proto__" = None →
  let hu := <[l := ObjC (dprops ∪ tprops) tproto]> h in
  lookup_chain (length hu) hu l "view" = Ok (VRef vu) →
  lookup_chain (length hu) hu vu "update" = Ok ru →
  update (VRef d) next start (VRef l) (State h tr ck)
  = (Ok VUndef,
     State (hu ++ [FunC (UpdateDone (VRef l) next)])
           (tr ++ [EvExecute (VNum 0) (start_time start ck) (VRef l) ru (VRef (length hu))])
           ck).
Proof.
  intros Hl Hd Hd0 Hdl Hproto hu Hv Hr. unfold update.
  erewrite bind_ok by (by apply for_in_keys_plain).
  erewrite bind_ok.
  2:{ eapply assign_keys_plain; [done|done|done|].
      intros k ([k' x] & -> & Hin)%list_elem_of_fmap.
      apply elem_of_map_to_list in Hin. simpl in *. split; [done|].
      intros ->. congruence. }
  rewrite assigned_union. fold hu.
  erewrite bind_ok by apply start_step.
  erewrite bind_ok by (by apply get_ref).
  erewrite bind_ok by (by apply get_ref).
  erewrite bind_ok by apply alloc_at.
  apply execute_step.
Qed.

Lemma create_calls_execute fuel h tr ck l v vprops vproto vdata e ethis r h1 v1 rc next start :
  lookup_chain (length h) h l "view" = Ok (VRef v) →
  h !! v = Some (ObjC vprops vproto) →
  lookup_chain (length h) h v "data" = Ok vdata →
  callee h vdata (VRef v) = Some (e, ethis) →
  run e ethis [] h = (inl r, h1) →
  lookup_chain (length h1) h1 l "view" = Ok (VRef v1) →
  lookup_chain (length h1) h1 v1 "create" = Ok rc →
  create (call run (2 + fuel)) next start (VRef l) (State h tr ck)
  = (Ok VUndef,
     State (h1 ++ [FunC (CreateDone (VRef l) next)])
           (tr ++ [EvCall e ethis [];
                   EvExecute (VNum 0) (start_time start ck) (VRef l) rc (VRef (length h1))])
           ck).
Proof.
  intros Hv Hvc Hdata Hcallee Hrun Hv1 Hrc. unfold create.
  erewrite bind_ok by (by apply get_ref).
  erewrite bind_ok.
  2:{ unfold call_method. erewrite bind_ok by (by apply read_at). cbv beta iota.
      erewrite bind_ok by (by apply get_ref).
      erewrite call_callee by done. by apply external_returns. }
  erewrite bind_ok by apply start_step.
  erewrite bind_ok by (by apply get_ref).
  erewrite bind_ok by (by apply get_ref).
  erewrite bind_ok by apply alloc_at.
  rewrite execute_step. by rewrite <- app_assoc.
Qed.

(** C7: each entry point calls [execute] once, with flags 0, the given
    start or the clock, the instance, the routine of the view and a fresh
    completion callback; [update] first copies the keys of its data. *)
Theorem lifecycle_calls_execute fuel h tr ck l tprops tproto next start
    v vprops vproto vdata e ethis r h1 v1 rc d dprops vu ru rd :
  h !! l = Some (ObjC tprops tproto) →
  lookup_chain (length h) h l "view" = Ok (VRef v) →
  h !! v = Some (ObjC vprops vproto) →
  lookup_chain (length h) h v "data" = Ok vdata →
  callee h vdata (VRef v) = Some (e, ethis) →
  run e ethis [] h = (inl r, h1) →
  lookup_chain (length h1) h1 l "view" = Ok (VRef v1) →
  lookup_chain (length h1) h1 v1 "create" = Ok rc →
  h !! d = Some (ObjC dprops (Some object_prototype)) →
  d ≠ object_prototype → d ≠ l →
  dprops !! "__proto__" = None →
  lookup_chain (length (<[l := ObjC (dprops ∪ tprops) tproto]> h))
               (<[l := ObjC (dprops ∪ tprops) tproto]> h) l "view" = Ok (VRef vu) →
  lookup_chain (length (<[l := ObjC (dprops ∪ tprops) tproto]> h))
               (<[l := ObjC (dprops ∪ tprops) tproto]> h) vu "update" = Ok ru →
  lookup_chain (length h) h v "destroy" = Ok rd →
  create (call run (2 + fuel)) next start (VRef l) (State h tr ck)
  = (Ok VUndef,
     State (h1 ++ [FunC (CreateDone (VRef l) next)])
           (tr ++ [EvCall e ethis [];
                   EvExecute (VNum 0) (start_time start ck) (VRef l) rc (VRef (length h1))])
           ck)
  ∧ update (VRef d) next start (VRef l) (State h tr ck)
    = (Ok VUndef,
       State (<[l := ObjC (dprops ∪ tprops) tproto]> h ++ [FunC (UpdateDone (VRef l) next)])
             (tr ++ [EvExecute (VNum 0) (start_time start ck) (VRef l) ru
                               (VRef (length (<[l := ObjC (dprops ∪ tprops) tproto]> h)))])
             ck)
  ∧ (∀ k x, dprops !! k = Some x → (dprops ∪ tprops) !! k = Some x)
  ∧ destroy next start (VRef l) (State h tr ck)
    = (Ok VUndef,
       State (h ++ [FunC (DestroyDone (VRef l) next)])
             (tr ++ [EvExecute (VNum 0) (start_time start ck) (VRef l) rd (VRef (length h))])
             ck).
Proof.
  intros. split; [by eapply create_calls_execute|].
  split; [by eapply update_calls_execute|].
  split; [intros k x Hk; by apply lookup_union_Some_l|].
  by eapply destroy_calls_execute.
Qed.

Lemma bind_inv {A B} (m : M A) (f : A → M B) st r st' :
  bind m f st = (Ok r, st') → ∃ a st1, m st = (Ok a, st1) ∧ f a st1 = (Ok r, st').
Proof. unfold bind. destruct (m st) as [[a| | |] st1]; intros; by eauto. Qed.

Lemma get_same o k st r st1 : get o k st = (r, st1) → st1 = st.
Proof. unfold get. destruct o; by intros [= _ <-]. Qed.

Lemma start_same start st r st1 :
  (if decide (start = VUndef) then performance_now else ret start) st = (r, st1) → st1 = st.
Proof. destruct (decide (start = VUndef)); by intros [= _ <-]. Qed.

Lemma quiet_for_in_keys o st : trace (for_in_keys o st).2 = trace st.
Proof. unfold for_in_keys. by destruct o. Qed.

Lemma quiet_assign_keys this data keys st :
  trace (assign_keys this data keys st).2 = trace st.
Proof.
  revert st. induction keys as [|k keys IH]; intros st; [done|]. simpl.
  unfold bind. destruct (get data k st) as [r st1] eqn:Hget.
  apply get_same in Hget as ->. destruct r; try done.
  destruct (put this k a st) as [r st2] eqn:Hput.
  assert (trace st2 = trace st) as Htr.
  { revert Hput. unfold put. destruct this; try by intros [= _ <-].
    destruct (heap st !! l) as [[]|]; try by intros [= _ <-].
    destruct (decide _); by intros [= _ <-]. }
  destruct r; try done. by rewrite IH.
Qed.

(** C3, as amended: the wrapper does not hold a walk back. Whatever the
    state, and so whatever walks are still pending, an entry point that
    returns has called [execute] for the instance as the last thing it
    did; serialising walks is left to the executor. *)
Theorem lifecycle_never_defers fuel data next start this st st' r :
  create (call run fuel) next start this st = (Ok r, st')
  ∨ update data next start this st = (Ok r, st')
  ∨ destroy next start this st = (Ok r, st') →
  ∃ evs startTime routine onComplete,
    trace st' = trace st ++ evs ++ [EvExecute (VNum 0) startTime this routine onComplete].
Proof.
  intros [H|[H|H]].
  - unfold create in H.
    apply bind_inv in H as (view & st1 & H1 & H). apply get_same in H1 as ->.
    apply bind_inv in H as (x & st2 & H2 & H).
    destruct (extends_call_method _ (extends_call run fuel) view "data" [] st)
      as [evs Hevs]. rewrite H2 in Hevs. simpl in Hevs.
    apply bind_inv in H as (s' & st3 & H3 & H). apply start_same in H3 as ->.
    apply bind_inv in H as (view' & st4 & H4 & H). apply get_same in H4 as ->.
    apply bind_inv in H as (routine & st5 & H5 & H). apply get_same in H5 as ->.
    apply bind_inv in H as (cb & st6 & [= <- <-] & H).
    injection H as _ <-. exists evs, s', routine, (VRef (length (heap st2))).
    simpl. by rewrite Hevs, <- app_assoc.
  - unfold update in H.
    apply bind_inv in H as (keys & st1 & H1 & H).
    pose proof (quiet_for_in_keys data st) as Hq1. rewrite H1 in Hq1. simpl in Hq1.
    apply bind_inv in H as ([] & st2 & H2 & H).
    pose proof (quiet_assign_keys this data keys st1) as Hq2. rewrite H2 in Hq2.
    simpl in Hq2.
    apply bind_inv in H as (s' & st3 & H3 & H). apply start_same in H3 as ->.
    apply bind_inv in H as (view' & st4 & H4 & H). apply get_same in H4 as ->.
    apply bind_inv in H as (routine & st5 & H5 & H). apply get_same in H5 as ->.
    apply bind_inv in H as (cb & st6 & [= <- <-] & H).
    injection H as _ <-. exists [], s', routine, (VRef (length (heap st2))).
    simpl. by rewrite Hq2, Hq1.
  - unfold destroy in H.
    apply bind_inv in H as (s' & st3 & H3 & H). apply start_same in H3 as ->.
    apply bind_inv in H as (view' & st4 & H4 & H). apply get_same in H4 as ->.
    apply bind_inv in H as (routine & st5 & H5 & H). apply get_same in H5 as ->.
    apply bind_inv in H as (cb & st6 & [= <- <-] & H).
    injection H as _ <-. by exists [], s', routine, (VRef (length (heap st))).
Qed.

End Entry.

(** ** [emit] and the completion callbacks *)

Section Emit.
Context (run : extern → value → list value → list cell → (value + value) * list cell).

Lemma keeps_trans locs h1 h2 h3 : keeps locs h1 h2 → keeps locs h2 h3 → keeps locs h1 h3.
Proof. intros H12 H23 l Hl. by rewrite H23, H12. Qed.

Lemma callee_keeps hs a h hc f :
  keeps (a :: refs hs) h hc → f ∈ hs → callee hc f (VRef a) = callee h f (VRef a).
Proof.
  intros Hk Hf. destruct f; try done. simpl. rewrite Hk; [done|].
  right. unfold refs. apply list_elem_of_omap. by exists (VRef l).
Qed.

Lemma get_length a hs h tr ck :
  h !! a = Some (ArrC hs) →
  get (VRef a) "length" (State h tr ck) = (Ok (VNum (Z.of_nat (length hs))), State h tr ck).
Proof.
  intros Ha. apply get_ref.
  assert (a < length h) as Hlt by (by eapply lookup_lt_Some).
  destruct (length h); [lia|]. simpl. by rewrite Ha.
Qed.

Lemma emit_loop_round callf n handlers i data :
  emit_loop callf (S n) handlers i data
  = (len <- get handlers "length" ;;
     continue <- less_than i len ;;
     if continue : bool then
       handler <- get_index handlers i ;;
       callf handler handlers [data] ;;
       emit_loop callf n handlers (S i) data
     else ret VUndef).
Proof. done. Qed.

Lemma emit_loop_calls fuel a hs data ck h targets :
  h !! a = Some (ArrC hs) →
  well_behaved run data (a :: refs hs) targets →
  ∀ rest rtargets,
    Forall2 (λ f t, callee h f (VRef a) = Some t) rest rtargets →
    ∀ i n hc trc,
      drop i hs = rest →
      (∀ t, t ∈ rtargets → t ∈ targets) →
      keeps (a :: refs hs) h hc →
      length rest < n →
      ∃ h', emit_loop (call run (2 + fuel)) n (VRef a) i data (State hc trc ck)
            = (Ok VUndef, State h' (trc ++ calls data rtargets) ck)
            ∧ keeps (a :: refs hs) h h'.
Proof.
  intros Ha Hwb rest rtargets Hall.
  induction Hall as [|f [e ethis] rest rtargets Hf Hall IH];
    intros i n hc trc Hdrop Hsub Hk Hn.
  - destruct n as [|n]; [simpl in Hn; lia|].
    exists hc. split; [|done]. rewrite emit_loop_round.
    erewrite bind_ok by (apply get_length; rewrite Hk; [done|left]).
    unfold less_than. rewrite bind_ret.
    assert (length hs ≤ i) as Hle.
    { apply (f_equal length) in Hdrop. rewrite length_drop in Hdrop. simpl in Hdrop. lia. }
    rewrite bool_decide_eq_false_2 by lia. unfold calls. simpl. by rewrite app_nil_r.
  - destruct n as [|n]; [simpl in Hn; lia|].
    assert (hs !! i = Some f) as Hi.
    { pose proof (lookup_drop hs i 0) as Hl. rewrite Hdrop, Nat.add_0_r in Hl. done. }
    assert (drop (S i) hs = rest) as Hdrop'.
    { pose proof (drop_S hs f i Hi) as Hd. rewrite Hdrop in Hd. congruence. }
    assert (f ∈ hs) as Hfin by (by eapply list_elem_of_lookup_2).
    assert (hc !! a = Some (ArrC hs)) as Hca by (rewrite Hk; [done|left]).
    destruct (Hwb e ethis hc) as (v & h1 & Hrun & Hk1); [apply Hsub; left|].
    destruct (IH (S i) n h1 (trc ++ [EvCall e ethis [data]])) as (h' & Hloop & Hk');
      [done| |by eapply keeps_trans|simpl in Hn; lia|].
    { intros t Ht. apply Hsub. by right. }
    exists h'. split; [|done]. rewrite emit_loop_round.
    erewrite bind_ok by (by apply get_length).
    unfold less_than. rewrite bind_ret.
    apply lookup_lt_Some in Hi as Hlt.
    rewrite bool_decide_eq_true_2 by lia.
    erewrite bind_ok.
    2:{ unfold get_index. erewrite bind_ok by (by apply read_at). cbv beta iota.
        by rewrite Hi. }
    erewrite bind_ok.
    2:{ etransitivity; [apply (call_callee run fuel); by erewrite callee_keeps|].
        by apply external_returns. }
    rewrite Hloop. unfold calls. simpl. by rewrite <- app_assoc.
Qed.

(** [emit] on a list of handlers from outside the module. *)
Lemma emit_calls_handlers fuel rounds h tr ck l e key a hs targets data :
  lookup_chain (length h) h l "events" = Ok (VRef e) →
  lookup_chain (length h) h e key = Ok (VRef a) →
  h !! a = Some (ArrC hs) →
  Forall2 (λ f t, callee h f (VRef a) = Some t) hs targets →
  well_behaved run data (a :: refs hs) targets →
  length hs < rounds →
  ∃ h', emit (call run (2 + fuel)) rounds (VStr key) data (VRef l) (State h tr ck)
        = (Ok VUndef, State h' (tr ++ calls data targets) ck)
        ∧ keeps (a :: refs hs) h h'.
Proof.
  intros He Ha Hhs Hall Hwb Hrounds. unfold emit.
  erewrite bind_ok by (by apply get_ref).
  erewrite bind_ok by done.
  erewrite bind_ok by (by apply get_ref).
  by eapply emit_loop_calls.
Qed.

Lemma emit_undefined callf rounds h tr ck l e key data :
  lookup_chain (length h) h l "events" = Ok (VRef e) →
  lookup_chain (length h) h e key = Ok VUndef →
  emit callf (S rounds) (VStr key) data (VRef l) (State h tr ck)
  = (Throw TypeError, State h tr ck).
Proof.
  intros He Ha. unfold emit.
  erewrite bind_ok by (by apply get_ref).
  erewrite bind_ok by done.
  erewrite bind_ok by (by apply get_ref).
  done.
Qed.

(** [events["__proto__"]] is Object.prototype, which has no [length]. *)
Lemma emit_inherited callf rounds h tr ck l e eprops data :
  pristine h →
  lookup_chain (length h) h l "events" = Ok (VRef e) →
  h !! e = Some (ObjC eprops (Some object_prototype)) →
  emit callf (S rounds) (VStr "__proto__") data (VRef l) (State h tr ck)
  = (Ok VUndef, State h tr ck).
Proof.
  intros H0 He Hcell.
  assert (e < length h) as Hlt by (by eapply lookup_lt_Some).
  unfold emit.
  erewrite bind_ok by (by apply get_ref).
  erewrite bind_ok by done.
  erewrite (bind_ok _ _ _ (VRef object_prototype)).
  2:{ apply get_ref. destruct (length h) as [|n]; [lia|]. simpl. by rewrite Hcell. }
  rewrite emit_loop_round.
  erewrite (bind_ok _ _ _ VUndef); [done|].
  apply get_ref. unfold pristine in H0.
  destruct (length h) as [|n]; [lia|]. simpl. by rewrite H0.
Qed.

(** C10, as amended: [emit] calls the handlers listed under the type in
    order, each with the data; for a type under which [events[type]] is
    undefined it throws a TypeError. That is so for a type without an
    entry in a plain events map, and for any type after [off()], when the
    type is neither [__proto__] nor a member of Object.prototype; for
    [__proto__] it returns without a call. *)
Theorem emit_requires_handlers fuel rounds h tr ck l tprops tproto e key a hs targets
    data missing type :
  lookup_chain (length h) h l "events" = Ok (VRef e) →
  lookup_chain (length h) h e key = Ok (VRef a) →
  h !! a = Some (ArrC hs) →
  Forall2 (λ f t, callee h f (VRef a) = Some t) hs targets →
  well_behaved run data (a :: refs hs) targets →
  length hs < rounds →
  lookup_chain (length h) h e missing = Ok VUndef →
  pristine h →
  h !! l = Some (ObjC tprops tproto) →
  l ≠ object_prototype →
  own_name type →
  (∃ h', emit (call run (2 + fuel)) rounds (VStr key) data (VRef l) (State h tr ck)
         = (Ok VUndef, State h' (tr ++ calls data targets) ck)
         ∧ keeps (a :: refs hs) h h')
  ∧ emit (call run fuel) (S rounds) (VStr missing) data (VRef l) (State h tr ck)
    = (Throw TypeError, State h tr ck)
  ∧ (off (call run fuel) VUndef VUndef (VRef l) ;;
     emit (call run fuel) (S rounds) (VStr type) data (VRef l)) (State h tr ck)
    = (Throw TypeError,
       State (<[l := ObjC (<["events" := VRef (length h)]> tprops) tproto]>
                (h ++ [ObjC ∅ (Some object_prototype)]))
             tr ck)
  ∧ (∀ eprops,
       h !! e = Some (ObjC eprops (Some object_prototype)) →
       (eprops !! type = None →
        emit (call run fuel) (S rounds) (VStr type) data (VRef l) (State h tr ck)
        = (Throw TypeError, State h tr ck))
       ∧ emit (call run fuel) (S rounds) (VStr "__proto__") data (VRef l) (State h tr ck)
         = (Ok VUndef, State h tr ck)).
Proof.
  intros He Ha Hhs Hall Hwb Hrounds Hmissing H0 Hl Hl0 Htype.
  split; [by eapply emit_calls_handlers|].
  split; [by eapply emit_undefined|].
  split.
  { assert (l < length h) as Hlt by (by eapply lookup_lt_Some).
    unfold off. destruct (decide (VUndef = VUndef)); [|done].
    rewrite !bind_assoc. unfold object.
    erewrite bind_ok by apply alloc_at. rewrite ?bind_assoc.
    erewrite bind_ok by (eapply put_obj; [by apply lookup_app_l_Some|done]).
    rewrite bind_ret.
    eapply emit_undefined.
    - eapply get_own; [|by apply lookup_insert_eq|done].
      apply list_lookup_insert_eq. rewrite length_app. lia.
    - replace VUndef with (default VUndef ((∅ : gmap string value) !! type))
        by (by rewrite lookup_empty).
      eapply get_plain; [| |done].
      + unfold pristine. rewrite list_lookup_insert_ne by done.
        by apply lookup_app_l_Some.
      + rewrite list_lookup_insert_ne by lia.
        rewrite lookup_app_r by lia. by rewrite Nat.sub_diag. }
  intros eprops Hcell. split; [|by eapply emit_inherited].
  intros Hnone. eapply emit_undefined; [exact He|].
  replace VUndef with (default VUndef (eprops !! type)) by (by rewrite Hnone).
  by apply get_plain.
Qed.

Lemma call_emit fuel this args :
  call run (S fuel) (VNative Emit) this args
  = emit (call run fuel) fuel (arg 0 args) (arg 1 args) this.
Proof. done. Qed.

Lemma call_extern fuel e this args :
  call run (S fuel) (VExtern e) this args = external run e this args.
Proof. done. Qed.

End Emit.

(** ** The theorems on the demo program *)

Section Demo.
Import Demo.

Local Abbreviation h := (heap started).
Local Abbreviation tr := (trace started).
Local Abbreviation ck := (clock started).

Lemma host_well_behaved data locs targets : well_behaved Host.run data locs targets.
Proof. intros e this h0 _. by exists VUndef, h0. Defined.

Lemma off_removes_last_witness :
  ∃ st, off (Host.call 0) (VStr "create") listener (VRef instance) (State h tr ck)
        = (Ok VUndef, st)
        ∧ heap st !! creates = Some (ArrC []).
Proof.
  destruct (off_removes_last (Host.call 0) h tr ck instance events "create" creates
              [hook] listener) as (Hon & Hfresh & Hoff).
  - reflexivity.
  - reflexivity.
  - reflexivity.
  - discriminate.
  - intros Hin. apply list_elem_of_singleton in Hin. discriminate.
  - exact I.
  - eexists. split; [exact Hoff|]. reflexivity.
Defined.

(** C8 fails as stated: [Moon] seeds the list with the hook itself, not a
    bound copy, so after [on("create", hook)] the list is the hook followed
    by its bound copy, and [off("create", hook)] finds the hook at index 0.
    It removes that first entry; the last one, the bound copy, stays. *)
Lemma off_removes_seeded_hook :
  let st := ((on (Host.call 0) (VStr "create") hook (VRef instance) ;;
              off (Host.call 0) (VStr "create") hook (VRef instance))
               started).2 in
  ∃ bound,
    heap st !! creates = Some (ArrC [VRef bound])
    ∧ heap st !! bound = Some (FunC (Bound hook (VRef instance)))
    ∧ heap st !! creates ≠ Some (ArrC [hook]).
Proof. exists 13. by vm_compute. Qed.

Lemma lifecycle_never_defers_witness :
  ∃ evs startTime routine onComplete,
    trace (destroy VUndef VUndef (VRef instance) created).2
    = trace created ++ evs
      ++ [EvExecute (VNum 0) startTime (VRef instance) routine onComplete].
Proof.
  apply (lifecycle_never_defers Host.run 0 VUndef VUndef VUndef (VRef instance)
           created (destroy VUndef VUndef (VRef instance) created).2 VUndef).
  right. right. vm_compute. reflexivity.
Defined.

(** C3 fails as stated: [create], then [update] and [destroy] while the
    walk of [create] is still pending (its completion callback has not been
    called) each reach [execute] at once. Three walks have been handed over
    and nothing has been queued in the wrapper. *)
Lemma walks_are_not_queued :
  trace ((Host.call 8 (VNative Update) (VRef instance) [VRef count] ;;
          Host.call 8 (VNative Destroy) (VRef instance) []) created).2
  = [EvCompile "<p/>";
     EvCall (Compiled 0 RData) (VRef instance) [];
     EvExecute (VNum 0) (VNum 100) (VRef instance) (VExtern (Compiled 0 RCreate)) (VRef 13);
     EvExecute (VNum 0) (VNum 100) (VRef instance) (VExtern (Compiled 0 RUpdate)) (VRef 14);
     EvExecute (VNum 0) (VNum 100) (VRef instance) (VExtern (Compiled 0 RDestroy)) (VRef 15)].
Proof. by vm_compute. Qed.

(** C6 fails as stated: when the executor calls the completion callback of
    [create], the handler of the [create] event is called before the
    caller's [next], not after it. *)
Lemma emission_precedes_next :
  let evs := trace (Host.call 5 (VRef onComplete) VUndef [VNode 5] created).2 in
  position (EvCall (User 1) (VRef creates) [VNode 5]) evs = Some 3
  ∧ position (EvCall (User 2) VUndef [VNode 5]) evs = Some 4.
Proof. by vm_compute. Qed.

Lemma lifecycle_calls_execute_witness :
  ∃ st1 st2 st3,
    create (Host.call 2) next VUndef (VRef instance) (State h tr ck) = (Ok VUndef, st1)
    ∧ update (VRef count) next VUndef (VRef instance) (State h tr ck) = (Ok VUndef, st2)
    ∧ destroy next VUndef (VRef instance) (State h tr ck) = (Ok VUndef, st3)
    ∧ trace st2
      = tr ++ [EvExecute (VNum 0) (VNum 100) (VRef instance)
                         (VExtern (Compiled 0 RUpdate)) (VRef 13)].
Proof.
  destruct (lifecycle_calls_execute Host.run 0 h tr ck instance ∅ (Some data)
              next VUndef view
              (list_to_map [("data"%string, VRef 11);
                            ("create"%string, VExtern (Compiled 0 RCreate));
                            ("update"%string, VExtern (Compiled 0 RUpdate));
                            ("destroy"%string, VExtern (Compiled 0 RDestroy))])
              (Some object_prototype) (VRef 11) (Compiled 0 RData) (VRef instance)
              VUndef h view (VExtern (Compiled 0 RCreate))
              count {[ "count"%string := VNum 1 ]} view
              (VExtern (Compiled 0 RUpdate)) (VExtern (Compiled 0 RDestroy)))
    as (Hc & Hu & _ & Hd).
  - vm_compute. reflexivity.
  - vm_compute. reflexivity.
  - vm_compute. reflexivity.
  - vm_compute. reflexivity.
  - vm_compute. reflexivity.
  - reflexivity.
  - vm_compute. reflexivity.
  - vm_compute. reflexivity.
  - vm_compute. reflexivity.
  - discriminate.
  - discriminate.
  - vm_compute. reflexivity.
  - vm_compute. reflexivity.
  - vm_compute. reflexivity.
  - vm_compute. reflexivity.
  - eexists _, _, _. split; [exact Hc|]. split; [exact Hu|]. split; [exact Hd|].
    vm_compute. reflexivity.
Defined.

(** C10 fails as stated: the events map of the demo instance has no entry
    under [__proto__], and [emit("__proto__", node)] neither throws nor
    calls anything: [events["__proto__"]] is Object.prototype, which has no
    [length], so the loop ends at once. The same holds after [off()], on
    the new empty map. *)
Lemma emit_proto_is_silent :
  (∃ eprops, h !! events = Some (ObjC eprops (Some object_prototype))
             ∧ eprops !! "__proto__" = None)
  ∧ emit (Host.call 0) 3 (VStr "__proto__") (VNode 5) (VRef instance) (State h tr ck)
    = (Ok VUndef, State h tr ck)
  ∧ (∃ st, off (Host.call 0) VUndef VUndef (VRef instance) (State h tr ck) = (Ok VUndef, st)
           ∧ emit (Host.call 0) 3 (VStr "__proto__") (VNode 5) (VRef instance) st
             = (Ok VUndef, st)).
Proof.
  split; [eexists; split; by vm_compute|].
  split; [by vm_compute|].
  eexists. split; by vm_compute.
Qed.

Lemma emit_requires_handlers_witness :
  (∃ h', emit (Host.call 2) 2 (VStr "create") (VNode 5) (VRef instance) (State h tr ck)
         = (Ok VUndef, State h' (tr ++ [EvCall (User 1) (VRef creates) [VNode 5]]) ck))
  ∧ (emit (Host.call 0) 3 (VStr "click") (VNode 5) (VRef instance) (State h tr ck)).1
    = Throw TypeError
  ∧ ((off (Host.call 0) VUndef VUndef (VRef instance) ;;
      emit (Host.call 0) 3 (VStr "create") (VNode 5) (VRef instance)) (State h tr ck)).1
    = Throw TypeError.
Proof.
  destruct (emit_requires_handlers Host.run 0 2 h tr ck instance ∅ (Some data)
              events "create" creates [hook] [(User 1, VRef creates)] (VNode 5)
              "click" "create") as ((h' & Hemit & _) & Hmissing & Hoff & _).
  - reflexivity.
  - reflexivity.
  - reflexivity.
  - repeat constructor.
  - apply host_well_behaved.
  - simpl. lia.
  - reflexivity.
  - reflexivity.
  - reflexivity.
  - discriminate.
  - split; [discriminate|reflexivity].
  - split; [exists h'; exact Hemit|].
    split; [exact (f_equal fst Hmissing)|exact (f_equal fst Hoff)].
Defined.

End Demo.

(** ** [Moon] on concrete data *)

Section MoonDemo.
Import Demo.

Local Abbreviation h := foo_heap.
Local Abbreviation props := foo.

(** C2: the code registers the constructor under the global variable
    [name] (here the empty string), not under [data.name]: after
    [Moon({name: "Foo", ...})] the registry has nothing under "Foo". Where
    the host has no global [name], the call throws a ReferenceError. *)
Theorem Moon_registers_under_global_name :
  let result := Host.Moon 0 (VRef 2) (State h [] 0) in
  (∃ constructor registry,
     result.1 = Ok (VRef constructor)
     ∧ heap result.2 !! components = Some (ObjC registry (Some object_prototype))
     ∧ registry !! "Foo" = None
     ∧ registry !! "" = Some (VRef constructor))
  ∧ (Moon false None Host.compile Host.querySelector Host.run 0 (VRef 2) (State h [] 0)).1
    = Throw ReferenceError.
Proof.
  split; [|by vm_compute].
  eexists _, _. split; [by vm_compute|]. split; [by vm_compute|]. by vm_compute.
Qed.

(** C9 fails as stated: [m] is none of the properties the claim lists, and
    [Moon] overwrites it with a new empty array. *)
Lemma Moon_overwrites_m :
  let result := Host.Moon 0 (VRef 2) (State h [] 0) in
  props !! "m" = Some (VNum 5)
  ∧ ∃ props' m,
      heap result.2 !! 2 = Some (ObjC props' (Some object_prototype))
      ∧ props' !! "m" = Some (VRef m)
      ∧ heap result.2 !! m = Some (ArrC []).
Proof.
  split; [by vm_compute|]. eexists _, _.
  split; [by vm_compute|]. split; [by vm_compute|]. by vm_compute.
Qed.

Lemma compile_error_propagates_witness :
  Moon false (Some ""%string) (λ _, None) Host.querySelector Host.run 0 (VRef 2)
       (State h [] 0)
  = (Throw SyntaxError,
     State (<[2 := ObjC (named props) (Some object_prototype)]> h) [EvCompile "<p/>"] 0).
Proof.
  apply (compile_error_propagates false (Some ""%string) (λ _, None) Host.querySelector
           Host.run 0 h [] 0 2 props "<p/>").
  - reflexivity.
  - reflexivity.
  - reflexivity.
  - reflexivity.
Defined.

End MoonDemo.

End Lifecycle.

(** * Properties of the executor test *)

Module Patch.
Import Executor Test.

(** ** Keys that leave a description leave the live node *)

Section Category.
Context {V W : Type} (name : string → string) (conv : string → V → W).
Context (Hinj : ∀ k1 k2, name k1 = name k2 → k1 = k2).

Lemma set_keys_other (l : list (string * V)) (acc : gmap string W) (j : string) :
  (∀ k v, (k, v) ∈ l → name k ≠ j) →
  foldr (λ '(k, v) acc, <[name k := conv k v]> acc) acc l !! j = acc !! j.
Proof.
  induction l as [|[k v] l IH]; intros Hl; [done|]. simpl.
  rewrite lookup_insert_ne by (apply (Hl k v); left).
  apply IH. intros k' v' Hin. apply (Hl k' v'). by right.
Qed.

Lemma remove_keys_gone (new : gmap string V) (l : list (string * V))
    (live : gmap string W) (k : string) (v : V) :
  (k, v) ∈ l → new !! k = None →
  foldr (λ '(k, _) acc, if decide (new !! k = None) then delete (name k) acc else acc)
        live l !! name k = None.
Proof.
  intros Hin Hnew. induction l as [|[k' v'] l IH]; [by apply elem_of_nil in Hin|].
  simpl. apply elem_of_cons in Hin as [[= <- <-]|Hin].
  - rewrite decide_True by done. apply lookup_delete_eq.
  - destruct (decide (new !! k' = None)); [|by apply IH].
    destruct (decide (name k' = name k)) as [->|Hne].
    + apply lookup_delete_eq.
    + rewrite lookup_delete_ne by done. by apply IH.
Qed.

Lemma diff_category_removes (old new : gmap string V) (live : gmap string W) (k : string) :
  is_Some (old !! k) → new !! k = None →
  diff_category name conv old new live !! name k = None.
Proof.
  intros [v Hold] Hnew. unfold diff_category.
  rewrite set_keys_other.
  - eapply remove_keys_gone; [|done]. by apply elem_of_map_to_list.
  - intros k' v' Hin Heq. apply Hinj in Heq as ->.
    apply elem_of_map_to_list in Hin. congruence.
Qed.

Lemma diff_category_fresh (new : gmap string V) (k : string) :
  new !! k = None →
  diff_category name conv ∅ new ∅ !! name k = None.
Proof.
  intros Hnew. unfold diff_category. rewrite map_to_list_empty. simpl.
  rewrite set_keys_other; [apply lookup_empty|].
  intros k' v' Hin Heq. apply Hinj in Heq as ->.
  apply elem_of_map_to_list in Hin. congruence.
Qed.

End Category.

Lemma aria_name_inj k1 k2 : aria_name k1 = aria_name k2 → k1 = k2.
Proof. unfold aria_name. intros [= H]. exact H. Qed.

(** C4: a key of [style], [dataset] or [ariaset], or an event binding, that
    the old description has and the new one lacks is not on the live node
    after the patch. *)
Theorem patch_removes_stale (old new : description) (live : element)
    (c : category) (k : string) :
  described old c k = true →
  described new c k = false →
  present (patch_element old new live) c k = false.
Proof.
  intros Hold Hnew.
  assert (∀ k1 k2 : string, id k1 = id k2 → k1 = k2) as id_inj by done.
  unfold patch_element, create_element.
  destruct c; unfold described, present in *;
    apply bool_decide_eq_true in Hold;
    apply bool_decide_eq_false in Hnew;
    apply eq_None_not_Some in Hnew;
    apply bool_decide_eq_false; apply eq_None_not_Some;
    destruct (decide (tag old = tag new)); cbn [styles data attributes MoonEvent].
  - by apply (diff_category_removes id _ id_inj).
  - by apply (diff_category_fresh id _ id_inj).
  - by apply (diff_category_removes id _ id_inj).
  - by apply (diff_category_fresh id _ id_inj).
  - by apply (diff_category_removes aria_name _ aria_name_inj).
  - by apply (diff_category_fresh aria_name _ aria_name_inj).
  - by apply (diff_category_removes id _ id_inj).
  - by apply (diff_category_fresh id _ id_inj).
Qed.

Lemma patch_removes_stale_witness :
  present (patch_element (item_view 2 0) (item_view 5 0) (create_element (item_view 2 0)))
          Dataset "removeme" = false.
Proof.
  apply (patch_removes_stale (item_view 2 0) (item_view 5 0)
           (create_element (item_view 2 0)) Dataset "removeme").
  - vm_compute. reflexivity.
  - vm_compute. reflexivity.
Defined.

(** ** The replace scenario [2] -> [5] *)

(** C1 fails as stated: 5 is neither even nor a multiple of 3, so it falls
    in the [else] branch, and the rendered item does not meet what [verify]
    expects of the [else-if] branch. *)
Lemma replace_2_5_is_not_else_if :
  classify 5 ≠ ElseIf
  ∧ ∃ el, (assertExecute [2%Z] [5%Z] []).2.*2 = [el]
          ∧ verify_as ElseIf [5%Z] 5 0 el = false.
Proof. split; [by vm_compute|]. eexists. split; by vm_compute. Qed.

(** C1, as amended: in the replace scenario the one rendered item meets
    what [verify] expects of the [else] branch for 5 (only [lang] and the
    text, no class, for, id, aria, data or style entry and no click
    binding), both calls of [verify] pass, and a click on it reaches no
    handler, while the item for 2 had [handler1] bound. *)
Theorem replace_2_5_else_branch :
  classify 5 = Else
  ∧ (assertExecute [2%Z] [5%Z] []).1 = true
  ∧ (∃ before, (run [2%Z] []).*2 = [before]
               ∧ MoonEvent before !! "@click" = Some handler1)
  ∧ ∃ el, (assertExecute [2%Z] [5%Z] []).2.*2 = [el]
          ∧ verify_as Else [5%Z] 5 0 el = true
          ∧ textContent el = "50"
          ∧ MoonEvent el !! "@click" = None
          ∧ click [5%Z] el None = None.
Proof.
  split; [by vm_compute|]. split; [by vm_compute|].
  split; [eexists; split; by vm_compute|].
  eexists. repeat split; by vm_compute.
Qed.

End Patch.

(** * Further properties of the wrapper and of the test helpers *)

(** ** Handlers: [on], [off] and [emit] *)

Module Listeners.
Import JS Terms Lifecycle.
Local Open Scope js_scope.

(** ** Lookups that a change of the heap leaves alone *)

Lemma lookup_chain_frame fuel fuel' h h' l k v :
  fuel ≤ fuel' →
  (∀ x c, x ∈ protos fuel h l → h !! x = Some c → h' !! x = Some c) →
  lookup_chain fuel h l k = Ok v → lookup_chain fuel' h' l k = Ok v.
Proof.
  revert fuel' l. induction fuel as [|fuel IH]; intros fuel' l Hle Hsame Hlook; [done|].
  destruct fuel' as [|fuel']; [lia|]. simpl in *.
  destruct (h !! l) as [c|] eqn:Hl; [|done].
  rewrite (Hsame l c); [|by left|done].
  destruct c as [props proto| |]; [|done|done].
  destruct (decide (k = "__proto__"%string)); [done|].
  destruct (props !! k); [done|]. destruct proto as [p|]; [|done].
  apply IH; [lia| |done]. intros x c Hx. apply Hsame. by right.
Qed.

Lemma lookup_chain_objects fuel fuel' h h' l k v :
  fuel ≤ fuel' → k ≠ "length"%string →
  (∀ (x : loc) props proto,
     h !! x = Some (ObjC props proto) → h' !! x = Some (ObjC props proto)) →
  lookup_chain fuel h l k = Ok v → lookup_chain fuel' h' l k = Ok v.
Proof.
  intros Hle Hk Hsame. revert fuel' l Hle.
  induction fuel as [|fuel IH]; intros fuel' l Hle Hlook; [done|].
  destruct fuel' as [|fuel']; [lia|]. simpl in Hlook |- *.
  destruct (h !! l) as [[props proto|elems|]|] eqn:Hl; try done.
  - rewrite (Hsame _ _ _ Hl).
    destruct (decide (k = "__proto__"%string)); [done|].
    destruct (props !! k); [done|]. destruct proto as [p|]; [|done].
    apply IH; [lia|done].
  - by destruct (decide (k = "length"%string)).
Qed.

Lemma lookup_chain_grow fuel fuel' h cells l k v :
  lookup_chain fuel h l k = Ok v → fuel ≤ fuel' →
  lookup_chain fuel' (h ++ cells) l k = Ok v.
Proof.
  intros Hl Hle. eapply lookup_chain_frame; [exact Hle| |exact Hl].
  intros x c _ Hx. by apply lookup_app_l_Some.
Qed.

(** [o[k]] when [o] has no own [k] and its prototype has. *)
Lemma lookup_chain_inherit h l props p pprops pproto k v :
  h !! l = Some (ObjC props (Some p)) → props !! k = None →
  h !! p = Some (ObjC pprops pproto) → pprops !! k = Some v →
  l ≠ p → k ≠ "__proto__"%string →
  lookup_chain (length h) h l k = Ok v.
Proof.
  intros Hl Hk Hp Hpk Hne Hproto.
  assert (l < length h) by (by eapply lookup_lt_Some).
  assert (p < length h) by (by eapply lookup_lt_Some).
  destruct (length h) as [|[|n]]; [lia|lia|]. simpl. rewrite Hl.
  destruct (decide (k = "__proto__"%string)); [done|]. rewrite Hk, Hp.
  destruct (decide (k = "__proto__"%string)); [done|]. by rewrite Hpk.
Qed.

Lemma lookup_chain_step fuel h l props p k :
  h !! l = Some (ObjC props (Some p)) → props !! k = None → k ≠ "__proto__"%string →
  lookup_chain (S fuel) h l k = lookup_chain fuel h p k.
Proof.
  intros Hl Hk Hne. simpl. rewrite Hl.
  destruct (decide (k = "__proto__"%string)); [done|]. by rewrite Hk.
Qed.

Lemma callee_bound h f this t : callee h f this = Some t →
  (∃ e, f = VExtern e)
  ∨ (∃ b e bthis, f = VRef b ∧ h !! b = Some (FunC (Bound (VExtern e) bthis))).
Proof.
  destruct f; try done; [|by eauto]. simpl.
  destruct (h !! l) as [[| |[[]| | | | |]]|] eqn:Hl; try done.
  intros _. right. by eauto.
Qed.

Lemma callee_same h h' f this t :
  (∀ (b : loc) c, h !! b = Some (FunC c) → h' !! b = Some (FunC c)) →
  callee h f this = Some t → callee h' f this = Some t.
Proof.
  intros Hsame Hc. destruct (callee_bound _ _ _ _ Hc) as [[e ->]|(b & e & bthis & -> & Hb)];
    [done|].
  simpl in *. rewrite Hb in Hc. by rewrite (Hsame _ _ Hb).
Qed.

(** ** The loop of [emit], handler by handler *)

Section Loop.
Context (run : extern → value → list value → list cell → (value + value) * list cell).

Lemma callee_kept locs hs a h hc f :
  keeps locs h hc → (∀ b, b ∈ refs hs → b ∈ locs) → f ∈ hs →
  callee hc f (VRef a) = callee h f (VRef a).
Proof.
  intros Hk Hsub Hf. destruct f; try done. simpl. rewrite Hk; [done|].
  apply Hsub. unfold refs. apply list_elem_of_omap. by exists (VRef l).
Qed.

Lemma emit_loop_prefix fuel a hs data ck h locs :
  h !! a = Some (ArrC hs) → a ∈ locs → (∀ b, b ∈ refs hs → b ∈ locs) →
  ∀ pre ptargets,
    Forall2 (λ f t, callee h f (VRef a) = Some t) pre ptargets →
    well_behaved run data locs ptargets →
    ∀ i n hc trc,
      take (length pre) (drop i hs) = pre →
      keeps locs h hc →
      ∃ h', emit_loop (call run (2 + fuel)) (length pre + n) (VRef a) i data (State hc trc ck)
            = emit_loop (call run (2 + fuel)) n (VRef a) (length pre + i) data
                (State h' (trc ++ calls data ptargets) ck)
            ∧ keeps locs h h'.
Proof.
  intros Ha Hin Hsub pre ptargets Hall.
  induction Hall as [|f [e ethis] pre ptargets Hf Hall IH]; intros Hwb i n hc trc Htake Hk.
  - exists hc. split; [|done]. unfold calls. simpl. by rewrite app_nil_r.
  - assert (hs !! i = Some f) as Hi.
    { pose proof (f_equal (λ l, l !! 0) Htake) as H0. simpl in H0.
      rewrite lookup_take_lt in H0 by lia. rewrite lookup_drop, Nat.add_0_r in H0. done. }
    assert (take (length pre) (drop (S i) hs) = pre) as Htake'.
    { rewrite (drop_S hs f i Hi) in Htake. simpl in Htake. congruence. }
    assert (f ∈ hs) as Hfin by (by eapply list_elem_of_lookup_2).
    assert (hc !! a = Some (ArrC hs)) as Hca by (by rewrite Hk).
    destruct (Hwb e ethis hc) as (v & h1 & Hrun & Hk1); [left|].
    destruct (IH (λ e' t' h0 Hin', Hwb e' t' h0 (list_elem_of_further _ _ _ Hin'))
                (S i) n h1 (trc ++ [EvCall e ethis [data]]) Htake')
      as (h' & Hloop & Hk'); [by eapply keeps_trans|].
    exists h'. split; [|done].
    change (length (f :: pre) + n) with (S (length pre + n)). rewrite emit_loop_round.
    erewrite bind_ok by (by apply get_length).
    unfold less_than. rewrite bind_ret.
    apply lookup_lt_Some in Hi as Hlt.
    rewrite bool_decide_eq_true_2 by lia.
    erewrite bind_ok.
    2:{ unfold get_index. erewrite bind_ok by (by apply read_at). cbv beta iota.
        by rewrite Hi. }
    erewrite bind_ok.
    2:{ etransitivity; [apply (call_callee run fuel); by erewrite callee_kept|].
        by apply external_returns. }
    rewrite Hloop. unfold calls. simpl. rewrite <- app_assoc.
    by replace (length pre + S i) with (S (length pre + i)) by lia.
Qed.

Lemma emit_loop_end callf n a hs data h tr ck :
  h !! a = Some (ArrC hs) →
  emit_loop callf (S n) (VRef a) (length hs) data (State h tr ck)
  = (Ok VUndef, State h tr ck).
Proof.
  intros Ha. rewrite emit_loop_round.
  erewrite bind_ok by (by apply get_length).
  unfold less_than. rewrite bind_ret. by rewrite bool_decide_eq_false_2 by lia.
Qed.

(** [emit] on handlers from outside the module that leave [locs] alone. *)
Lemma emit_all fuel rounds h tr ck l e key a hs targets data locs :
  lookup_chain (length h) h l "events" = Ok (VRef e) →
  lookup_chain (length h) h e key = Ok (VRef a) →
  h !! a = Some (ArrC hs) →
  a ∈ locs → (∀ b, b ∈ refs hs → b ∈ locs) →
  Forall2 (λ f t, callee h f (VRef a) = Some t) hs targets →
  well_behaved run data locs targets →
  length hs < rounds →
  ∃ h', emit (call run (2 + fuel)) rounds (VStr key) data (VRef l) (State h tr ck)
        = (Ok VUndef, State h' (tr ++ calls data targets) ck)
        ∧ keeps locs h h'.
Proof.
  intros He Ha Hhs Hin Hsub Hall Hwb Hrounds. unfold emit.
  erewrite bind_ok by (by apply get_ref).
  erewrite bind_ok by done.
  erewrite bind_ok by (by apply get_ref).
  destruct (emit_loop_prefix fuel a hs data ck h locs Hhs Hin Hsub hs targets Hall Hwb
              0 (rounds - length hs) h tr) as (h' & Hloop & Hk).
  { by rewrite drop_0, firstn_all. }
  { done. }
  exists h'. split; [|done].
  replace rounds with (length hs + (rounds - length hs)) at 1 by lia.
  rewrite Hloop, Nat.add_0_r.
  destruct (rounds - length hs) as [|n] eqn:Hn; [lia|].
  apply emit_loop_end. by rewrite Hk.
Qed.

End Loop.


(** ** [on] *)

Section On.
Context (callf : value → value → list value → M value).

(** X1: [on] for a type that has no list yet makes the list: a new array
    with one entry, a new function bound to the instance, stored under the
    type in the map that [this.events] is. *)
Theorem on_creates_list h tr ck this e eprops eproto key handler :
  lookup_chain (length h) h this "events" = Ok (VRef e) →
  h !! e = Some (ObjC eprops eproto) →
  lookup_chain (length h) h e key = Ok VUndef →
  key ≠ "__proto__"%string →
  bindable h handler →
  on callf (VStr key) handler (VRef this) (State h tr ck)
  = (Ok VUndef,
     State (<[e := ObjC (<[key := VRef (S (length h))]> eprops) eproto]>
              (h ++ [FunC (Bound handler (VRef this)); ArrC [VRef (length h)]]))
           tr ck).
Proof.
  intros He Hec Hkey Hne Hbind. unfold on.
  erewrite bind_ok by (by apply get_ref).
  erewrite bind_ok by done.
  erewrite bind_ok by (by apply get_ref).
  destruct (decide (VUndef = VUndef)); [|done].
  erewrite bind_ok by (by apply get_ref).
  erewrite bind_ok by (by apply call_method_bind).
  unfold array. erewrite bind_ok by apply alloc_at.
  erewrite bind_ok.
  2:{ eapply put_obj; [|done]. apply lookup_app_l_Some. by apply lookup_app_l_Some. }
  unfold ret. rewrite length_app, <- app_assoc. simpl.
  by replace (length h + 1) with (S (length h)) by lia.
Qed.

(** X2: [on] without a function throws a TypeError at [handler.bind] and
    registers nothing, whether or not the type has a list. *)
Theorem on_needs_function h tr ck this e key listed handler :
  lookup_chain (length h) h this "events" = Ok (VRef e) →
  lookup_chain (length h) h e key = Ok listed →
  handler = VUndef ∨ handler = VNull →
  on callf (VStr key) handler (VRef this) (State h tr ck) = (Throw TypeError, State h tr ck).
Proof.
  intros He Hkey Hh. unfold on.
  erewrite bind_ok by (by apply get_ref).
  erewrite bind_ok by done.
  erewrite bind_ok by (by apply get_ref).
  destruct (decide (listed = VUndef)).
  - erewrite bind_ok by (by apply get_ref). by destruct Hh as [-> | ->].
  - by destruct Hh as [-> | ->].
Qed.

End On.

Section OnEmit.
Context (run : extern → value → list value → list cell → (value + value) * list cell).
Context (callf : value → value → list value → M value).

(** X3: a handler added with [on] through one instance is called by [emit]
    on every instance whose [this.events] is the same map: after the
    handlers already listed, with the data, and with [this] bound to the
    instance it was added through. *)
Theorem on_then_emit fuel rounds h tr ck l1 l2 e eprops eproto key a hs targets x data :
  lookup_chain (length h) h l1 "events" = Ok (VRef e) →
  lookup_chain (length h) h l2 "events" = Ok (VRef e) →
  h !! e = Some (ObjC eprops eproto) →
  eprops !! key = Some (VRef a) →
  key ≠ "__proto__"%string →
  h !! a = Some (ArrC hs) →
  Forall2 (λ f t, callee h f (VRef a) = Some t) hs targets →
  well_behaved run data (a :: refs (hs ++ [VRef (length h)])) (targets ++ [(x, VRef l1)]) →
  S (length hs) < rounds →
  ∃ h', (on callf (VStr key) (VExtern x) (VRef l1) ;;
         emit (call run (2 + fuel)) rounds (VStr key) data (VRef l2)) (State h tr ck)
        = (Ok VUndef, State h' (tr ++ calls data targets ++ [EvCall x (VRef l1) [data]]) ck).
Proof.
  intros H1 H2 He Hkey Hne Ha Hall Hwb Hrounds.
  assert (a < length h) as Hlt by (by eapply lookup_lt_Some).
  set (h1 := <[a := ArrC (hs ++ [VRef (length h)])]>
               (h ++ [FunC (Bound (VExtern x) (VRef l1))])).
  assert (∀ (b : loc) c, h !! b = Some c → b ≠ a → h1 !! b = Some c) as Hold.
  { intros b c Hb Hba. unfold h1. rewrite list_lookup_insert_ne by done.
    by apply lookup_app_l_Some. }
  assert (length h ≤ length h1) as Hlen.
  { unfold h1. rewrite length_insert, length_app. lia. }
  erewrite bind_ok.
  2:{ unfold on.
      erewrite bind_ok by (by apply get_ref).
      erewrite bind_ok by done.
      erewrite bind_ok by (apply get_ref; by eapply get_own).
      destruct (decide (VRef a = VUndef)); [done|].
      erewrite bind_ok by (by apply call_method_bind).
      erewrite bind_ok by (apply call_method_push; by apply lookup_app_l_Some).
      reflexivity. }
  fold h1.
  destruct (emit_calls_handlers run fuel rounds h1 tr ck l2 e key a
              (hs ++ [VRef (length h)]) (targets ++ [(x, VRef l1)]) data)
    as (h' & Hemit & _).
  - eapply lookup_chain_objects; [done|done| |done].
    intros b props proto Hb. apply Hold; [done|]. intros ->. congruence.
  - eapply get_own; [|done|done]. apply Hold; [done|]. intros ->. congruence.
  - unfold h1. apply list_lookup_insert_eq. rewrite length_app. lia.
  - apply Forall2_app.
    + eapply Forall2_impl; [exact Hall|]. intros f t Hf. simpl in Hf.
      eapply callee_same; [|done]. intros b c Hb. apply Hold; [done|].
      intros ->. congruence.
    + constructor; [|constructor]. simpl. unfold h1.
      rewrite list_lookup_insert_ne by lia.
      rewrite lookup_app_r by lia. by rewrite Nat.sub_diag.
  - done.
  - rewrite length_app. simpl. lia.
  - exists h'. rewrite Hemit. unfold calls. by rewrite fmap_app.
Qed.

(** X4: [off(type)] stores a new empty list under the type in the map that
    [this.events] is, so an [emit] of that type, from any instance with the
    same map, calls nothing and returns, also for a type that had no list
    before. *)
Theorem off_type_then_emit rounds h tr ck l l2 e eprops eproto key data :
  lookup_chain (length h) h l "events" = Ok (VRef e) →
  lookup_chain (length h) h l2 "events" = Ok (VRef e) →
  h !! e = Some (ObjC eprops eproto) →
  e ∉ protos (length h) h l2 →
  key ≠ "__proto__"%string →
  (off callf (VStr key) VUndef (VRef l) ;;
   emit callf (S rounds) (VStr key) data (VRef l2)) (State h tr ck)
  = (Ok VUndef,
     State (<[e := ObjC (<[key := VRef (length h)]> eprops) eproto]> (h ++ [ArrC []])) tr ck).
Proof.
  intros Hl Hl2 He Hnot Hne.
  assert (e < length h) as Hlt by (by eapply lookup_lt_Some).
  set (h1 := <[e := ObjC (<[key := VRef (length h)]> eprops) eproto]> (h ++ [ArrC []])).
  assert (length h1 = S (length h)) as Hlen.
  { unfold h1. rewrite length_insert, length_app. simpl. lia. }
  erewrite bind_ok.
  2:{ unfold off.
      destruct (decide (VStr key = VUndef)); [done|].
      destruct (decide (VUndef = VUndef)); [|done].
      erewrite bind_ok by (by apply get_ref).
      erewrite bind_ok by done.
      unfold array. erewrite bind_ok by apply alloc_at.
      erewrite bind_ok by (eapply put_obj; [by apply lookup_app_l_Some|done]).
      reflexivity. }
  fold h1. unfold emit.
  erewrite bind_ok.
  2:{ apply get_ref. eapply lookup_chain_frame; [|  |exact Hl2]; [lia|].
      intros b c Hb Hc. unfold h1. rewrite list_lookup_insert_ne by (by intros ->).
      by apply lookup_app_l_Some. }
  erewrite bind_ok by done.
  erewrite bind_ok.
  2:{ apply get_ref. eapply get_own; [|by apply lookup_insert_eq|done].
      unfold h1. apply list_lookup_insert_eq. rewrite length_app. lia. }
  apply (emit_loop_end callf rounds (length h) []).
  unfold h1. rewrite list_lookup_insert_ne by lia.
  rewrite lookup_app_r by lia. by rewrite Nat.sub_diag.
Qed.

(** X5: [off()] makes a new empty object and stores it as the own [events]
    of the instance it is called on; every other cell stays as it was. That
    instance now reaches the new, empty map, while an instance that does
    not inherit from it still reaches the old map, and its [emit] calls the
    handlers as before. *)
Theorem off_all_detaches_one_instance fuel rounds h tr ck l tprops tproto l2 e key a hs
    targets data :
  h !! l = Some (ObjC tprops tproto) →
  l ∉ protos (length h) h l2 →
  l ∉ protos (length h) h e →
  lookup_chain (length h) h l2 "events" = Ok (VRef e) →
  lookup_chain (length h) h e key = Ok (VRef a) →
  h !! a = Some (ArrC hs) →
  Forall2 (λ f t, callee h f (VRef a) = Some t) hs targets →
  well_behaved run data (a :: refs hs) targets →
  length hs < rounds →
  let fresh := length h in
  let h1 := <[l := ObjC (<["events" := VRef fresh]> tprops) tproto]>
              (h ++ [ObjC ∅ (Some object_prototype)]) in
  off callf VUndef VUndef (VRef l) (State h tr ck) = (Ok VUndef, State h1 tr ck)
  ∧ lookup_chain (length h1) h1 l "events" = Ok (VRef fresh)
  ∧ lookup_chain (length h1) h1 l2 "events" = Ok (VRef e)
  ∧ ∃ h', emit (call run (2 + fuel)) rounds (VStr key) data (VRef l2) (State h1 tr ck)
          = (Ok VUndef, State h' (tr ++ calls data targets) ck)
          ∧ keeps (a :: refs hs) h1 h'.
Proof.
  intros Hl Hn2 Hne Hev Hkey Ha Hall Hwb Hrounds fresh h1.
  assert (l < length h) as Hlt by (by eapply lookup_lt_Some).
  assert (∀ (b : loc) c, h !! b = Some c → b ≠ l → h1 !! b = Some c) as Hold.
  { intros b c Hb Hbl. unfold h1. rewrite list_lookup_insert_ne by done.
    by apply lookup_app_l_Some. }
  assert (length h ≤ length h1) as Hlen.
  { unfold h1. rewrite length_insert, length_app. lia. }
  assert (lookup_chain (length h1) h1 l2 "events" = Ok (VRef e)) as Hev1.
  { eapply lookup_chain_frame; [done| |exact Hev].
    intros b c Hb Hc. apply Hold; [done|]. by intros ->. }
  split.
  { unfold off. destruct (decide (VUndef = VUndef)); [|done].
    unfold object. erewrite bind_ok by apply alloc_at.
    erewrite bind_ok by (eapply put_obj; [by apply lookup_app_l_Some|done]).
    reflexivity. }
  split.
  { eapply get_own; [|by apply lookup_insert_eq|done].
    unfold h1. apply list_lookup_insert_eq. rewrite length_app. lia. }
  split; [exact Hev1|].
  eapply (emit_calls_handlers run fuel rounds h1 tr ck l2 e key a hs targets data).
  - exact Hev1.
  - eapply lookup_chain_frame; [done| |exact Hkey].
    intros b c Hb Hc. apply Hold; [done|]. by intros ->.
  - apply Hold; [done|]. intros ->. congruence.
  - eapply Forall2_impl; [exact Hall|]. intros f t Hf. simpl in Hf.
    eapply callee_same; [|done]. intros b c Hb. apply Hold; [done|].
    intros ->. congruence.
  - done.
  - done.
Qed.

End OnEmit.

(** ** [off] with a handler *)

Lemma index_of_found (v : value) (xs : list value) (i : nat) (z : Z) :
  xs !! i = Some v → v ∉ take i xs → index_of v xs z = (z + Z.of_nat i)%Z.
Proof.
  revert i z. induction xs as [|x xs IH]; intros i z Hi Hnot; [done|].
  destruct i as [|i]; simpl in *.
  - injection Hi as ->. rewrite decide_True by done. lia.
  - apply not_elem_of_cons in Hnot as [Hne Hnot].
    rewrite decide_False by done. rewrite (IH i) by done. lia.
Qed.

Lemma splice_one (xs : list value) (i : nat) (x : value) :
  xs !! i = Some x → splice xs (Z.of_nat i) 1 = (delete i xs, [x]).
Proof.
  intros Hi. apply lookup_lt_Some in Hi as Hlt. unfold splice.
  replace (Z.of_nat i <? 0)%Z with false by (symmetry; apply Z.ltb_ge; lia).
  replace (Z.min (Z.of_nat i) (Z.of_nat (length xs))) with (Z.of_nat i) by lia.
  replace (Z.min (Z.max 1 0) (Z.of_nat (length xs) - Z.of_nat i)) with 1%Z by lia.
  replace (Z.to_nat (Z.of_nat i + 1)) with (S i) by lia.
  rewrite Nat2Z.id. change (Z.to_nat 1) with 1.
  rewrite delete_take_drop. f_equal.
  rewrite (drop_S _ _ _ Hi). simpl. by rewrite take_0.
Qed.

Section Off.
Context (callf : value → value → list value → M value).

(** X6: when the handler itself is in the list, [off(type, handler)]
    removes its first occurrence and nothing else. *)
Theorem off_removes_first_occurrence h tr ck this e key a hs handler i :
  lookup_chain (length h) h this "events" = Ok (VRef e) →
  lookup_chain (length h) h e key = Ok (VRef a) →
  h !! a = Some (ArrC hs) →
  hs !! i = Some handler →
  handler ∉ take i hs →
  handler ≠ VUndef →
  off callf (VStr key) handler (VRef this) (State h tr ck)
  = (Ok VUndef, State (<[a := ArrC (delete i hs)]> h ++ [ArrC [handler]]) tr ck).
Proof.
  intros He Ha Hhs Hi Hnot Hh. unfold off.
  destruct (decide (VStr key = VUndef)); [done|].
  destruct (decide (handler = VUndef)); [done|].
  erewrite bind_ok by (by apply get_ref).
  erewrite bind_ok by done.
  erewrite bind_ok by (by apply get_ref).
  erewrite bind_ok by (by apply call_method_indexOf).
  erewrite bind_ok by (by apply call_method_splice).
  rewrite (index_of_found _ _ i) by done. rewrite Z.add_0_l.
  by rewrite (splice_one _ _ _ Hi).
Qed.

(** X7: [off(type, handler)] needs a list under the type: without one it
    throws a TypeError and changes nothing; with an empty list it returns
    and the list stays empty. *)
Theorem off_without_handlers h tr ck this e key handler :
  lookup_chain (length h) h this "events" = Ok (VRef e) →
  handler ≠ VUndef →
  (lookup_chain (length h) h e key = Ok VUndef →
   off callf (VStr key) handler (VRef this) (State h tr ck) = (Throw TypeError, State h tr ck))
  ∧ (∀ a, lookup_chain (length h) h e key = Ok (VRef a) →
          h !! a = Some (ArrC []) →
          off callf (VStr key) handler (VRef this) (State h tr ck)
          = (Ok VUndef, State (h ++ [ArrC []]) tr ck)).
Proof.
  intros He Hh. split.
  - intros Hkey. unfold off.
    destruct (decide (VStr key = VUndef)); [done|].
    destruct (decide (handler = VUndef)); [done|].
    erewrite bind_ok by (by apply get_ref).
    erewrite bind_ok by done.
    erewrite bind_ok by (by apply get_ref).
    done.
  - intros a Hkey Ha. unfold off.
    destruct (decide (VStr key = VUndef)); [done|].
    destruct (decide (handler = VUndef)); [done|].
    erewrite bind_ok by (by apply get_ref).
    erewrite bind_ok by done.
    erewrite bind_ok by (by apply get_ref).
    erewrite bind_ok by (by apply call_method_indexOf).
    erewrite bind_ok by (by apply call_method_splice).
    unfold ret. simpl. by rewrite list_insert_id.
Qed.

End Off.

(** ** [emit] and a handler that throws *)

Section Throwing.
Context (run : extern → value → list value → list cell → (value + value) * list cell).

Lemma external_throws e this args h tr ck x h1 :
  run e this args h = (inr x, h1) →
  external run e this args (State h tr ck)
  = (Throw (Thrown x), State h1 (tr ++ [EvCall e this args]) ck).
Proof. intros Hr. unfold external, bind, log. simpl. by rewrite Hr. Qed.

(** X8: [emit] has no handler of errors: when a handler throws, [emit]
    throws the same value, and the handlers listed after it are not
    called. *)
Theorem emit_stops_at_throw fuel rounds h tr ck l e key a pre f post ptargets x xthis
    data v :
  lookup_chain (length h) h l "events" = Ok (VRef e) →
  lookup_chain (length h) h e key = Ok (VRef a) →
  h !! a = Some (ArrC (pre ++ f :: post)) →
  Forall2 (λ f t, callee h f (VRef a) = Some t) pre ptargets →
  callee h f (VRef a) = Some (x, xthis) →
  well_behaved run data (a :: refs (pre ++ f :: post)) ptargets →
  throws run x xthis [data] v →
  length pre < rounds →
  ∃ h', emit (call run (2 + fuel)) rounds (VStr key) data (VRef l) (State h tr ck)
        = (Throw (Thrown v),
           State h' (tr ++ calls data ptargets ++ [EvCall x xthis [data]]) ck).
Proof.
  intros He Ha Hhs Hall Hf Hwb Hthrows Hrounds. unfold emit.
  erewrite bind_ok by (by apply get_ref).
  erewrite bind_ok by done.
  erewrite bind_ok by (by apply get_ref).
  destruct (emit_loop_prefix run fuel a (pre ++ f :: post) data ck h
              (a :: refs (pre ++ f :: post)) Hhs) with (pre := pre) (ptargets := ptargets)
              (i := 0) (n := rounds - length pre) (hc := h) (trc := tr)
    as (h1 & Hloop & Hk); [by left|by right|done|done| |done|].
  { by rewrite drop_0, take_app_length. }
  destruct (Hthrows h1) as [h2 Hrun]. exists h2.
  replace rounds with (length pre + (rounds - length pre)) at 1 by lia.
  rewrite Hloop, Nat.add_0_r.
  destruct (rounds - length pre) as [|n] eqn:Hn; [lia|].
  rewrite emit_loop_round.
  erewrite bind_ok by (apply get_length; rewrite Hk; [done|by left]).
  unfold less_than. rewrite bind_ret.
  rewrite bool_decide_eq_true_2 by (rewrite length_app; simpl; lia).
  erewrite bind_ok.
  2:{ unfold get_index. erewrite bind_ok by (apply read_at; rewrite Hk; [done|by left]).
      cbv beta iota. by rewrite list_lookup_middle. }
  cbn [from_option id].
  erewrite bind_throw.
  2:{ etransitivity.
      - apply (call_callee run fuel).
        erewrite (callee_kept _ (pre ++ f :: post)); [done|done|by right|].
        apply elem_of_app. right. by left.
      - by apply external_throws. }
  by rewrite <- app_assoc.
Qed.

End Throwing.

(** ** A handler that adds a handler *)

Section Growing.
Context (run : extern → value → list value → list cell → (value + value) * list cell).

(** X9: the loop of [emit] reads [handlers.length] again on every round:
    a handler that the first handler adds to the list while the event is
    being emitted is called in the same [emit]. *)
Theorem emit_calls_handler_added_meanwhile fuel rounds h tr ck l e key a f x xthis g y ythis
    data v h1 v' h2 :
  lookup_chain (length h) h l "events" = Ok (VRef e) →
  lookup_chain (length h) h e key = Ok (VRef a) →
  h !! a = Some (ArrC [f]) →
  callee h f (VRef a) = Some (x, xthis) →
  run x xthis [data] h = (inl v, h1) →
  h1 !! a = Some (ArrC [f; g]) →
  callee h1 g (VRef a) = Some (y, ythis) →
  run y ythis [data] h1 = (inl v', h2) →
  h2 !! a = Some (ArrC [f; g]) →
  emit (call run (2 + fuel)) (3 + rounds) (VStr key) data (VRef l) (State h tr ck)
  = (Ok VUndef, State h2 (tr ++ [EvCall x xthis [data]; EvCall y ythis [data]]) ck).
Proof.
  intros He Ha Hhs Hf Hx Hh1 Hg Hy Hh2. unfold emit.
  erewrite bind_ok by (by apply get_ref).
  erewrite bind_ok by done.
  erewrite bind_ok by (by apply get_ref).
  change (3 + rounds) with (S (S (S rounds))).
  rewrite emit_loop_round.
  erewrite bind_ok by (by apply get_length).
  unfold less_than at 1. rewrite bind_ret. rewrite bool_decide_eq_true_2 by (simpl; lia).
  erewrite bind_ok.
  2:{ unfold get_index. erewrite bind_ok by (by apply read_at). reflexivity. }
  cbn [lookup list_lookup from_option id].
  erewrite bind_ok.
  2:{ etransitivity; [by apply (call_callee run fuel)|]. by apply external_returns. }
  rewrite emit_loop_round.
  erewrite bind_ok by (by apply get_length).
  unfold less_than at 1. rewrite bind_ret. rewrite bool_decide_eq_true_2 by (simpl; lia).
  erewrite bind_ok.
  2:{ unfold get_index. erewrite bind_ok by (by apply read_at). reflexivity. }
  cbn [lookup list_lookup from_option id].
  erewrite bind_ok.
  2:{ etransitivity; [by apply (call_callee run fuel)|]. by apply external_returns. }
  rewrite (emit_loop_end _ _ _ _ _ _ _ _ Hh2). by rewrite <- app_assoc.
Qed.

End Growing.

(** *** On the demo program *)

Section EventsDemo.
Import Demo.

Local Abbreviation h := (heap started).
Local Abbreviation tr := (trace started).
Local Abbreviation ck := (clock started).
Local Abbreviation lists :=
  (list_to_map [("create"%string, VRef 4); ("update"%string, VRef 5);
                ("destroy"%string, VRef 6)] : gmap string value).

Lemma on_creates_list_witness :
  ∃ st, on (Host.call 0) (VStr "click") listener (VRef instance) (State h tr ck)
        = (Ok VUndef, st)
        ∧ heap st !! 14 = Some (ArrC [VRef 13])
        ∧ heap st !! 13 = Some (FunC (Bound listener (VRef instance))).
Proof.
  eexists. split.
  - apply (on_creates_list (Host.call 0) h tr ck instance events lists
             (Some object_prototype) "click" listener).
    + vm_compute. reflexivity.
    + vm_compute. reflexivity.
    + vm_compute. reflexivity.
    + discriminate.
    + exact I.
  - split; vm_compute; reflexivity.
Defined.

Lemma on_needs_function_witness :
  on (Host.call 0) (VStr "create") VUndef (VRef instance) (State h tr ck)
  = (Throw TypeError, State h tr ck).
Proof.
  apply (on_needs_function (Host.call 0) h tr ck instance events "create" (VRef creates)
           VUndef).
  - vm_compute. reflexivity.
  - vm_compute. reflexivity.
  - by left.
Defined.

Lemma on_then_emit_witness :
  ∃ h', (on (Host.call 0) (VStr "create") listener (VRef instance) ;;
         emit (Host.call 2) 3 (VStr "create") (VNode 5) (VRef instance)) (State h tr ck)
        = (Ok VUndef,
           State h' (tr ++ [EvCall (User 1) (VRef creates) [VNode 5];
                            EvCall (User 3) (VRef instance) [VNode 5]]) ck).
Proof.
  apply (on_then_emit Host.run (Host.call 0) 0 3 h tr ck instance instance events lists
           (Some object_prototype) "create" creates [hook] [(User 1, VRef creates)]
           (User 3) (VNode 5)).
  - vm_compute. reflexivity.
  - vm_compute. reflexivity.
  - vm_compute. reflexivity.
  - vm_compute. reflexivity.
  - discriminate.
  - vm_compute. reflexivity.
  - repeat constructor.
  - apply host_well_behaved.
  - simpl. lia.
Defined.

Lemma off_type_then_emit_witness :
  (off (Host.call 0) (VStr "create") VUndef (VRef instance) ;;
   emit (Host.call 0) 1 (VStr "create") (VNode 5) (VRef instance)) (State h tr ck)
  = (Ok VUndef,
     State (<[events := ObjC (<["create" := VRef 13]> lists) (Some object_prototype)]>
              (h ++ [ArrC []])) tr ck).
Proof.
  apply (off_type_then_emit (Host.call 0) 0 h tr ck instance instance events lists
           (Some object_prototype) "create" (VNode 5)).
  - vm_compute. reflexivity.
  - vm_compute. reflexivity.
  - vm_compute. reflexivity.
  - vm_compute. intros Hin. repeat (apply elem_of_cons in Hin as [Hin|Hin]; [discriminate|]).
    by apply elem_of_nil in Hin.
  - discriminate.
Defined.

Lemma off_all_detaches_one_instance_witness :
  off (Host.call 0) VUndef VUndef (VRef Programs.second) Programs.twins
  = (Ok VUndef, State Programs.detached (trace Programs.twins) (clock Programs.twins))
  ∧ lookup_chain 16 Programs.detached Programs.second "events" = Ok (VRef 15)
  ∧ lookup_chain 16 Programs.detached instance "events" = Ok (VRef events)
  ∧ ∃ h', emit (Host.call 2) 2 (VStr "create") (VNode 5) (VRef instance)
               (State Programs.detached (trace Programs.twins) (clock Programs.twins))
          = (Ok VUndef,
             State h' (trace Programs.twins ++ [EvCall (User 1) (VRef creates) [VNode 5]])
                   (clock Programs.twins))
          ∧ keeps [creates] Programs.detached h'.
Proof.
  destruct (off_all_detaches_one_instance Host.run (Host.call 0) 0 2 (heap Programs.twins)
              (trace Programs.twins) (clock Programs.twins) Programs.second ∅ (Some data)
              instance events "create" creates [hook] [(User 1, VRef creates)] (VNode 5))
    as (Hoff & Hl & Hl2 & h' & Hemit & Hkeep).
  - vm_compute. reflexivity.
  - vm_compute. intros Hin. repeat (apply elem_of_cons in Hin as [Hin|Hin]; [discriminate|]).
    by apply elem_of_nil in Hin.
  - vm_compute. intros Hin. repeat (apply elem_of_cons in Hin as [Hin|Hin]; [discriminate|]).
    by apply elem_of_nil in Hin.
  - vm_compute. reflexivity.
  - vm_compute. reflexivity.
  - vm_compute. reflexivity.
  - repeat constructor.
  - apply host_well_behaved.
  - simpl. lia.
  - split; [exact Hoff|]. split; [exact Hl|]. split; [exact Hl2|].
    exists h'. split; [exact Hemit|exact Hkeep].
Defined.

Lemma off_removes_first_occurrence_witness :
  off (Host.call 0) (VStr "create") hook (VRef instance) (State h tr ck)
  = (Ok VUndef, State (<[creates := ArrC []]> h ++ [ArrC [hook]]) tr ck).
Proof.
  apply (off_removes_first_occurrence (Host.call 0) h tr ck instance events "create"
           creates [hook] hook 0).
  - vm_compute. reflexivity.
  - vm_compute. reflexivity.
  - vm_compute. reflexivity.
  - reflexivity.
  - apply not_elem_of_nil.
  - discriminate.
Defined.

Lemma off_without_handlers_witness :
  off (Host.call 0) (VStr "click") listener (VRef instance) (State h tr ck)
  = (Throw TypeError, State h tr ck)
  ∧ off (Host.call 0) (VStr "update") listener (VRef instance) (State h tr ck)
    = (Ok VUndef, State (h ++ [ArrC []]) tr ck).
Proof.
  destruct (off_without_handlers (Host.call 0) h tr ck instance events "click" listener)
    as [Hmissing _]; [vm_compute; reflexivity|discriminate|].
  destruct (off_without_handlers (Host.call 0) h tr ck instance events "update" listener)
    as [_ Hempty]; [vm_compute; reflexivity|discriminate|].
  split.
  - apply Hmissing. vm_compute. reflexivity.
  - apply (Hempty 5); vm_compute; reflexivity.
Defined.

Lemma emit_stops_at_throw_witness :
  ∃ h', emit (call Programs.failing 2) 1 (VStr "create") (VNode 5) (VRef instance) Programs.listening
        = (Throw (Thrown (VStr "boom")),
           State h' (trace Programs.listening ++ [EvCall (User 1) (VRef creates) [VNode 5]])
                 (clock Programs.listening)).
Proof.
  apply (emit_stops_at_throw Programs.failing 0 1 (heap Programs.listening) (trace Programs.listening)
           (clock Programs.listening) instance events "create" creates
           [] hook [VRef 13] [] (User 1) (VRef creates) (VNode 5) (VStr "boom")).
  - vm_compute. reflexivity.
  - vm_compute. reflexivity.
  - vm_compute. reflexivity.
  - constructor.
  - reflexivity.
  - intros e this h0 Hin. by apply elem_of_nil in Hin.
  - intros h0. by exists h0.
  - simpl. lia.
Defined.

Lemma emit_calls_handler_added_meanwhile_witness :
  emit (call Programs.adding 2) 3 (VStr "create") (VNode 5) (VRef instance) (State h tr ck)
  = (Ok VUndef,
     State (<[creates := ArrC [hook; listener]]> h)
           (tr ++ [EvCall (User 1) (VRef creates) [VNode 5];
                   EvCall (User 3) (VRef creates) [VNode 5]]) ck).
Proof.
  apply (emit_calls_handler_added_meanwhile Programs.adding 0 0 h tr ck instance events "create"
           creates hook (User 1) (VRef creates) listener (User 3) (VRef creates) (VNode 5)
           VUndef (<[creates := ArrC [hook; listener]]> h) VUndef
           (<[creates := ArrC [hook; listener]]> h)).
  - vm_compute. reflexivity.
  - vm_compute. reflexivity.
  - vm_compute. reflexivity.
  - reflexivity.
  - reflexivity.
  - vm_compute. reflexivity.
  - reflexivity.
  - reflexivity.
  - vm_compute. reflexivity.
Defined.

End EventsDemo.

End Listeners.

(** ** The completion callbacks *)

Module Completions.
Import JS Terms Walks Lifecycle Listeners.
Local Open Scope js_scope.

Section Callbacks.
Context (run : extern → value → list value → list cell → (value + value) * list cell).

Lemma call_completion fuel w l this next cthis args h tr ck :
  h !! l = Some (FunC (completion w cthis next)) →
  call run (S fuel) (VRef l) this args (State h tr ck)
  = match w with
    | Created => create_done (call run fuel) cthis next (arg 0 args)
    | Updated => update_done (call run fuel) cthis next
    | Destroyed => destroy_done (call run fuel) cthis next
    end (State h tr ck).
Proof. intros Hl. simpl. erewrite bind_ok by (by apply read_at). by destruct w. Qed.

Lemma call_method_emit fuel l tprops tproto args h tr ck :
  h !! l = Some (ObjC tprops tproto) →
  lookup_chain (length h) h l "emit" = Ok (VNative Emit) →
  call_method (call run (S fuel)) (VRef l) "emit" args (State h tr ck)
  = emit (call run fuel) fuel (arg 0 args) (arg 1 args) (VRef l) (State h tr ck).
Proof.
  intros Hl Hemit. unfold call_method.
  erewrite bind_ok by (by apply read_at). cbv beta iota.
  erewrite bind_ok by (by apply get_ref). done.
Qed.

(** X10: each completion callback first emits its event, [create] with the
    element the executor passes and [update] and [destroy] with nothing,
    and then calls [next] when one was given: with the element after
    [create], without arguments after [update] and [destroy]. The
    arguments and the [this] of the call are otherwise ignored. *)
Theorem completion_emits_then_next fuel w h tr ck cb l tprops tproto next this args
    e a hs targets :
  h !! cb = Some (FunC (completion w (VRef l) next)) →
  h !! l = Some (ObjC tprops tproto) →
  lookup_chain (length h) h l "emit" = Ok (VNative Emit) →
  lookup_chain (length h) h l "events" = Ok (VRef e) →
  lookup_chain (length h) h e (walk_event w) = Ok (VRef a) →
  h !! a = Some (ArrC hs) →
  Forall2 (λ f t, callee h f (VRef a) = Some t) hs targets →
  well_behaved run (emitted w args) (a :: refs hs) targets →
  next = VUndef ∨ (∃ n, next = VExtern n) →
  let result := call run (4 + (length hs + fuel)) (VRef cb) this args (State h tr ck) in
  trace result.2 = tr ++ calls (emitted w args) targets ++ next_call next (passed w args)
  ∧ (next = VUndef → result.1 = Ok VUndef).
Proof.
  intros Hcb Hl Hemit He Ha Hhs Hall Hwb Hnext result. subst result.
  change (4 + (length hs + fuel)) with (S (S (2 + (length hs + fuel)))).
  rewrite (call_completion _ _ _ _ _ _ _ _ _ _ Hcb).
  destruct (emit_calls_handlers run (length hs + fuel) (2 + (length hs + fuel))
              h tr ck l e (walk_event w) a hs targets (emitted w args))
    as (h' & Hrun & Hkeep); [exact He|exact Ha|exact Hhs|exact Hall|exact Hwb|lia|].
  assert (∀ nargs,
    let rest :=
      ((if decide (next = VUndef) then ret VUndef
        else call run (S (2 + (length hs + fuel))) next VUndef nargs) ;; ret VUndef)
        (State h' (tr ++ calls (emitted w args) targets) ck) in
    trace rest.2 = tr ++ calls (emitted w args) targets ++ next_call next nargs
    ∧ (next = VUndef → rest.1 = Ok VUndef)) as Hrest.
  { intros nargs. destruct Hnext as [-> | [n ->]].
    - destruct (decide (VUndef = VUndef)); [|done]. simpl. by rewrite app_nil_r.
    - destruct (decide (VExtern n = VUndef)); [done|].
      rewrite call_extern. unfold external, bind, log. simpl.
      destruct (run n VUndef nargs h') as [[v|x] h'']; simpl;
        by rewrite <- app_assoc. }
  destruct w; unfold create_done, update_done, destroy_done.
  all: erewrite bind_ok by (erewrite call_method_emit by done; exact Hrun).
  all: exact (Hrest _).
Qed.

(** X11: when [events] has no list for the event of the walk (after
    [off()], say), the completion callback throws a TypeError at once:
    nothing is emitted and [next] is not called. *)
Theorem completion_needs_list fuel w h tr ck cb l tprops tproto next this args e :
  h !! cb = Some (FunC (completion w (VRef l) next)) →
  h !! l = Some (ObjC tprops tproto) →
  lookup_chain (length h) h l "emit" = Ok (VNative Emit) →
  lookup_chain (length h) h l "events" = Ok (VRef e) →
  lookup_chain (length h) h e (walk_event w) = Ok VUndef →
  call run (3 + fuel) (VRef cb) this args (State h tr ck) = (Throw TypeError, State h tr ck).
Proof.
  intros Hcb Hl Hemit He Hnone.
  change (3 + fuel) with (S (S (S fuel))).
  rewrite (call_completion _ _ _ _ _ _ _ _ _ _ Hcb).
  destruct w; unfold create_done, update_done, destroy_done.
  all: erewrite bind_throw; [done|].
  all: erewrite call_method_emit by done.
  all: by eapply emit_undefined.
Qed.

(** C6, as amended: [create] hands one walk to [execute], with a new
    completion callback. When that walk completes, the callback is invoked
    once with the root live node; it first emits the [create] event, so
    the handlers run in list order with that node, and only then calls the
    caller's [next] with the node. *)
Theorem create_walk_emits_then_next fuel h tr ck l tprops tproto next start element
    v vprops vproto vdata d ethis r h1 v1 rc e a hs targets :
  lookup_chain (length h) h l "view" = Ok (VRef v) →
  h !! v = Some (ObjC vprops vproto) →
  lookup_chain (length h) h v "data" = Ok vdata →
  callee h vdata (VRef v) = Some (d, ethis) →
  run d ethis [] h = (inl r, h1) →
  lookup_chain (length h1) h1 l "view" = Ok (VRef v1) →
  lookup_chain (length h1) h1 v1 "create" = Ok rc →
  h1 !! l = Some (ObjC tprops tproto) →
  lookup_chain (length h1) h1 l "emit" = Ok (VNative Emit) →
  lookup_chain (length h1) h1 l "events" = Ok (VRef e) →
  lookup_chain (length h1) h1 e "create" = Ok (VRef a) →
  h1 !! a = Some (ArrC hs) →
  Forall2 (λ f t, callee h1 f (VRef a) = Some t) hs targets →
  well_behaved run element (a :: refs hs) targets →
  let onComplete := length h1 in
  let walk := EvExecute (VNum 0) (start_time start ck) (VRef l) rc (VRef onComplete) in
  ∃ st,
    create (call run (2 + fuel)) (VExtern next) start (VRef l) (State h tr ck)
    = (Ok VUndef, st)
    ∧ trace st = tr ++ [EvCall d ethis []; walk]
    ∧ h1 !! onComplete = None
    ∧ heap st !! onComplete = Some (FunC (CreateDone (VRef l) (VExtern next)))
    ∧ trace (completes run (4 + (length hs + fuel)) walk element st).2
      = trace st ++ calls element targets ++ [EvCall next VUndef [element]].
Proof.
  intros Hv Hvc Hdata Hcallee Hrun Hv1 Hrc Hl Hemit He Ha Hhs Hall Hwb onComplete walk.
  set (h2 := h1 ++ [FunC (CreateDone (VRef l) (VExtern next))]).
  assert (length h1 ≤ length h2) as Hlen by (unfold h2; rewrite length_app; lia).
  exists (State h2 (tr ++ [EvCall d ethis []; walk]) ck).
  split; [by eapply create_calls_execute|].
  split; [done|].
  split; [by apply lookup_ge_None|].
  assert (h2 !! onComplete = Some (FunC (CreateDone (VRef l) (VExtern next)))) as Hcb
    by (by apply list_lookup_middle).
  split; [exact Hcb|].
  unfold completes, walk. cbv beta iota.
  change (4 + (length hs + fuel)) with (S (S (2 + (length hs + fuel)))).
  rewrite (call_completion _ Created _ _ _ _ _ _ _ _ Hcb).
  change (arg 0 [element]) with element.
  change (trace (State h2 (tr ++ [EvCall d ethis []; walk]) ck))
    with (tr ++ [EvCall d ethis []; walk]).
  destruct (emit_calls_handlers run (length hs + fuel) (2 + (length hs + fuel))
              h2 (tr ++ [EvCall d ethis []; walk]) ck l e "create" a hs targets element)
    as (h' & Hemitted & Hkeep).
  - by eapply lookup_chain_grow.
  - by eapply lookup_chain_grow.
  - by apply lookup_app_l_Some.
  - eapply Forall2_impl; [exact Hall|]. intros f t Hf. simpl in Hf.
    eapply callee_same; [|done]. intros b c Hb. by apply lookup_app_l_Some.
  - exact Hwb.
  - lia.
  - unfold create_done.
    erewrite bind_ok.
    2:{ erewrite call_method_emit; [exact Hemitted|by apply lookup_app_l_Some|].
        by eapply lookup_chain_grow. }
    destruct (decide (VExtern next = VUndef)); [done|].
    rewrite call_extern. unfold external, bind, log. simpl.
    destruct (run next VUndef [element] h') as [[x|x] h'']; simpl;
      by rewrite <- !app_assoc.
Qed.

End Callbacks.

Section CompletionDemo.
Import Demo.

Lemma completion_emits_then_next_witness :
  trace (Host.call 5 (VRef 14) VUndef [] Programs.updated).2
  = trace Programs.updated
    ++ [EvCall (User 3) (VRef instance) [VUndef]; EvCall (User 2) VUndef []].
Proof.
  apply (completion_emits_then_next Host.run 0 Updated (heap Programs.updated)
           (trace Programs.updated) (clock Programs.updated) 14 instance
           {[ "count"%string := VNum 1 ]} (Some data) next VUndef [] events 5 [VRef 13]
           [(User 3, VRef instance)]).
  - vm_compute. reflexivity.
  - vm_compute. reflexivity.
  - vm_compute. reflexivity.
  - vm_compute. reflexivity.
  - vm_compute. reflexivity.
  - vm_compute. reflexivity.
  - repeat constructor.
  - apply host_well_behaved.
  - right. by exists (User 2).
Defined.

Lemma completion_needs_list_witness :
  Host.call 3 (VRef 14) VUndef [VNode 5] Programs.silenced = (Throw TypeError, Programs.silenced).
Proof.
  apply (completion_needs_list Host.run 0 Created (heap Programs.silenced)
           (trace Programs.silenced) (clock Programs.silenced) 14 instance
           {[ "events"%string := VRef 13 ]} (Some data) next VUndef [VNode 5] 13).
  - vm_compute. reflexivity.
  - vm_compute. reflexivity.
  - vm_compute. reflexivity.
  - vm_compute. reflexivity.
  - vm_compute. reflexivity.
Defined.

Lemma create_walk_emits_then_next_witness :
  ∃ st,
    create (Host.call 2) next VUndef (VRef instance) started = (Ok VUndef, st)
    ∧ trace st
      = trace started
        ++ [EvCall (Compiled 0 RData) (VRef instance) [];
            EvExecute (VNum 0) (VNum 100) (VRef instance) (VExtern (Compiled 0 RCreate))
                      (VRef 13)]
    ∧ heap st !! 13 = Some (FunC (CreateDone (VRef instance) next))
    ∧ trace (completes Host.run 5
               (EvExecute (VNum 0) (VNum 100) (VRef instance) (VExtern (Compiled 0 RCreate))
                          (VRef 13))
               (VNode 5) st).2
      = trace st ++ [EvCall (User 1) (VRef creates) [VNode 5]; EvCall (User 2) VUndef [VNode 5]].
Proof.
  destruct (create_walk_emits_then_next Host.run 0 (heap started) (trace started)
              (clock started) instance ∅ (Some data) (User 2) VUndef (VNode 5)
              view
              (list_to_map [("data"%string, VRef 11);
                            ("create"%string, VExtern (Compiled 0 RCreate));
                            ("update"%string, VExtern (Compiled 0 RUpdate));
                            ("destroy"%string, VExtern (Compiled 0 RDestroy))])
              (Some object_prototype) (VRef 11) (Compiled 0 RData) (VRef instance)
              VUndef (heap started) view (VExtern (Compiled 0 RCreate))
              events creates [hook] [(User 1, VRef creates)])
    as (st & Hcreate & Htrace & _ & Hcb & Hdone).
  - vm_compute. reflexivity.
  - vm_compute. reflexivity.
  - vm_compute. reflexivity.
  - vm_compute. reflexivity.
  - reflexivity.
  - vm_compute. reflexivity.
  - vm_compute. reflexivity.
  - vm_compute. reflexivity.
  - vm_compute. reflexivity.
  - vm_compute. reflexivity.
  - vm_compute. reflexivity.
  - vm_compute. reflexivity.
  - repeat constructor.
  - apply host_well_behaved.
  - exists st. split; [exact Hcreate|]. split; [exact Htrace|]. split; [exact Hcb|].
    exact Hdone.
Defined.

End CompletionDemo.

End Completions.

(** ** The lifecycle functions at their edges *)

Module Entries.
Import JS Terms Lifecycle Listeners.
Local Open Scope js_scope.

Section Edges.
Context (run : extern → value → list value → list cell → (value + value) * list cell).
Context (callf : value → value → list value → M value).

(** X12: without a view, no walk starts. [create] and [destroy] throw a
    TypeError and change nothing; [update] throws it too, but only after it
    has copied the data onto the instance. [execute] is not called. *)
Theorem lifecycle_needs_view h tr ck l tprops tproto d dprops next start :
  h !! l = Some (ObjC tprops tproto) →
  lookup_chain (length h) h l "view" = Ok VUndef →
  h !! d = Some (ObjC dprops (Some object_prototype)) →
  d ≠ object_prototype → d ≠ l →
  dprops !! "__proto__" = None →
  lookup_chain (length h) (<[l := ObjC (dprops ∪ tprops) tproto]> h) l "view" = Ok VUndef →
  create callf next start (VRef l) (State h tr ck) = (Throw TypeError, State h tr ck)
  ∧ update (VRef d) next start (VRef l) (State h tr ck)
    = (Throw TypeError, State (<[l := ObjC (dprops ∪ tprops) tproto]> h) tr ck)
  ∧ destroy next start (VRef l) (State h tr ck) = (Throw TypeError, State h tr ck).
Proof.
  intros Hl Hview Hd Hd0 Hdl Hproto Hview'. split; [|split].
  - unfold create. erewrite bind_ok by (by apply get_ref). done.
  - unfold update.
    erewrite bind_ok by (by apply for_in_keys_plain).
    erewrite bind_ok.
    2:{ eapply assign_keys_plain; [done|done|done|].
        intros k ([k' x] & -> & Hin)%list_elem_of_fmap.
        apply elem_of_map_to_list in Hin. simpl in *. split; [done|].
        intros ->. congruence. }
    rewrite assigned_union.
    erewrite bind_ok by apply start_step.
    erewrite bind_ok by (apply get_ref; by rewrite length_insert).
    done.
  - unfold destroy.
    erewrite bind_ok by apply start_step.
    erewrite bind_ok by (by apply get_ref). done.
Qed.

(** X13: [update] without data ([undefined] or [null]) copies nothing, and
    hands the walk to [execute] all the same. *)
Theorem update_without_data h tr ck l v ru data next start :
  data = VUndef ∨ data = VNull →
  lookup_chain (length h) h l "view" = Ok (VRef v) →
  lookup_chain (length h) h v "update" = Ok ru →
  update data next start (VRef l) (State h tr ck)
  = (Ok VUndef,
     State (h ++ [FunC (UpdateDone (VRef l) next)])
           (tr ++ [EvExecute (VNum 0) (start_time start ck) (VRef l) ru (VRef (length h))])
           ck).
Proof.
  intros Hdata Hv Hr. unfold update.
  assert (for_in_keys data (State h tr ck) = (Ok [], State h tr ck)) as Hkeys
    by (by destruct Hdata as [-> | ->]).
  erewrite bind_ok by exact Hkeys. simpl assign_keys. rewrite bind_ret.
  erewrite bind_ok by apply start_step.
  erewrite bind_ok by (by apply get_ref).
  erewrite bind_ok by (by apply get_ref).
  erewrite bind_ok by apply alloc_at.
  apply execute_step.
Qed.

(** X14: when [this.view.data()] throws, [create] throws the same value
    and [execute] is not called. *)
Theorem create_stops_when_data_throws fuel h tr ck l v vprops vproto vdata e ethis x h1
    next start :
  lookup_chain (length h) h l "view" = Ok (VRef v) →
  h !! v = Some (ObjC vprops vproto) →
  lookup_chain (length h) h v "data" = Ok vdata →
  callee h vdata (VRef v) = Some (e, ethis) →
  run e ethis [] h = (inr x, h1) →
  create (call run (2 + fuel)) next start (VRef l) (State h tr ck)
  = (Throw (Thrown x), State h1 (tr ++ [EvCall e ethis []]) ck).
Proof.
  intros Hv Hvc Hdata Hcallee Hrun. unfold create.
  erewrite bind_ok by (by apply get_ref).
  erewrite bind_throw; [done|].
  unfold call_method. erewrite bind_ok by (by apply read_at). cbv beta iota.
  erewrite bind_ok by (by apply get_ref).
  erewrite call_callee by done. by apply external_throws.
Qed.

End Edges.

(** ** [update] and the keys its data inherits *)

Lemma protos_frame fuel h h' d :
  (∀ x, x ∈ protos fuel h d → h' !! x = h !! x) → protos fuel h' d = protos fuel h d.
Proof.
  revert d. induction fuel as [|fuel IH]; intros d Hsame; [done|]. simpl in *.
  rewrite (Hsame d) by left.
  destruct (h !! d) as [[props [p|]| |]|] eqn:Hd; try done.
  f_equal. apply IH. intros x Hx. apply Hsame. by right.
Qed.

Lemma assign_keys_chain h tr ck l tprops tproto d keys (f : string → value) :
  h !! l = Some (ObjC tprops tproto) →
  l ∉ protos (length h) h d →
  (∀ k, k ∈ keys → k ≠ "__proto__"%string ∧ lookup_chain (length h) h d k = Ok (f k)) →
  assign_keys (VRef l) (VRef d) keys (State h tr ck)
  = (Ok tt,
     State (<[l := ObjC (foldl (λ acc k, <[k := f k]> acc) tprops keys) tproto]> h) tr ck).
Proof.
  revert h tprops. induction keys as [|k keys IH]; intros h tprops Hl Hnot Hkeys.
  - simpl. by rewrite list_insert_id.
  - destruct (Hkeys k) as [Hk Hget]; [left|]. simpl.
    erewrite bind_ok by (by apply get_ref).
    erewrite bind_ok by (by eapply put_obj).
    assert (l < length h) as Hlt by (by eapply lookup_lt_Some).
    set (h' := <[l := ObjC (<[k := f k]> tprops) tproto]> h).
    assert (∀ x, x ∈ protos (length h) h d → h' !! x = h !! x) as Hsame.
    { intros x Hx. unfold h'. apply list_lookup_insert_ne. by intros ->. }
    assert (length h' = length h) as Hlen by (unfold h'; by rewrite length_insert).
    rewrite (IH h' (<[k := f k]> tprops)).
    + unfold h'. by rewrite list_insert_insert_eq.
    + unfold h'. by apply list_lookup_insert_eq.
    + rewrite Hlen, (protos_frame _ h) by done. done.
    + intros k' Hk'. destruct (Hkeys k') as [Hne Hget']; [by right|].
      split; [done|]. rewrite Hlen.
      eapply lookup_chain_frame; [| |exact Hget']; [done|].
      intros x c Hx Hc. by rewrite Hsame.
Qed.

Section Inherited.
Context (run : extern → value → list value → list cell → (value + value) * list cell).

(** X15: the loop [for (let key in data)] of [update] has no own-property
    test, so it also copies what [data] inherits: when the prototype of
    [data] is an ordinary object, the instance gets the properties of
    [data] and, where [data] has none of that name, those of its
    prototype, all as own properties. *)
Theorem update_copies_inherited_keys h tr ck l tprops tproto d dprops p pprops vu ru
    next start :
  pristine h →
  h !! l = Some (ObjC tprops tproto) →
  h !! d = Some (ObjC dprops (Some p)) →
  h !! p = Some (ObjC pprops (Some object_prototype)) →
  l ≠ d → l ≠ p → l ≠ object_prototype →
  dprops !! "__proto__" = None → pprops !! "__proto__" = None →
  let hu := <[l := ObjC ((dprops ∪ pprops) ∪ tprops) tproto]> h in
  lookup_chain (length hu) hu l "view" = Ok (VRef vu) →
  lookup_chain (length hu) hu vu "update" = Ok ru →
  update (VRef d) next start (VRef l) (State h tr ck)
  = (Ok VUndef,
     State (hu ++ [FunC (UpdateDone (VRef l) next)])
           (tr ++ [EvExecute (VNum 0) (start_time start ck) (VRef l) ru (VRef (length hu))])
           ck).
Proof.
  intros H0 Hl Hd Hp Hld Hlp Hl0 Hdproto Hpproto hu Hv Hr.
  pose proof (plain_not_prototype _ _ _ H0 Hp) as Hp0.
  assert (d ≠ object_prototype) as Hd0.
  { unfold pristine in H0. intros ->. rewrite H0 in Hd. discriminate. }
  assert (d ≠ p) as Hdp.
  { intros ->. rewrite Hp in Hd. injection Hd as _ Heq. by apply Hp0. }
  assert (d < length h) as Hdlt by (by eapply lookup_lt_Some).
  assert (p < length h) as Hplt by (by eapply lookup_lt_Some).
  assert (object_prototype < length h) as H0lt by (by eapply lookup_lt_Some).
  assert (∃ n, length h = S (S (S n))) as [n Hn].
  { unfold object_prototype in *. destruct (length h) as [|[|[|n]]]; [lia|lia|lia|by eexists]. }
  set (keys := (map_to_list dprops).*1
               ++ filter (λ k, dprops !! k = None) ((map_to_list pprops).*1 ++ [])).
  assert (for_in_keys (VRef d) (State h tr ck) = (Ok keys, State h tr ck)) as Hkeys.
  { unfold for_in_keys. simpl. rewrite Hn. simpl.
    rewrite decide_False by done. rewrite Hd.
    rewrite decide_False by done. rewrite Hp.
    by rewrite decide_True by done. }
  assert (∀ k, k ∈ keys ↔ is_Some ((dprops ∪ pprops) !! k)) as Hin.
  { intros k. unfold keys. rewrite app_nil_r, elem_of_app, list_elem_of_filter.
    rewrite !list_elem_of_fmap, lookup_union_is_Some. split.
    - intros [([k' x] & -> & Hx)|[_ ([k' x] & -> & Hx)]];
        apply elem_of_map_to_list in Hx; simpl; eauto.
    - destruct (dprops !! k) as [x|] eqn:Hx.
      + intros _. left. exists (k, x). split; [done|]. by apply elem_of_map_to_list.
      + intros [[? [=]]|[y Hy]]. right. split; [done|].
        exists (k, y). split; [done|]. by apply elem_of_map_to_list. }
  assert (protos (length h) h d = [d; p; object_prototype]) as Hprotos.
  { rewrite Hn. simpl. rewrite Hd, Hp. unfold pristine in H0. by rewrite H0. }
  unfold update.
  erewrite bind_ok by exact Hkeys.
  erewrite bind_ok.
  2:{ apply (assign_keys_chain h tr ck l tprops tproto d keys
               (λ k, default VUndef ((dprops ∪ pprops) !! k))); [done| |].
      - rewrite Hprotos. intros Hx.
        repeat (apply elem_of_cons in Hx as [Hx|Hx]; [done|]). by apply elem_of_nil in Hx.
      - intros k Hk. apply Hin in Hk as [x Hx].
        assert (k ≠ "__proto__"%string) as Hne.
        { intros ->. apply lookup_union_Some_raw in Hx as [Hx|[_ Hx]]; congruence. }
        split; [done|]. rewrite Hx. simpl.
        apply lookup_union_Some_raw in Hx as [Hx|[Hnone Hx]].
        + by eapply get_own.
        + rewrite Hn. erewrite lookup_chain_step by done.
          simpl. rewrite Hp. rewrite decide_False by done. by rewrite Hx. }
  change (foldl _ tprops keys) with (assigned (dprops ∪ pprops) tprops keys).
  assert (assigned (dprops ∪ pprops) tprops keys = (dprops ∪ pprops) ∪ tprops) as ->.
  { apply map_eq. intros j. rewrite assigned_lookup.
    destruct (decide (j ∈ keys)) as [Hj|Hj].
    - apply Hin in Hj as [x Hx]. rewrite Hx. simpl. symmetry.
      by apply lookup_union_Some_l.
    - assert ((dprops ∪ pprops) !! j = None) as Hnone.
      { destruct ((dprops ∪ pprops) !! j) eqn:Hx; [|done]. destruct Hj. apply Hin. by eexists. }
      by rewrite lookup_union_r. }
  fold hu.
  erewrite bind_ok by apply start_step.
  erewrite bind_ok by (by apply get_ref).
  erewrite bind_ok by (by apply get_ref).
  erewrite bind_ok by apply alloc_at.
  apply execute_step.
Qed.

End Inherited.

Section EntryDemo.
Import Demo.

Local Abbreviation h := (heap started).
Local Abbreviation tr := (trace started).
Local Abbreviation ck := (clock started).

Lemma lifecycle_needs_view_witness :
  create (Host.call 0) next VUndef (VRef count) Programs.loose = (Throw TypeError, Programs.loose)
  ∧ update (VRef Programs.step) next VUndef (VRef count) Programs.loose
    = (Throw TypeError,
       State (<[count := ObjC ({[ "step"%string := VNum 2 ]} ∪ {[ "count"%string := VNum 1 ]})
                              (Some object_prototype)]> (heap Programs.loose))
             (trace Programs.loose) (clock Programs.loose))
  ∧ destroy next VUndef (VRef count) Programs.loose = (Throw TypeError, Programs.loose).
Proof.
  apply (lifecycle_needs_view (Host.call 0) (heap Programs.loose) (trace Programs.loose)
           (clock Programs.loose) count {[ "count"%string := VNum 1 ]} (Some object_prototype)
           Programs.step {[ "step"%string := VNum 2 ]} next VUndef).
  - vm_compute. reflexivity.
  - vm_compute. reflexivity.
  - vm_compute. reflexivity.
  - discriminate.
  - discriminate.
  - vm_compute. reflexivity.
  - vm_compute. reflexivity.
Defined.

Lemma update_without_data_witness :
  update VUndef next VUndef (VRef instance) (State h tr ck)
  = (Ok VUndef,
     State (h ++ [FunC (UpdateDone (VRef instance) next)])
           (tr ++ [EvExecute (VNum 0) (VNum 100) (VRef instance)
                             (VExtern (Compiled 0 RUpdate)) (VRef 13)])
           ck).
Proof.
  apply (update_without_data h tr ck instance view (VExtern (Compiled 0 RUpdate))
           VUndef next VUndef).
  - by left.
  - vm_compute. reflexivity.
  - vm_compute. reflexivity.
Defined.

Lemma create_stops_when_data_throws_witness :
  create (call Programs.failing 2) next VUndef (VRef instance) (State h tr ck)
  = (Throw (Thrown (VStr "boom")),
     State h (tr ++ [EvCall (Compiled 0 RData) (VRef instance) []]) ck).
Proof.
  apply (create_stops_when_data_throws Programs.failing 0 h tr ck instance view
           (list_to_map [("data"%string, VRef 11);
                         ("create"%string, VExtern (Compiled 0 RCreate));
                         ("update"%string, VExtern (Compiled 0 RUpdate));
                         ("destroy"%string, VExtern (Compiled 0 RDestroy))])
           (Some object_prototype) (VRef 11) (Compiled 0 RData) (VRef instance)
           (VStr "boom") h next VUndef).
  - vm_compute. reflexivity.
  - vm_compute. reflexivity.
  - vm_compute. reflexivity.
  - vm_compute. reflexivity.
  - reflexivity.
Defined.

Lemma update_copies_inherited_keys_witness :
  ∃ st props',
    update (VRef Programs.second) next VUndef (VRef instance) Programs.twins = (Ok VUndef, st)
    ∧ heap st !! instance = Some (ObjC props' (Some data))
    ∧ props' !! "events" = Some (VRef events)
    ∧ props' !! "emit" = Some (VNative Emit).
Proof.
  eexists _, _. split.
  - apply (update_copies_inherited_keys (heap Programs.twins) (trace Programs.twins)
             (clock Programs.twins) instance ∅ (Some data) Programs.second ∅ data
             (moon_props (viewed app 3) 4) view (VExtern (Compiled 0 RUpdate))
             next VUndef).
    + reflexivity.
    + vm_compute. reflexivity.
    + vm_compute. reflexivity.
    + vm_compute. reflexivity.
    + discriminate.
    + discriminate.
    + discriminate.
    + reflexivity.
    + vm_compute. reflexivity.
    + vm_compute. reflexivity.
    + vm_compute. reflexivity.
  - split; [|split].
    + apply lookup_app_l_Some. apply list_lookup_insert_eq. vm_compute. lia.
    + vm_compute. reflexivity.
    + vm_compute. reflexivity.
Defined.

End EntryDemo.

End Entries.

(** ** [MoonComponent]: making instances *)

Module Instances.
Import JS Terms Lifecycle Listeners.
Local Open Scope js_scope.

Lemma bindable_grow h cells f : bindable h f → bindable (h ++ cells) f.
Proof.
  destruct f; try done. intros [c Hc]. exists c. by apply lookup_app_l_Some.
Qed.

Lemma fresh_instance_heap (h : list cell) (v : loc) V inst inst' b :
  v < length h →
  <[length h := inst']> (<[v := V]> ((h ++ [inst]) ++ [b])) = <[v := V]> h ++ [inst'; b].
Proof.
  intros Hv. rewrite <- app_assoc. rewrite insert_app_l by done.
  rewrite insert_app_r_alt by (rewrite length_insert; lia).
  by rewrite length_insert, Nat.sub_diag.
Qed.

Section Construct.
Context (run : extern → value → list value → list cell → (value + value) * list cell).

(** What [new MoonComponent(data)] does, step by step. *)
Lemma construct_steps fuel h tr ck mc d v vprops vproto vdata args aprops :
  h !! mc = Some (FunC (MoonComponent (VRef d))) →
  lookup_chain (length h) h d "view" = Ok (VRef v) →
  h !! v = Some (ObjC vprops vproto) →
  lookup_chain (length h) h v "data" = Ok vdata →
  bindable h vdata →
  (arg 0 args = VUndef ∧ aprops = ∅)
  ∨ (∃ ar, arg 0 args = VRef ar
           ∧ h !! ar = Some (ObjC aprops (Some object_prototype))
           ∧ ar ≠ object_prototype ∧ ar ≠ v
           ∧ aprops !! "__proto__" = None) →
  construct run fuel (VRef mc) args (State h tr ck)
  = (Ok (VRef (length h)),
     State (<[v := ObjC (<["data" := VRef (S (length h))]> vprops) vproto]> h
            ++ [ObjC aprops (Some d); FunC (Bound vdata (VRef (length h)))])
           tr ck).
Proof.
  intros Hmc Hview Hv Hdata Hbind Hgiven.
  assert (v < length h) as Hvlt by (by eapply lookup_lt_Some).
  unfold construct.
  erewrite bind_ok by (by apply read_at). cbv beta iota.
  erewrite bind_ok by apply alloc_at.
  set (i := length h).
  set (h1 := h ++ [ObjC ∅ (Some d)]).
  assert (length h1 = S i) as Hlen1 by (unfold h1; rewrite length_app; simpl; lia).
  assert (lookup_chain (length h1) h1 i "view" = Ok (VRef v)) as Hview1.
  { rewrite Hlen1.
    erewrite lookup_chain_step; [|by apply list_lookup_middle|done|done].
    by eapply lookup_chain_grow. }
  erewrite (bind_ok _ _ _ VUndef); [reflexivity|].
  unfold moon_component.
  erewrite bind_ok by (by apply get_ref).
  erewrite bind_ok by (by apply get_ref).
  erewrite bind_ok.
  2:{ apply get_ref. rewrite Hlen1. eapply lookup_chain_grow; [done|unfold i; lia]. }
  erewrite bind_ok by (apply call_method_bind; by apply bindable_grow).
  erewrite bind_ok.
  2:{ eapply put_obj; [|done]. apply lookup_app_l_Some. by apply lookup_app_l_Some. }
  rewrite Hlen1.
  destruct Hgiven as [[-> ->] | (ar & -> & Har & Har0 & Harv & Hproto)].
  - simpl. unfold bind, ret. simpl. f_equal. f_equal.
    unfold h1. rewrite <- app_assoc. by rewrite insert_app_l.
  - assert (ar < length h) as Harlt by (by eapply lookup_lt_Some).
    erewrite bind_ok.
    2:{ apply for_in_keys_plain; [|done].
        rewrite list_lookup_insert_ne by done.
        apply lookup_app_l_Some. by apply lookup_app_l_Some. }
    erewrite bind_ok.
    2:{ eapply (assign_keys_plain _ _ _ i ar ∅ (Some d) aprops).
        - rewrite list_lookup_insert_ne by (unfold i; lia).
          unfold h1. rewrite <- app_assoc. by apply list_lookup_middle.
        - rewrite list_lookup_insert_ne by done.
          apply lookup_app_l_Some. by apply lookup_app_l_Some.
        - unfold i. lia.
        - intros k ([k' x] & -> & Hin)%list_elem_of_fmap.
          apply elem_of_map_to_list in Hin. simpl in *. split; [done|].
          intros ->. congruence. }
    rewrite assigned_union, (right_id_L ∅ (∪)). unfold ret. f_equal. f_equal.
    by apply fresh_instance_heap.
Qed.

(** X16: [new MoonComponent(data)] makes a new object whose prototype is
    the data object given to [Moon], with the properties of its argument as
    own properties (none without argument), and replaces [data] of the
    view object, which all instances share, by a new function bound to
    the new instance. Every other object is left as it was, and nothing
    outside the module is called. *)
Theorem construct_instance fuel h tr ck mc d v vprops vproto vdata args aprops :
  h !! mc = Some (FunC (MoonComponent (VRef d))) →
  lookup_chain (length h) h d "view" = Ok (VRef v) →
  h !! v = Some (ObjC vprops vproto) →
  lookup_chain (length h) h v "data" = Ok vdata →
  bindable h vdata →
  (arg 0 args = VUndef ∧ aprops = ∅)
  ∨ (∃ ar, arg 0 args = VRef ar
           ∧ h !! ar = Some (ObjC aprops (Some object_prototype))
           ∧ ar ≠ object_prototype ∧ ar ≠ v
           ∧ aprops !! "__proto__" = None) →
  ∃ st bound,
    construct run fuel (VRef mc) args (State h tr ck) = (Ok (VRef (length h)), st)
    ∧ trace st = tr
    ∧ heap st !! length h = Some (ObjC aprops (Some d))
    ∧ heap st !! v = Some (ObjC (<["data" := VRef bound]> vprops) vproto)
    ∧ heap st !! bound = Some (FunC (Bound vdata (VRef (length h))))
    ∧ h !! bound = None
    ∧ (∀ (l : loc) c, h !! l = Some c → l ≠ v → heap st !! l = Some c).
Proof.
  intros Hmc Hview Hv Hdata Hbind Hgiven.
  assert (v < length h) as Hvlt by (by eapply lookup_lt_Some).
  eexists _, (S (length h)).
  split; [by apply construct_steps|]. simpl.
  split; [done|].
  split.
  { rewrite lookup_app_r by (by rewrite length_insert).
    by rewrite length_insert, Nat.sub_diag. }
  split.
  { apply lookup_app_l_Some. by apply list_lookup_insert_eq. }
  split.
  { rewrite lookup_app_r by (rewrite length_insert; lia).
    rewrite length_insert. by replace (S (length h) - length h) with 1 by lia. }
  split.
  { apply lookup_ge_None. lia. }
  intros l c Hl Hlv. apply lookup_app_l_Some. by rewrite list_lookup_insert_ne.
Qed.

Lemma call_bound fuel l target bthis this args h tr ck :
  h !! l = Some (FunC (Bound target bthis)) →
  call run (S fuel) (VRef l) this args (State h tr ck)
  = call run fuel target bthis args (State h tr ck).
Proof. intros Hl. simpl. by erewrite bind_ok by (by apply read_at). Qed.

Lemma extends_after {A B} (m : M A) (f : A → M B) st r st1 evs1 :
  m st = (r, st1) → trace st1 = trace st ++ evs1 → (∀ a, extends (f a)) →
  ∃ evs, trace (bind m f st).2 = trace st ++ evs1 ++ evs.
Proof.
  intros Hm Htr Hf. unfold bind. rewrite Hm.
  destruct r as [a| | |]; try (exists []; simpl; by rewrite app_nil_r).
  destruct (Hf a st1) as [evs Hevs]. exists evs. by rewrite Hevs, Htr, app_assoc.
Qed.

(** X17: the view object is shared, and binding a bound function does not
    change its [this]. So after two instances have been made, [create] on
    the second one calls the data routine of the view with [this] bound to
    the first instance. *)
Theorem second_instance_runs_data_on_first fuel h tr ck mc d dprops dproto v vprops vproto
    x next start :
  h !! mc = Some (FunC (MoonComponent (VRef d))) →
  h !! d = Some (ObjC dprops dproto) →
  dprops !! "view" = Some (VRef v) →
  h !! v = Some (ObjC vprops vproto) →
  vprops !! "data" = Some (VExtern x) →
  d ≠ v →
  ∃ evs,
    trace ((first <- construct run fuel (VRef mc) [] ;;
            second <- construct run fuel (VRef mc) [] ;;
            create (call run (3 + fuel)) next start second) (State h tr ck)).2
    = tr ++ EvCall x (VRef (length h)) [] :: evs.
Proof.
  intros Hmc Hd Hview Hv Hdata Hdv.
  assert (v < length h) as Hvlt by (by eapply lookup_lt_Some).
  assert (d < length h) as Hdlt by (by eapply lookup_lt_Some).
  assert (mc < length h) as Hmlt by (by eapply lookup_lt_Some).
  assert (mc ≠ v) as Hmv by (intros ->; congruence).
  set (i := length h).
  set (v1 := ObjC (<["data" := VRef (S i)]> vprops) vproto).
  set (h1 := <[v := v1]> h ++ [ObjC ∅ (Some d); FunC (Bound (VExtern x) (VRef i))]).
  assert (length h1 = 2 + i) as Hlen1.
  { unfold h1. rewrite length_app, length_insert. simpl. unfold i. lia. }
  set (v2 := ObjC (<["data" := VRef (3 + i)]> (<["data" := VRef (S i)]> vprops)) vproto).
  set (h2 := <[v := v2]> h1 ++ [ObjC ∅ (Some d); FunC (Bound (VRef (S i)) (VRef (2 + i)))]).
  assert (∀ (l : loc) c, h !! l = Some c → l ≠ v → h1 !! l = Some c) as Hold1.
  { intros l c Hl Hlv. unfold h1. apply lookup_app_l_Some.
    by rewrite list_lookup_insert_ne. }
  assert (h1 !! v = Some v1) as Hv1.
  { unfold h1. apply lookup_app_l_Some. by apply list_lookup_insert_eq. }
  assert (∀ (l : loc) c, h1 !! l = Some c → l ≠ v → h2 !! l = Some c) as Hold2.
  { intros l c Hl Hlv. unfold h2. apply lookup_app_l_Some.
    by rewrite list_lookup_insert_ne. }
  assert (h2 !! v = Some v2) as Hv2.
  { unfold h2. apply lookup_app_l_Some. apply list_lookup_insert_eq. lia. }
  erewrite bind_ok.
  2:{ apply (construct_steps fuel h tr ck mc d v vprops vproto (VExtern x) [] ∅);
        [done| |done| |done|by left].
      - by eapply get_own.
      - by eapply get_own. }
  fold i v1 h1.
  erewrite bind_ok.
  2:{ apply (construct_steps fuel h1 tr ck mc d v (<["data" := VRef (S i)]> vprops)
               vproto (VRef (S i)) [] ∅); [by apply Hold1| |done| | |by left].
      - eapply get_own; [by apply Hold1|done|done].
      - eapply get_own; [done|by apply lookup_insert_eq|done].
      - exists (Bound (VExtern x) (VRef i)). unfold h1.
        rewrite lookup_app_r by (rewrite length_insert; unfold i; lia).
        rewrite length_insert. by replace (S i - length h) with 1 by (unfold i; lia). }
  rewrite Hlen1. fold v2. change (S (2 + i)) with (3 + i). fold h2.
  assert (h2 !! (2 + i) = Some (ObjC ∅ (Some d))) as Hi2.
  { unfold h2. rewrite lookup_app_r by (rewrite length_insert; lia).
    rewrite length_insert, Hlen1. by rewrite Nat.sub_diag. }
  assert (h2 !! (3 + i) = Some (FunC (Bound (VRef (S i)) (VRef (2 + i))))) as Hb2.
  { unfold h2. rewrite lookup_app_r by (rewrite length_insert; lia).
    rewrite length_insert, Hlen1. by replace (3 + i - (2 + i)) with 1 by lia. }
  assert (h2 !! (S i) = Some (FunC (Bound (VExtern x) (VRef i)))) as Hb1.
  { apply Hold2; [|lia]. unfold h1.
    rewrite lookup_app_r by (rewrite length_insert; unfold i; lia).
    rewrite length_insert. by replace (S i - length h) with 1 by (unfold i; lia). }
  unfold create.
  erewrite bind_ok.
  2:{ apply get_ref. eapply lookup_chain_inherit; [exact Hi2|done| |exact Hview|lia|done].
      apply Hold2; [by apply Hold1|done]. }
  set (rest := λ _ : value, _).
  destruct (extends_after (call_method (call run (3 + fuel)) (VRef v) "data" []) rest
              (State h2 tr ck)
              (external run x (VRef i) [] (State h2 tr ck)).1
              (external run x (VRef i) [] (State h2 tr ck)).2
              [EvCall x (VRef i) []]) as [evs Hevs].
  - unfold call_method. erewrite bind_ok by (by apply read_at).
    cbv beta iota delta [v2].
    erewrite bind_ok.
    2:{ apply get_ref. eapply get_own; [exact Hv2|by apply lookup_insert_eq|done]. }
    change (3 + fuel) with (S (S (S fuel))).
    rewrite (call_bound _ _ _ _ _ _ _ _ _ Hb2), (call_bound _ _ _ _ _ _ _ _ _ Hb1).
    rewrite call_extern.
    by destruct (external run x (VRef i) [] (State h2 tr ck)).
  - unfold external, bind, log. simpl. by destruct (run x (VRef i) [] h2) as [[?|?] ?].
  - intros a. subst rest. cbv beta.
    pose proof (extends_execute). unfold function. extends_all; auto.
  - exists evs. exact Hevs.
Qed.

End Construct.

Section InstancesDemo.
Import Demo.

Local Abbreviation views :=
  (list_to_map [("data"%string, VExtern (Compiled 0 RData));
                ("create"%string, VExtern (Compiled 0 RCreate));
                ("update"%string, VExtern (Compiled 0 RUpdate));
                ("destroy"%string, VExtern (Compiled 0 RDestroy))] : gmap string value).

Lemma construct_instance_witness :
  ∃ st bound,
    Host.construct 0 (VRef 8) [VRef count] started = (Ok (VRef 13), st)
    ∧ trace st = trace started
    ∧ heap st !! 13 = Some (ObjC {[ "count"%string := VNum 1 ]} (Some data))
    ∧ heap st !! view
      = Some (ObjC (<["data" := VRef bound]> (<["data" := VRef 11]> views))
                   (Some object_prototype))
    ∧ heap st !! bound = Some (FunC (Bound (VRef 11) (VRef 13))).
Proof.
  destruct (construct_instance Host.run 0 (heap started) (trace started) (clock started)
              8 data view (<["data" := VRef 11]> views) (Some object_prototype) (VRef 11)
              [VRef count] {[ "count"%string := VNum 1 ]})
    as (st & bound & Hnew & Htrace & Hinstance & Hview & Hbound & _).
  - vm_compute. reflexivity.
  - vm_compute. reflexivity.
  - vm_compute. reflexivity.
  - vm_compute. reflexivity.
  - exists (Bound (VExtern (Compiled 0 RData)) (VRef instance)). vm_compute. reflexivity.
  - right. exists count. repeat split; try discriminate; vm_compute; reflexivity.
  - exists st, bound. split; [exact Hnew|]. split; [exact Htrace|].
    split; [exact Hinstance|]. split; [exact Hview|exact Hbound].
Defined.

Lemma second_instance_runs_data_on_first_witness :
  ∃ evs,
    trace ((first <- Host.construct 0 (VRef 8) [] ;;
            second <- Host.construct 0 (VRef 8) [] ;;
            create (Host.call 3) next VUndef second) Programs.defined).2
    = trace Programs.defined ++ EvCall (Compiled 0 RData) (VRef 10) [] :: evs.
Proof.
  apply (second_instance_runs_data_on_first Host.run 0 (heap Programs.defined)
           (trace Programs.defined) (clock Programs.defined) 8 data
           (moon_props (viewed app 3) 4) (Some object_prototype) view views
           (Some object_prototype) (Compiled 0 RData) next VUndef).
  - vm_compute. reflexivity.
  - vm_compute. reflexivity.
  - vm_compute. reflexivity.
  - vm_compute. reflexivity.
  - vm_compute. reflexivity.
  - discriminate.
Defined.

End InstancesDemo.
End Instances.

(** ** [Moon]: constructor, registry and root *)

Module Component.
Import JS Terms Lifecycle Listeners Instances.
Local Open Scope js_scope.

Section MoonPrototype.
Context (development : bool) (global_name : option string).
Context (compile : string → option nat) (querySelector : string → value).
Context (run : extern → value → list value → list cell → (value + value) * list cell).

(** [Moon] up to the point where it looks at the root: the data object has
    become the prototype, and what is left is to register the constructor
    or to mount an instance. *)
Lemma Moon_prototype fuel h tr ck d props :
  pristine h →
  h !! d = Some (ObjC props (Some object_prototype)) →
  (∀ s, props !! "view" = Some (VStr s) → is_Some (compile s)) →
  let n := length (view_cells compile props) + length h in
  Moon development global_name compile querySelector run fuel (VRef d) (State h tr ck)
  = (root <- match prop props "root" with
             | VStr selector => query_selector querySelector selector
             | _ => ret (prop props "root")
             end ;;
     if decide (root = VUndef) then
       match global_name with
       | None => throw ReferenceError
       | Some name => put (VRef components) name (VRef (4 + n)) ;; ret (VRef (4 + n))
       end
     else
       instance <- construct run fuel (VRef (4 + n)) [] ;;
       callback <- function (Mount root) ;;
       call_method (call run fuel) instance "create" [callback] ;;
       ret instance)
      (State (heap_with h d
                (ObjC (moon_props (viewed props (length h)) n) (Some object_prototype))
                (view_cells compile props ++ moon_cells props d n))
             (tr ++ moon_events development props) ck).
Proof.
  intros H0 Hd Hcompile n.
  pose proof (plain_not_prototype _ _ _ H0 Hd) as Hd0.
  assert (d < length h) as Hlt by (by eapply lookup_lt_Some).
  rewrite (heap_with_start h d _ Hd) at 1.
  unfold Moon.
  mstep. mstep. mstep.
  match goal with |- bind _ (λ _, bind _ ?k) _ = _ => set (tail := k) end.
  assert (∀ h2 base tr2,
    pristine h2 → h2 !! d = Some (ObjC base (Some object_prototype)) →
    tail tt (State h2 tr2 ck)
    = (root <- match prop base "root" with
               | VStr selector => query_selector querySelector selector
               | _ => ret (prop base "root")
               end ;;
       if decide (root = VUndef) then
         match global_name with
         | None => throw ReferenceError
         | Some name => put (VRef components) name (VRef (4 + length h2)) ;;
                        ret (VRef (4 + length h2))
         end
       else
         instance <- construct run fuel (VRef (4 + length h2)) [] ;;
         callback <- function (Mount root) ;;
         call_method (call run fuel) instance "create" [callback] ;;
         ret instance)
        (State (heap_with h2 d (ObjC (moon_props base (length h2)) (Some object_prototype))
                          (moon_cells base d (length h2)))
               tr2 ck)) as Htail.
  { clear dependent h. clear dependent props.
    clear tr Hd0. intros h props tr H0 Hd.
    pose proof (plain_not_prototype _ _ _ H0 Hd) as Hd0.
    assert (d < length h) as Hlt by (by eapply lookup_lt_Some).
    rewrite (heap_with_start h d _ Hd) at 1.
    subst tail. cbv beta.
    do 6 mstep. unfold array, object, function. do 4 mstep. simpl length. mstep.
    simpl app. unfold moon_cells, seed, prop.
    hook 0; hook 1; hook 2.
    all: do 2 mstep; simpl length; do 7 mstep.
    all: mstep; rewrite !lookup_insert_ne, !lookup_delete_ne by done.
    all: mstep.
    all: reflexivity. }
  clearbody tail.
  rewrite !lookup_insert_ne by done.
  assert (∀ base cells tr2 v,
    prop base "root" = prop props "root" →
    moon_cells base d (length cells + length h) = moon_cells props d (length cells + length h) →
    tail v (State (heap_with h d (ObjC base (Some object_prototype)) cells) tr2 ck)
    = (root <- match prop props "root" with
               | VStr selector => query_selector querySelector selector
               | _ => ret (prop props "root")
               end ;;
       if decide (root = VUndef) then
         match global_name with
         | None => throw ReferenceError
         | Some name => put (VRef components) name (VRef (4 + (length cells + length h))) ;;
                        ret (VRef (4 + (length cells + length h)))
         end
       else
         instance <- construct run fuel (VRef (4 + (length cells + length h))) [] ;;
         callback <- function (Mount root) ;;
         call_method (call run fuel) instance "create" [callback] ;;
         ret instance)
        (State (heap_with h d
                  (ObjC (moon_props base (length cells + length h)) (Some object_prototype))
                  (cells ++ moon_cells props d (length cells + length h)))
               tr2 ck)) as Hrest.
  { intros base cells tr2 [] Hbase Hcells.
    rewrite Htail with (base := base).
    - by rewrite heap_with_again, heap_with_length, Hcells, Hbase.
    - by apply heap_with_pristine.
    - by apply heap_with_lookup. }
  clear Htail.
  assert (prop (named props) "root" = prop props "root") as Hnamed
    by (unfold prop, named; by rewrite lookup_insert_ne).
  assert (∀ k, moon_cells (named props) d k = moon_cells props d k) as Hcells
    by (intros k; unfold moon_cells, prop, named; by rewrite !lookup_insert_ne).
  subst n. unfold view_cells, viewed, moon_events.
  assert (∀ tr2,
    log (EvError (default VUndef (named props !! "name")))
        (State (heap_with h d (ObjC (named props) (Some object_prototype)) []) tr2 ck)
    = (Ok tt, State (heap_with h d (ObjC (named props) (Some object_prototype)) [])
                    (tr2 ++ [EvError (default VUndef (named props !! "name"))]) ck)) as Hlog
    by done.
  change (<["name" := _]> props) with (named props).
  assert (prop props "view" = default VUndef (props !! "view")) as Hpv by done.
  rewrite Hpv.
  destruct (props !! "view") as [view|] eqn:Hview; cbn [from_option id].
  - destruct view as [| | | |s| | | | |];
      try (destruct development; cbn [andb];
           rewrite ?bool_decide_eq_false_2 by done; rewrite ?bind_ret;
           rewrite Hrest by (first [exact Hnamed | exact (Hcells _)]);
           simpl; by rewrite ?app_nil_r).
    + destruct development; cbn [andb].
      * change (bool_decide (VUndef = VUndef)) with true. cbn iota.
        rewrite bind_assoc. mstep. unfold util_error.
        erewrite bind_ok by apply Hlog. rewrite bind_ret.
        rewrite Hrest by (first [exact Hnamed | exact (Hcells _)]).
        simpl. by rewrite ?app_nil_r.
      * rewrite !bind_ret. rewrite Hrest by (first [exact Hnamed | exact (Hcells _)]).
        simpl. by rewrite ?app_nil_r.
    + destruct (Hcompile s eq_refl) as [t Ht]. rewrite Ht.
      assert ((if development && bool_decide (VStr s = VUndef)
               then name <- get (VRef d) "name";; util_error name else ret ())
              = ret tt) as -> by (by destruct development).
      assert ((if development && bool_decide (VStr s = VUndef)
               then [EvError (prop (named props) "name")] else [])
              = []) as -> by (by destruct development).
      rewrite bind_ret, bind_assoc.
      erewrite bind_ok by (by apply compile_view_ok).
      rewrite heap_with_length, heap_with_app.
      mstep. simpl app.
      rewrite Hrest.
      * done.
      * unfold prop. rewrite lookup_insert_ne by done. exact Hnamed.
      * rewrite <- Hcells. unfold moon_cells, prop. by rewrite !(lookup_insert_ne _ "view"%string).
  - destruct development; cbn [andb].
    + change (bool_decide (VUndef = VUndef)) with true. cbn iota.
      rewrite bind_assoc. mstep. unfold util_error.
      erewrite bind_ok by apply Hlog. rewrite bind_ret.
      rewrite Hrest by (first [exact Hnamed | exact (Hcells _)]).
      simpl. by rewrite ?app_nil_r.
    + rewrite !bind_ret. rewrite Hrest by (first [exact Hnamed | exact (Hcells _)]).
      simpl. by rewrite ?app_nil_r.
Qed.

End MoonPrototype.

Section MoonResults.
Context (development : bool).
Context (compile : string → option nat) (querySelector : string → value).
Context (run : extern → value → list value → list cell → (value + value) * list cell).

(** X18: the key under which [Moon] stores the constructor is the global
    variable [name] of the host, whatever the data says: the registry gets
    the constructor under that key and keeps every other entry, so
    [data.name] is registered only when it is that same string. *)
Theorem Moon_registers_under_host_name fuel h tr ck d props reg rproto g :
  pristine h →
  h !! d = Some (ObjC props (Some object_prototype)) →
  h !! components = Some (ObjC reg rproto) →
  d ≠ components →
  prop props "root" = VUndef →
  g ≠ "__proto__"%string →
  (∀ s, props !! "view" = Some (VStr s) → is_Some (compile s)) →
  ∃ mc h' tr' reg',
    Moon development (Some g) compile querySelector run fuel (VRef d) (State h tr ck)
    = (Ok (VRef mc), State h' tr' ck)
    ∧ h' !! mc = Some (FunC (MoonComponent (VRef d)))
    ∧ h' !! components = Some (ObjC reg' rproto)
    ∧ reg' !! g = Some (VRef mc)
    ∧ (∀ k, k ≠ g → reg' !! k = reg !! k).
Proof.
  intros H0 Hd Hc Hdc Hroot Hg Hcompile.
  assert (d < length h) as Hlt by (by eapply lookup_lt_Some).
  assert (components < length h) as Hclt by (by eapply lookup_lt_Some).
  rewrite (Moon_prototype development (Some g) compile querySelector run fuel h tr ck d props)
    by done. rewrite Hroot. cbv iota. rewrite bind_ret.
  destruct (decide (VUndef = VUndef)); [|done].
  erewrite bind_ok.
  2:{ eapply put_obj; [|done].
      rewrite heap_with_lookup_old; [exact Hc|done|done]. }
  eexists _, _, _, _. split; [reflexivity|].
  split; [exact (moon_heap_new _ _ _ _ _ _ 4 Hclt)|].
  split.
  { apply list_lookup_insert_eq. rewrite heap_with_length. lia. }
  split; [by rewrite lookup_insert_eq|].
  intros k Hk. by rewrite lookup_insert_ne.
Qed.

(** X19: in a host without a global variable [name], [Moon] without a root
    throws a ReferenceError, and it does so at the very end: the data
    object has already been turned into the prototype, with its hooks
    removed and the methods of the module written over its own. The
    registry is as it was. *)
Theorem Moon_without_global_name fuel h tr ck d props registry :
  pristine h →
  h !! d = Some (ObjC props (Some object_prototype)) →
  h !! components = Some registry →
  d ≠ components →
  prop props "root" = VUndef →
  (∀ s, props !! "view" = Some (VStr s) → is_Some (compile s)) →
  ∃ h' props',
    Moon development None compile querySelector run fuel (VRef d) (State h tr ck)
    = (Throw ReferenceError, State h' (tr ++ moon_events development props) ck)
    ∧ h' !! components = Some registry
    ∧ h' !! d = Some (ObjC props' (Some object_prototype))
    ∧ props' !! "onCreate" = None ∧ props' !! "onUpdate" = None
    ∧ props' !! "onDestroy" = None
    ∧ props' !! "create" = Some (VNative Create)
    ∧ props' !! "update" = Some (VNative Update)
    ∧ props' !! "destroy" = Some (VNative Destroy)
    ∧ props' !! "on" = Some (VNative On)
    ∧ props' !! "off" = Some (VNative Off)
    ∧ props' !! "emit" = Some (VNative Emit).
Proof.
  intros H0 Hd Hc Hdc Hroot Hcompile.
  assert (d < length h) as Hlt by (by eapply lookup_lt_Some).
  assert (components < length h) as Hclt by (by eapply lookup_lt_Some).
  rewrite (Moon_prototype development None compile querySelector run fuel h tr ck d props)
    by done. rewrite Hroot. cbv iota. rewrite bind_ret.
  destruct (decide (VUndef = VUndef)); [|done].
  eexists _, _. split; [reflexivity|].
  split; [by rewrite heap_with_lookup_old|].
  split; [by apply heap_with_lookup|].
  unfold moon_props. repeat split; by map_lookup.
Qed.

(** X20: [Moon] does not insist on a view. Without one it reports an error
    through [error] in development mode and nothing otherwise, and it
    returns a constructor all the same; it is [new] on that constructor
    that throws a TypeError, at [this.view.data]. *)
Theorem Moon_without_view fuel h tr ck d props reg rproto g :
  pristine h →
  h !! d = Some (ObjC props (Some object_prototype)) →
  h !! components = Some (ObjC reg rproto) →
  d ≠ components →
  prop props "root" = VUndef →
  prop props "view" = VUndef →
  g ≠ "__proto__"%string →
  ∃ mc st,
    Moon development (Some g) compile querySelector run fuel (VRef d) (State h tr ck)
    = (Ok (VRef mc), st)
    ∧ trace st
      = tr ++ (if development
               then [EvError (if decide (prop props "name" = VUndef)
                              then VStr "Root" else prop props "name")]
               else [])
    ∧ ∀ fuel' args,
        construct run fuel' (VRef mc) args st
        = (Throw TypeError, set_heap (heap st ++ [ObjC ∅ (Some d)]) st).
Proof.
  intros H0 Hd Hc Hdc Hroot Hview Hg.
  pose proof (plain_not_prototype _ _ _ H0 Hd) as Hd0.
  assert (d < length h) as Hlt by (by eapply lookup_lt_Some).
  assert (components < length h) as Hclt by (by eapply lookup_lt_Some).
  assert (∀ s, props !! "view" = Some (VStr s) → is_Some (compile s)) as Hcompile.
  { intros s Hs. unfold prop in Hview. by rewrite Hs in Hview. }
  assert (view_cells compile props = []) as Hvc.
  { unfold view_cells. unfold prop in Hview.
    destruct (props !! "view") as [[]|]; try done. }
  assert (viewed props (length h) = named props) as Hvd.
  { unfold viewed. unfold prop in Hview.
    destruct (props !! "view") as [[]|]; try done. }
  rewrite (Moon_prototype development (Some g) compile querySelector run fuel h tr ck d props)
    by done. rewrite Hroot. cbv iota. rewrite bind_ret.
  destruct (decide (VUndef = VUndef)); [|done].
  erewrite bind_ok.
  2:{ eapply put_obj; [|done].
      rewrite heap_with_lookup_old; [exact Hc|done|done]. }
  rewrite Hvc, Hvd. simpl app. simpl length.
  eexists _, _. split; [reflexivity|]. split.
  { simpl. f_equal. unfold moon_events. rewrite Hview.
    replace (match props !! "view" with Some (VStr s) => [EvCompile s] | _ => [] end)
      with (@nil event)
      by (unfold prop in Hview; destruct (props !! "view") as [[]|]; done).
    rewrite app_nil_r. destruct development; [|done]. simpl.
    unfold prop, named. by rewrite lookup_insert_eq. }
  intros fuel' args.
  set (P := moon_props (named props) (0 + length h)).
  set (hm := <[components := _]> _).
  assert (hm !! d = Some (ObjC P (Some object_prototype))) as Hmd.
  { unfold hm. rewrite list_lookup_insert_ne by done. by apply heap_with_lookup. }
  assert (pristine hm) as Hm0.
  { unfold pristine, hm. rewrite list_lookup_insert_ne by done.
    by apply heap_with_pristine. }
  assert (lookup_chain (length hm) hm d "view" = Ok VUndef) as Hmv.
  { assert (VUndef = default VUndef (P !! "view")) as ->.
    { unfold P, moon_props. map_lookup. unfold named. by map_lookup. }
    apply get_plain; [done|done|own]. }
  unfold construct.
  erewrite bind_ok.
  2:{ apply read_at. unfold hm. exact (moon_heap_new h d _ [] _ _ 4 Hclt). }
  cbv beta iota. unfold set_heap. simpl heap. simpl trace. simpl clock.
  erewrite bind_ok by apply alloc_at.
  assert (lookup_chain (length (hm ++ [ObjC ∅ (Some d)])) (hm ++ [ObjC ∅ (Some d)])
            (length hm) "view" = Ok VUndef) as Hiv.
  { rewrite length_app. simpl. rewrite Nat.add_1_r.
    erewrite lookup_chain_step; [|by apply list_lookup_middle|done|done].
    by eapply lookup_chain_grow. }
  erewrite bind_throw; [reflexivity|].
  unfold moon_component.
  erewrite bind_ok by (by apply get_ref).
  erewrite bind_ok by (by apply get_ref).
  done.
Qed.


(** X21: with a root, [Moon] compiles the view, looks the root up when it
    is a selector, makes one instance, calls the data routine of the view
    with the instance as [this], and hands the create walk to [execute]
    with a completion callback whose [next] mounts on the root. It returns
    the instance and registers nothing. *)
Theorem Moon_mounts_instance global_name fuel h tr ck d props s t registry :
  pristine h →
  h !! d = Some (ObjC props (Some object_prototype)) →
  h !! components = Some registry →
  d ≠ components →
  props !! "view" = Some (VStr s) →
  compile s = Some t →
  located querySelector (prop props "root") ≠ VUndef →
  let view := length h in
  let instance := 7 + length h in
  let mount := 9 + length h in
  returns run (Compiled t RData) (VRef instance) [] [components; d; view; instance; mount] →
  ∃ h' cb,
    Moon development global_name compile querySelector run (3 + fuel) (VRef d)
         (State h tr ck)
    = (Ok (VRef instance),
       State h' (tr ++ EvCompile s :: queries (prop props "root")
                    ++ [EvCall (Compiled t RData) (VRef instance) [];
                        EvExecute (VNum 0) (VNum ck) (VRef instance)
                                  (VExtern (Compiled t RCreate)) (VRef cb)])
             ck)
    ∧ h' !! instance = Some (ObjC ∅ (Some d))
    ∧ h' !! cb = Some (FunC (CreateDone (VRef instance) (VRef mount)))
    ∧ h' !! mount = Some (FunC (Mount (located querySelector (prop props "root"))))
    ∧ h' !! components = Some registry.
Proof.
  intros H0 Hd Hc Hdc Hview Ht Hroot view instance mount Hdata.
  pose proof (plain_not_prototype _ _ _ H0 Hd) as Hd0.
  assert (d < length h) as Hlt by (by eapply lookup_lt_Some).
  assert (components < length h) as Hclt by (by eapply lookup_lt_Some).
  assert (∀ s', props !! "view" = Some (VStr s') → is_Some (compile s')) as Hcompile.
  { intros s' Hs'. rewrite Hview in Hs'. injection Hs' as <-. by exists t. }
  rewrite (Moon_prototype development global_name compile querySelector run (3 + fuel)
             h tr ck d props) by done.
  assert (view_cells compile props = [view_cell t]) as Hvc
    by (unfold view_cells; by rewrite Hview, Ht).
  assert (moon_events development props = [EvCompile s]) as Hev.
  { unfold moon_events, prop. rewrite Hview. by destruct development. }
  rewrite Hvc, Hev. simpl length. simpl app.
  set (P := moon_props (viewed props (length h)) (1 + length h)).
  set (cells := view_cell t :: moon_cells props d (1 + length h)).
  set (hm := heap_with h d (ObjC P (Some object_prototype)) cells).
  assert (length hm = instance) as Hlen.
  { unfold hm. rewrite heap_with_length. unfold instance. simpl. lia. }
  (* the root *)
  set (root := located querySelector (prop props "root")).
  assert ((match prop props "root" with
           | VStr selector => query_selector querySelector selector
           | _ => ret (prop props "root")
           end) (State hm (tr ++ [EvCompile s]) ck)
          = (Ok root, State hm (tr ++ EvCompile s :: queries (prop props "root")) ck))
    as Hlocate.
  { unfold root, located, queries.
    destruct (prop props "root"); unfold ret, query_selector, bind, log; simpl;
      by rewrite <- ?app_assoc, ?app_nil_r. }
  erewrite bind_ok by exact Hlocate.
  destruct (decide (root = VUndef)); [done|].
  (* the instance *)
  assert (hm !! d = Some (ObjC P (Some object_prototype))) as Hmd
    by (by apply heap_with_lookup).
  assert (P !! "view" = Some (VRef view)) as HPview.
  { unfold P, moon_props, viewed. rewrite Hview. by map_lookup. }
  assert (P !! "create" = Some (VNative Create)) as HPcreate
    by (unfold P, moon_props; by map_lookup).
  assert (hm !! view = Some (view_cell t)) as Hmv
    by (exact (heap_with_lookup_new h d _ cells 0)).
  assert (view ≠ d) as Hvd by (unfold view; lia).
  set (vprops := <["data" := VRef (S instance)]>
                   (list_to_map
                      [("data"%string, VExtern (Compiled t RData));
                       ("create"%string, VExtern (Compiled t RCreate));
                       ("update"%string, VExtern (Compiled t RUpdate));
                       ("destroy"%string, VExtern (Compiled t RDestroy))])
                 : gmap string value).
  set (bound := FunC (Bound (VExtern (Compiled t RData)) (VRef instance))).
  erewrite bind_ok.
  2:{ rewrite <- Hlen.
      eapply (construct_steps run (3 + fuel) hm _ ck (5 + length h) d view _ _
                (VExtern (Compiled t RData)) [] ∅).
      - exact (heap_with_lookup_new h d _ cells 5).
      - by eapply get_own.
      - exact Hmv.
      - eapply get_own; [exact Hmv|by vm_compute|done].
      - exact I.
      - by left. }
  rewrite Hlen. fold vprops bound.
  match goal with
  | |- context [State (?x ++ [ObjC ∅ (Some d); bound])] =>
    set (h2 := x ++ [ObjC ∅ (Some d); bound])
  end.
  assert (length h2 = mount) as Hlen2.
  { unfold h2. rewrite length_app, length_insert, Hlen. unfold mount, instance. simpl. lia. }
  unfold function. erewrite bind_ok by apply alloc_at. rewrite Hlen2.
  set (h3 := h2 ++ [FunC (Mount root)]).
  assert (∀ (l : loc) c, hm !! l = Some c → l ≠ view → h3 !! l = Some c) as Hold.
  { intros l c Hl Hlv. unfold h3, h2. apply lookup_app_l_Some. apply lookup_app_l_Some.
    by rewrite list_lookup_insert_ne. }
  assert (h3 !! view = Some (ObjC vprops (Some object_prototype))) as H3v.
  { unfold h3, h2. apply lookup_app_l_Some. apply lookup_app_l_Some.
    apply list_lookup_insert_eq. rewrite Hlen. unfold view, instance. lia. }
  assert (h3 !! instance = Some (ObjC ∅ (Some d))) as H3i.
  { unfold h3, h2. apply lookup_app_l_Some.
    rewrite lookup_app_r by (rewrite length_insert, Hlen; lia).
    by rewrite length_insert, Hlen, Nat.sub_diag. }
  assert (h3 !! (S instance : loc) = Some bound) as H3b.
  { unfold h3, h2. apply lookup_app_l_Some.
    rewrite lookup_app_r by (rewrite length_insert, Hlen; lia).
    rewrite length_insert, Hlen. by replace (S instance - instance) with 1 by lia. }
  assert (h3 !! mount = Some (FunC (Mount root))) as H3m.
  { unfold h3. rewrite <- Hlen2. by apply list_lookup_middle. }
  assert (h3 !! d = Some (ObjC P (Some object_prototype))) as H3d by (by apply Hold).
  assert (h3 !! components = Some registry) as H3c.
  { apply Hold; [|unfold view; lia]. unfold hm. by rewrite heap_with_lookup_old. }
  assert (instance ≠ d) as Hid by (unfold instance; lia).
  destruct (Hdata h3) as (r & h4 & Hrun & Hkeep).
  assert (h4 !! d = Some (ObjC P (Some object_prototype))) as H4d
    by (rewrite Hkeep; [done|set_solver]).
  assert (h4 !! view = Some (ObjC vprops (Some object_prototype))) as H4v
    by (rewrite Hkeep; [done|set_solver]).
  assert (h4 !! instance = Some (ObjC ∅ (Some d))) as H4i
    by (rewrite Hkeep; [done|set_solver]).
  assert (h4 !! mount = Some (FunC (Mount root))) as H4m
    by (rewrite Hkeep; [done|set_solver]).
  assert (h4 !! components = Some registry) as H4c
    by (rewrite Hkeep; [done|set_solver]).
  erewrite bind_ok.
  2:{ unfold call_method. erewrite bind_ok by (by apply read_at). cbv beta iota.
      erewrite bind_ok.
      2:{ apply get_ref. by eapply lookup_chain_inherit. }
      change (3 + fuel) with (S (2 + fuel)).
      change (call run (S (2 + fuel)) (VNative Create) (VRef instance) [VRef mount])
        with (create (call run (2 + fuel)) (VRef mount) VUndef (VRef instance)).
      eapply (create_calls_execute run fuel h3 _ ck instance view vprops
                (Some object_prototype) (VRef (S instance)) (Compiled t RData)
                (VRef instance) r h4 view (VExtern (Compiled t RCreate))).
      - by eapply lookup_chain_inherit.
      - exact H3v.
      - eapply get_own; [exact H3v|by apply lookup_insert_eq|done].
      - unfold callee. by rewrite H3b.
      - exact Hrun.
      - by eapply lookup_chain_inherit.
      - eapply get_own; [exact H4v|by vm_compute|done]. }
  exists (h4 ++ [FunC (CreateDone (VRef instance) (VRef mount))]), (length h4).
  split.
  { unfold ret. f_equal. f_equal. by rewrite <- app_assoc. }
  split; [by apply lookup_app_l_Some|].
  split; [by apply list_lookup_middle|].
  split; by apply lookup_app_l_Some.
Qed.

(** The step in which [Moon] looks the root up. *)
Lemma locate_root props h tr ck :
  (match prop props "root" with
   | VStr selector => query_selector querySelector selector
   | _ => ret (prop props "root")
   end) (State h tr ck)
  = (Ok (located querySelector (prop props "root")),
     State h (tr ++ queries (prop props "root")) ck).
Proof.
  unfold located, queries.
  destruct (prop props "root"); unfold ret, query_selector, bind, log; simpl;
    by rewrite ?app_nil_r.
Qed.

(** C9, as amended: [Moon(data)] deletes the three hooks and [root] from
    [data], sets [name] and the seeded [events] map, replaces a string view
    by the compiled view object, overwrites [m] and the six method slots,
    leaves every other property as it was, and makes a constructor whose
    prototype is [data] itself. All this is done when [Moon] turns to the
    root, whatever [data.root] is. Without a root the constructor is then
    registered and returned; with a root an instance is made and returned,
    whose prototype is [data], the view's data routine being code from
    outside the module that returns. In both cases the cells named here
    are as they were when [Moon] turned to the root. *)
Theorem Moon_mutates_data fuel h tr ck d props reg rproto g :
  pristine h →
  h !! d = Some (ObjC props (Some object_prototype)) →
  h !! components = Some (ObjC reg rproto) →
  d ≠ components →
  g ≠ "__proto__"%string →
  (∀ s, props !! "view" = Some (VStr s) → is_Some (compile s)) →
  let root := located querySelector (prop props "root") in
  ∃ mc h' tr' props' ev c u y m,
    Moon development (Some g) compile querySelector run fuel (VRef d) (State h tr ck)
    = (if decide (root = VUndef) then
         put (VRef components) g (VRef mc) ;; ret (VRef mc)
       else
         instance <- construct run fuel (VRef mc) [] ;;
         callback <- function (Mount root) ;;
         call_method (call run fuel) instance "create" [callback] ;;
         ret instance) (State h' tr' ck)
    ∧ h' !! d = Some (ObjC props' (Some object_prototype))
    ∧ h' !! mc = Some (FunC (MoonComponent (VRef d)))
    ∧ props' !! "onCreate" = None ∧ props' !! "onUpdate" = None
    ∧ props' !! "onDestroy" = None ∧ props' !! "root" = None
    ∧ props' !! "name"
      = Some (if decide (prop props "name" = VUndef) then VStr "Root" else prop props "name")
    ∧ props' !! "events" = Some (VRef ev)
    ∧ h' !! ev = Some (ObjC (list_to_map [("create"%string, VRef c);
                                          ("update"%string, VRef u);
                                          ("destroy"%string, VRef y)])
                            (Some object_prototype))
    ∧ h' !! c = Some (ArrC (seed (prop props "onCreate")))
    ∧ h' !! u = Some (ArrC (seed (prop props "onUpdate")))
    ∧ h' !! y = Some (ArrC (seed (prop props "onDestroy")))
    ∧ match props !! "view" with
      | Some (VStr s) =>
        ∃ v t, compile s = Some t ∧ props' !! "view" = Some (VRef v)
               ∧ h !! v = None ∧ h' !! v = Some (view_cell t)
      | other => props' !! "view" = other
      end
    ∧ props' !! "m" = Some (VRef m) ∧ h' !! m = Some (ArrC [])
    ∧ props' !! "create" = Some (VNative Create)
    ∧ props' !! "update" = Some (VNative Update)
    ∧ props' !! "destroy" = Some (VNative Destroy)
    ∧ props' !! "on" = Some (VNative On)
    ∧ props' !! "off" = Some (VNative Off)
    ∧ props' !! "emit" = Some (VNative Emit)
    ∧ (∀ k, k ∉ moon_keys → props' !! k = props !! k)
    ∧ (root = VUndef →
       ∃ h'',
         Moon development (Some g) compile querySelector run fuel (VRef d) (State h tr ck)
         = (Ok (VRef mc), State h'' tr' ck)
         ∧ keeps [d; mc; ev; c; u; y; m] h' h''
         ∧ ∀ l : loc, l ≠ components → h'' !! l = h' !! l)
    ∧ (root ≠ VUndef → 3 ≤ fuel → props !! "view" ≠ Some (VRef d) →
       ∀ v vprops e,
         props' !! "view" = Some (VRef v) →
         h' !! v = Some (ObjC vprops (Some object_prototype)) →
         vprops !! "data" = Some (VExtern e) →
         returns run e (VRef (length h')) []
                 [object_prototype; d; v; length h'; mc; ev; c; u; y; m] →
         ∃ h'' tr'',
           Moon development (Some g) compile querySelector run fuel (VRef d) (State h tr ck)
           = (Ok (VRef (length h')), State h'' tr'' ck)
           ∧ h'' !! length h' = Some (ObjC ∅ (Some d))
           ∧ keeps [d; mc; ev; c; u; y; m] h' h'').
Proof.
  intros H0 Hd Hc Hdc Hg Hcompile root.
  pose proof (plain_not_prototype _ _ _ H0 Hd) as Hd0.
  assert (d < length h) as Hlt by (by eapply lookup_lt_Some).
  assert (components < length h) as Hclt by (by eapply lookup_lt_Some).
  rewrite (Moon_prototype development (Some g) compile querySelector run fuel h tr ck d props)
    by done.
  cbv iota.
  set (n := length (view_cells compile props) + length h).
  set (P := moon_props (viewed props (length h)) n).
  set (cells := view_cells compile props ++ moon_cells props d n).
  set (hm := heap_with h d (ObjC P (Some object_prototype)) cells).
  erewrite bind_ok by apply locate_root. fold root.
  set (trm := (tr ++ moon_events development props) ++ queries (prop props "root")).
  assert (∀ i, hm !! (i + n) = moon_cells props d n !! i) as Hnew.
  { intros i. unfold hm, cells, n.
    replace (i + (length (view_cells compile props) + length h))
      with ((i + length (view_cells compile props)) + length h) by lia.
    rewrite heap_with_lookup_new. rewrite lookup_app_r by lia. f_equal. lia. }
  assert (length hm = 6 + n) as Hlen.
  { unfold hm, cells, n. rewrite heap_with_length, length_app. simpl. lia. }
  assert (hm !! d = Some (ObjC P (Some object_prototype))) as Hmd
    by (by apply heap_with_lookup).
  exists (4 + n), hm, trm, P, (3 + n), n, (1 + n), (2 + n), (5 + n).
  split; [reflexivity|].
  split; [exact Hmd|].
  split; [exact (Hnew 4)|].
  unfold P at 1 2 3 4 5 6, moon_props.
  repeat (split; [by map_lookup|]).
  split.
  { unfold viewed, named. map_lookup.
    destruct (props !! "view") as [[]|]; by map_lookup. }
  split; [by map_lookup|].
  split; [exact (Hnew 3)|].
  split; [exact (Hnew 0)|].
  split; [exact (Hnew 1)|].
  split; [exact (Hnew 2)|].
  split.
  { unfold P, moon_props. map_lookup. unfold hm, cells, viewed, view_cells, named.
    destruct (props !! "view") as [[| | | |s| | | | |]|] eqn:Hview;
      try (by map_lookup).
    destruct (Hcompile s eq_refl) as [t Ht]. rewrite Ht.
    exists (length h), t. split; [done|]. split; [by map_lookup|].
    split; [by apply lookup_ge_None|].
    exact (heap_with_lookup_new h d _ _ 0). }
  unfold P at 1 2 3 4 5 6 7 8, moon_props.
  split; [by map_lookup|].
  split; [exact (Hnew 5)|].
  repeat (split; [by map_lookup|]).
  split.
  { intros k Hk. unfold moon_keys in Hk.
    repeat (apply not_elem_of_cons in Hk as [? Hk]).
    unfold P, moon_props. map_lookup. unfold viewed, named.
    destruct (props !! "view") as [[]|]; by map_lookup. }
  split.
  - intros Hroot. destruct (decide (root = VUndef)); [|done].
    eexists. split.
    { erewrite bind_ok; [reflexivity|].
      eapply put_obj; [|done].
      unfold hm. rewrite heap_with_lookup_old; [exact Hc|done|done]. }
    split.
    + intros l Hl. rewrite list_lookup_insert_ne; [done|].
      unfold n in Hl. unfold components in *.
      repeat (apply elem_of_cons in Hl as [->|Hl]); try lia.
      by apply elem_of_nil in Hl.
    + intros l Hl. by rewrite list_lookup_insert_ne.
  - intros Hroot Hfuel Hself v vprops e HPv Hmv Hdata Hret.
    destruct (decide (root = VUndef)); [done|].
    destruct fuel as [|[|[|fuel]]]; try lia.
    change (S (S (S fuel))) with (3 + fuel).
    set (i := length hm) in *.
    assert (v ≠ d) as Hvd.
    { intros ->. apply Hself. revert HPv. unfold P, moon_props. map_lookup.
      unfold viewed, named.
      destruct (props !! "view") as [[| | | |s| | | | |]|] eqn:Hview;
        map_lookup; intros Hx; try (rewrite Hview in Hx; done).
      injection Hx as Hx. rewrite Hx in Hlt. by apply Nat.lt_irrefl in Hlt. }
    assert (v < length hm) as Hvlt by (by eapply lookup_lt_Some).
    assert (∀ k, k < 6 → v ≠ k + n) as Hvnew.
    { intros k Hk6 ->. rewrite Hnew in Hmv.
      destruct k as [|[|[|[|[|[|]]]]]]; simpl in Hmv; try done.
      injection Hmv as <-. done. }
    set (vprops' := <["data" := VRef (S i)]> vprops).
    set (bound := FunC (Bound (VExtern e) (VRef i))).
    set (h2 := <[v := ObjC vprops' (Some object_prototype)]> hm ++ [ObjC ∅ (Some d); bound]).
    erewrite bind_ok.
    2:{ eapply (construct_steps run (3 + fuel) hm trm ck (4 + n) d v vprops
                  (Some object_prototype) (VExtern e) [] ∅).
        - exact (Hnew 4).
        - by eapply get_own.
        - exact Hmv.
        - by eapply get_own.
        - exact I.
        - by left. }
    fold i vprops' bound h2.
    assert (length h2 = 2 + i) as Hlen2.
    { unfold h2. rewrite length_app, length_insert. simpl. unfold i. lia. }
    unfold function. erewrite bind_ok by apply alloc_at. rewrite Hlen2.
    set (h3 := h2 ++ [FunC (Mount root)]).
    assert (∀ (l : loc) x, hm !! l = Some x → l ≠ v → h3 !! l = Some x) as Hold.
    { intros l x Hl Hlv. unfold h3, h2. apply lookup_app_l_Some. apply lookup_app_l_Some.
      by rewrite list_lookup_insert_ne. }
    assert (h3 !! v = Some (ObjC vprops' (Some object_prototype))) as H3v.
    { unfold h3, h2. apply lookup_app_l_Some. apply lookup_app_l_Some.
      by apply list_lookup_insert_eq. }
    assert (h3 !! i = Some (ObjC ∅ (Some d))) as H3i.
    { unfold h3, h2. apply lookup_app_l_Some.
      rewrite lookup_app_r by (rewrite length_insert; unfold i; lia).
      rewrite length_insert. fold i. by rewrite Nat.sub_diag. }
    assert (h3 !! (S i : loc) = Some bound) as H3b.
    { unfold h3, h2. apply lookup_app_l_Some.
      rewrite lookup_app_r by (rewrite length_insert; unfold i; lia).
      rewrite length_insert. fold i. by replace (S i - i) with 1 by lia. }
    assert (h3 !! d = Some (ObjC P (Some object_prototype))) as H3d by (by apply Hold).
    assert (i ≠ d) as Hid by (unfold i; lia).
    assert (pristine hm) as Hm0 by (by apply heap_with_pristine).
    assert (v ≠ object_prototype) as Hv0 by (by eapply plain_not_prototype).
    assert (P !! "view" = Some (VRef v)) as HPview by exact HPv.
    assert (P !! "create" = Some (VNative Create)) as HPcreate
      by (unfold P, moon_props; by map_lookup).
    destruct (Hret h3) as (r & h4 & Hrun & Hkeep).
    assert (∀ l : loc, l ∈ [object_prototype; d; v; i; 4 + n; 3 + n; n; 1 + n; 2 + n; 5 + n] →
            h4 !! l = h3 !! l) as Hk by exact Hkeep.
    assert (h4 !! d = Some (ObjC P (Some object_prototype))) as H4d
      by (rewrite Hk; [done|by right; left]).
    assert (h4 !! v = Some (ObjC vprops' (Some object_prototype))) as H4v
      by (rewrite Hk; [done|by do 2 right; left]).
    assert (h4 !! i = Some (ObjC ∅ (Some d))) as H4i
      by (rewrite Hk; [done|by do 3 right; left]).
    assert (pristine h4) as H40.
    { unfold pristine. rewrite Hk by (by left). apply Hold; [exact Hm0|done]. }
    assert (∀ k, k < 6 → h4 !! (k + n) = hm !! (k + n)) as Hcells.
    { intros k Hk6. rewrite Hk.
      - assert (is_Some (hm !! (k + n))) as [x Hx].
        { rewrite Hnew. apply lookup_lt_is_Some. simpl. lia. }
        rewrite Hx. apply Hold; [done|]. apply not_eq_sym. by apply Hvnew.
      - destruct k as [|[|[|[|[|[|]]]]]]; [..|lia]; repeat first [by left | right]. }
    erewrite bind_ok.
    2:{ unfold call_method. erewrite bind_ok by (by apply read_at). cbv beta iota.
        erewrite bind_ok.
        2:{ apply get_ref. by eapply lookup_chain_inherit. }
        change (3 + fuel) with (S (2 + fuel)).
        change (call run (S (2 + fuel)) (VNative Create) (VRef i) [VRef (2 + i)])
          with (create (call run (2 + fuel)) (VRef (2 + i)) VUndef (VRef i)).
        eapply (create_calls_execute run fuel h3 _ ck i v vprops'
                  (Some object_prototype) (VRef (S i)) e (VRef i) r h4 v
                  (default VUndef (vprops' !! "create"))).
        - by eapply lookup_chain_inherit.
        - exact H3v.
        - eapply get_own; [exact H3v|by apply lookup_insert_eq|done].
        - unfold callee. by rewrite H3b.
        - exact Hrun.
        - by eapply lookup_chain_inherit.
        - apply get_plain; [done|done|]. split; [done|by vm_compute]. }
    eexists _, _. split; [reflexivity|].
    split; [by apply lookup_app_l_Some|].
    intros l Hl.
    assert (h4 !! l = hm !! l ∧ is_Some (hm !! l)) as [E [x Hx]].
    { repeat (apply elem_of_cons in Hl as [->|Hl]).
      - by rewrite H4d, Hmd.
      - split; [exact (Hcells 4 ltac:(lia))|eexists; exact (Hnew 4)].
      - split; [exact (Hcells 3 ltac:(lia))|eexists; exact (Hnew 3)].
      - split; [exact (Hcells 0 ltac:(lia))|eexists; exact (Hnew 0)].
      - split; [exact (Hcells 1 ltac:(lia))|eexists; exact (Hnew 1)].
      - split; [exact (Hcells 2 ltac:(lia))|eexists; exact (Hnew 2)].
      - split; [exact (Hcells 5 ltac:(lia))|eexists; exact (Hnew 5)].
      - by apply elem_of_nil in Hl. }
    rewrite <- E. rewrite Hx in E. rewrite E. by apply lookup_app_l_Some.
Qed.

End MoonResults.

Section ComponentDemo.
Import Demo.

Lemma Moon_registers_under_host_name_witness :
  ∃ mc h' tr' reg',
    Host.Moon 0 (VRef 2) (State foo_heap [] 0) = (Ok (VRef mc), State h' tr' 0)
    ∧ h' !! mc = Some (FunC (MoonComponent (VRef 2)))
    ∧ h' !! components = Some (ObjC reg' (Some object_prototype))
    ∧ reg' !! "" = Some (VRef mc)
    ∧ reg' !! "Foo" = None.
Proof.
  destruct (Moon_registers_under_host_name false Host.compile Host.querySelector Host.run
              0 foo_heap [] 0 2 foo ∅ (Some object_prototype) "")
    as (mc & h' & tr' & reg' & HMoon & Hmc & Hreg & Hg & Hother).
  - reflexivity.
  - reflexivity.
  - reflexivity.
  - discriminate.
  - reflexivity.
  - discriminate.
  - intros s _. by exists 0.
  - exists mc, h', tr', reg'. split; [exact HMoon|]. split; [exact Hmc|].
    split; [exact Hreg|]. split; [exact Hg|]. by rewrite Hother.
Defined.

Lemma Moon_without_global_name_witness :
  ∃ h' props',
    Moon false None Host.compile Host.querySelector Host.run 0 (VRef 2)
         (State foo_heap [] 0)
    = (Throw ReferenceError, State h' [EvCompile "<p/>"] 0)
    ∧ h' !! 2 = Some (ObjC props' (Some object_prototype))
    ∧ props' !! "emit" = Some (VNative Emit).
Proof.
  destruct (Moon_without_global_name false Host.compile Host.querySelector Host.run
              0 foo_heap [] 0 2 foo (ObjC ∅ (Some object_prototype)))
    as (h' & props' & HMoon & _ & Hd & _ & _ & _ & _ & _ & _ & _ & _ & Hemit).
  - reflexivity.
  - reflexivity.
  - reflexivity.
  - discriminate.
  - reflexivity.
  - intros s _. by exists 0.
  - exists h', props'. split; [exact HMoon|]. split; [exact Hd|exact Hemit].
Defined.

Lemma Moon_without_view_witness :
  ∃ mc st,
    Moon true (Some ""%string) Host.compile Host.querySelector Host.run 0 (VRef 2)
         (State Programs.bare_heap [] 0)
    = (Ok (VRef mc), st)
    ∧ trace st = [EvError (VStr "Bare")]
    ∧ (Host.construct 0 (VRef mc) [] st).1 = Throw TypeError.
Proof.
  destruct (Moon_without_view true Host.compile Host.querySelector Host.run
              0 Programs.bare_heap [] 0 2 Programs.bare ∅ (Some object_prototype) "")
    as (mc & st & HMoon & Htrace & Hnew).
  - reflexivity.
  - reflexivity.
  - reflexivity.
  - discriminate.
  - reflexivity.
  - reflexivity.
  - discriminate.
  - exists mc, st. split; [exact HMoon|]. split; [exact Htrace|].
    exact (f_equal fst (Hnew 0 [])).
Defined.

Lemma Moon_mounts_instance_witness :
  ∃ h' cb,
    Host.Moon 3 (VRef 2) (State Programs.rooted_heap [] 0)
    = (Ok (VRef 10),
       State h' [EvCompile "<p/>"; EvQuerySelector "#app";
                 EvCall (Compiled 0 RData) (VRef 10) [];
                 EvExecute (VNum 0) (VNum 0) (VRef 10) (VExtern (Compiled 0 RCreate))
                           (VRef cb)] 0)
    ∧ h' !! 10 = Some (ObjC ∅ (Some 2))
    ∧ h' !! cb = Some (FunC (CreateDone (VRef 10) (VRef 12)))
    ∧ h' !! 12 = Some (FunC (Mount (VNode 0)))
    ∧ h' !! components = Some (ObjC ∅ (Some object_prototype)).
Proof.
  apply (Moon_mounts_instance false Host.compile Host.querySelector Host.run (Some ""%string)
           0 Programs.rooted_heap [] 0 2 Programs.rooted "<p/>" 0 (ObjC ∅ (Some object_prototype))).
  - reflexivity.
  - reflexivity.
  - reflexivity.
  - discriminate.
  - reflexivity.
  - reflexivity.
  - discriminate.
  - intros h0. by exists VUndef, h0.
Defined.

Lemma Moon_mutates_data_witness :
  (∃ i mc h'' tr'' props',
     Host.Moon 3 (VRef 2) (State Programs.rooted_heap [] 0) = (Ok (VRef i), State h'' tr'' 0)
     ∧ h'' !! i = Some (ObjC ∅ (Some 2))
     ∧ h'' !! mc = Some (FunC (MoonComponent (VRef 2)))
     ∧ h'' !! 2 = Some (ObjC props' (Some object_prototype))
     ∧ Programs.rooted !! "root" = Some (VStr "#app")
     ∧ props' !! "root" = None
     ∧ props' !! "onCreate" = None
     ∧ props' !! "emit" = Some (VNative Emit))
  ∧ (∃ mc h'' tr'' props',
       Host.Moon 0 (VRef 2) (State Programs.optional_heap [] 0)
       = (Ok (VRef mc), State h'' tr'' 0)
       ∧ h'' !! mc = Some (FunC (MoonComponent (VRef 2)))
       ∧ h'' !! 2 = Some (ObjC props' (Some object_prototype))
       ∧ Programs.optional !! "root" = Some VUndef
       ∧ props' !! "root" = None).
Proof.
  split.
  - destruct (Moon_mutates_data false Host.compile Host.querySelector Host.run 3
                Programs.rooted_heap [] 0 2 Programs.rooted ∅ (Some object_prototype) "")
      as (mc & h' & tr' & props' & ev & c & u & y & m & _ & Hd & Hmc
          & HonCreate & HonUpdate & HonDestroy & Hroot & Hname & Hevents & Hev & Hc & Hu & Hy
          & Hview & Hm & Hempty & Hcreate & Hupdate & Hdestroy & Hon & Hoff & Hemit
          & Hframe & _ & Hmount).
    + reflexivity.
    + reflexivity.
    + reflexivity.
    + discriminate.
    + discriminate.
    + intros s _. by exists 0.
    + assert (Programs.rooted !! "view" = Some (VStr "<p/>")) as E by reflexivity.
      rewrite E in Hview. destruct Hview as (v & t & Ht & Hpv & _ & Hhv).
      injection Ht as <-.
      destruct (Hmount ltac:(discriminate) ltac:(lia) ltac:(discriminate) v
                  (list_to_map [("data"%string, VExtern (Compiled 0 RData));
                                ("create"%string, VExtern (Compiled 0 RCreate));
                                ("update"%string, VExtern (Compiled 0 RUpdate));
                                ("destroy"%string, VExtern (Compiled 0 RDestroy))])
                  (Compiled 0 RData) Hpv Hhv eq_refl)
        as (h'' & tr'' & HMoon & Hi & Hkeep).
      { intros h0. by exists VUndef, h0. }
      exists (length h'), mc, h'', tr'', props'.
      split; [exact HMoon|]. split; [exact Hi|].
      split; [etransitivity; [apply (Hkeep mc); by right; left|exact Hmc]|].
      split; [etransitivity; [apply (Hkeep 2); by left|exact Hd]|].
      split; [reflexivity|]. split; [exact Hroot|]. split; [exact HonCreate|exact Hemit].
  - destruct (Moon_mutates_data false Host.compile Host.querySelector Host.run 0
                Programs.optional_heap [] 0 2 Programs.optional ∅ (Some object_prototype) "")
      as (mc & h' & tr' & props' & ev & c & u & y & m & _ & Hd & Hmc
          & HonCreate & HonUpdate & HonDestroy & Hroot & Hname & Hevents & Hev & Hc & Hu & Hy
          & Hview & Hm & Hempty & Hcreate & Hupdate & Hdestroy & Hon & Hoff & Hemit
          & Hframe & Hreturn & _).
    + reflexivity.
    + reflexivity.
    + reflexivity.
    + discriminate.
    + discriminate.
    + intros s _. by exists 0.
    + destruct (Hreturn eq_refl) as (h'' & HMoon & Hkeep & _).
      exists mc, h'', tr', props'.
      split; [exact HMoon|].
      split; [etransitivity; [apply (Hkeep mc); by right; left|exact Hmc]|].
      split; [etransitivity; [apply (Hkeep 2); by left|exact Hd]|].
      split; [reflexivity|exact Hroot].
Defined.

End ComponentDemo.
End Component.

(** ** Mounting, and hooks at work *)

Module Mounting.
Import JS Terms Walks Lifecycle Listeners Completions Instances Component.
Local Open Scope js_scope.

Section Mount.
Context (run : extern → value → list value → list cell → (value + value) * list cell).

Lemma call_mount fuel l root this args h tr ck :
  h !! l = Some (FunC (Mount root)) →
  call run (S fuel) (VRef l) this args (State h tr ck)
  = mount (call run fuel) root (arg 0 args) (State h tr ck).
Proof. intros Hl. simpl. by erewrite bind_ok by (by apply read_at). Qed.

(** X22: the completion callback that [Moon] passes for a root runs the
    create handlers first, each with the element, and then appends the
    element to the root. When the root is [null] (a selector that matched
    nothing), the TypeError comes only here, after the handlers have
    run. *)
Theorem mount_follows_create_handlers fuel h tr ck cb l tprops tproto mt root this args
    e a hs targets :
  h !! cb = Some (FunC (CreateDone (VRef l) (VRef mt))) →
  h !! mt = Some (FunC (Mount root)) →
  h !! l = Some (ObjC tprops tproto) →
  lookup_chain (length h) h l "emit" = Ok (VNative Emit) →
  lookup_chain (length h) h l "events" = Ok (VRef e) →
  lookup_chain (length h) h e "create" = Ok (VRef a) →
  h !! a = Some (ArrC hs) →
  Forall2 (λ f t, callee h f (VRef a) = Some t) hs targets →
  well_behaved run (arg 0 args) (mt :: a :: refs hs) targets →
  let result := call run (4 + (length hs + fuel)) (VRef cb) this args (State h tr ck) in
  (∀ n, root = VNode n →
        result.1 = Ok VUndef
        ∧ trace result.2
          = tr ++ calls (arg 0 args) targets ++ [EvAppendChild n (arg 0 args)])
  ∧ (root = VNull →
     result.1 = Throw TypeError ∧ trace result.2 = tr ++ calls (arg 0 args) targets).
Proof.
  intros Hcb Hmt Hl Hemit He Ha Hhs Hall Hwb result. subst result.
  change (4 + (length hs + fuel)) with (S (S (2 + (length hs + fuel)))).
  rewrite (call_completion run _ Created _ _ _ _ _ _ _ _ Hcb).
  destruct (emit_all run (length hs + fuel) (2 + (length hs + fuel))
              h tr ck l e "create" a hs targets (arg 0 args) (mt :: a :: refs hs))
    as (h' & Hrun & Hkeep);
    [exact He|exact Ha|exact Hhs|set_solver|set_solver|exact Hall|exact Hwb|lia|].
  assert (h' !! mt = Some (FunC (Mount root))) as Hmt' by (rewrite Hkeep; [done|by left]).
  unfold create_done.
  erewrite bind_ok by (erewrite call_method_emit by done; exact Hrun).
  destruct (decide (VRef mt = VUndef)); [done|].
  split.
  - intros node ->.
    erewrite bind_ok.
    2:{ rewrite (call_mount _ _ _ _ _ _ _ _ Hmt'). unfold mount.
        change (arg 0 [arg 0 args]) with (arg 0 args).
        unfold call_method, bind, log, ret. simpl. reflexivity. }
    unfold ret. simpl. by rewrite <- app_assoc.
  - intros ->.
    erewrite bind_throw.
    2:{ rewrite (call_mount _ _ _ _ _ _ _ _ Hmt'). unfold mount.
        change (arg 0 [arg 0 args]) with (arg 0 args).
        unfold call_method, bind, throw. reflexivity. }
    done.
Qed.

End Mount.

Lemma bind_same {A B} (m m' : M A) (k : A → M B) st st' :
  m st = m' st' → bind m k st = bind m' k st'.
Proof. unfold bind. by intros ->. Qed.

Section Hooks.
Context (development : bool) (compile : string → option nat).
Context (querySelector : string → value).
Context (run : extern → value → list value → list cell → (value + value) * list cell).

(** X23: [Moon] stores a hook as it is, not bound to anything, and [emit]
    calls [handlers[i](data)]. So a hook given as [onCreate], [onUpdate] or
    [onDestroy] is called with [this] being the handler list it is in, not
    the instance that emits. *)
Theorem hook_receives_its_list fuel w h tr ck d props reg rproto g s t hk data :
  pristine h →
  h !! d = Some (ObjC props (Some object_prototype)) →
  h !! components = Some (ObjC reg rproto) →
  d ≠ components →
  prop props "root" = VUndef →
  g ≠ "__proto__"%string →
  props !! "view" = Some (VStr s) →
  compile s = Some t →
  props !! hook_name w = Some (VExtern hk) →
  let handlers := slot w + (1 + length h) in
  returns run hk (VRef handlers) [data] [handlers] →
  ∃ h',
    (App <- Moon development (Some g) compile querySelector run fuel (VRef d) ;;
     instance <- construct run fuel App [] ;;
     call_method (call run (3 + fuel)) instance "emit" [VStr (walk_event w); data])
      (State h tr ck)
    = (Ok VUndef, State h' (tr ++ [EvCompile s; EvCall hk (VRef handlers) [data]]) ck)
    ∧ h' !! handlers = Some (ArrC [VExtern hk]).
Proof.
  intros H0 Hd Hc Hdc Hroot Hg Hview Ht Hhook handlers Hreturns.
  pose proof (plain_not_prototype _ _ _ H0 Hd) as Hd0.
  assert (d < length h) as Hlt by (by eapply lookup_lt_Some).
  assert (components < length h) as Hclt by (by eapply lookup_lt_Some).
  assert (∀ s', props !! "view" = Some (VStr s') → is_Some (compile s')) as Hcompile.
  { intros s' Hs'. rewrite Hview in Hs'. injection Hs' as <-. by exists t. }
  erewrite bind_same
    by (by apply (Moon_prototype development (Some g) compile querySelector run fuel
                    h tr ck d props)).
  rewrite Hroot. cbv iota. rewrite bind_assoc, bind_ret.
  destruct (decide (VUndef = VUndef)); [|done].
  assert (view_cells compile props = [view_cell t]) as Hvc
    by (unfold view_cells; by rewrite Hview, Ht).
  assert (moon_events development props = [EvCompile s]) as Hev.
  { unfold moon_events, prop. rewrite Hview. by destruct development. }
  rewrite Hvc, Hev. simpl length. simpl app.
  set (P := moon_props (viewed props (length h)) (1 + length h)).
  set (cells := view_cell t :: moon_cells props d (1 + length h)).
  set (hm := heap_with h d (ObjC P (Some object_prototype)) cells).
  rewrite !bind_assoc.
  erewrite bind_ok.
  2:{ eapply put_obj; [|done]. unfold hm.
      rewrite heap_with_lookup_old; [exact Hc|done|done]. }
  rewrite bind_ret.
  set (R := ObjC (<[g := VRef (5 + length h)]> reg) rproto).
  set (hf := <[components := R]> hm).
  assert (length hf = 7 + length h) as Hlen.
  { unfold hf, hm. rewrite length_insert, heap_with_length. simpl. lia. }
  assert (∀ i c, cells !! i = Some c → hf !! (i + length h) = Some c) as Hnew.
  { intros i c Hi. unfold hf. rewrite list_lookup_insert_ne by lia.
    unfold hm. by rewrite heap_with_lookup_new. }
  assert (hf !! d = Some (ObjC P (Some object_prototype))) as Hfd.
  { unfold hf. rewrite list_lookup_insert_ne by done. by apply heap_with_lookup. }
  assert (P !! "view" = Some (VRef (length h))) as HPview.
  { unfold P, moon_props, viewed. rewrite Hview. by map_lookup. }
  assert (P !! "emit" = Some (VNative Emit)) as HPemit
    by (unfold P, moon_props; by map_lookup).
  assert (P !! "events" = Some (VRef (4 + length h))) as HPevents
    by (unfold P, moon_props; by map_lookup).
  set (instance := 7 + length h).
  erewrite bind_ok.
  2:{ eapply (construct_steps run fuel hf _ ck (5 + length h) d (length h) _ _
                (VExtern (Compiled t RData)) [] ∅).
      - exact (Hnew 5 _ eq_refl).
      - by eapply get_own.
      - exact (Hnew 0 _ eq_refl).
      - eapply get_own; [exact (Hnew 0 _ eq_refl)|by vm_compute|done].
      - exact I.
      - by left. }
  rewrite Hlen. fold instance.
  match goal with
  | |- context [State (<[length h := ?v]> hf ++ ?new)] =>
    set (h2 := <[length h := v]> hf ++ new)
  end.
  assert (∀ (l : loc) c, hf !! l = Some c → l ≠ length h → h2 !! l = Some c) as Hold.
  { intros l c Hl Hlv. unfold h2. apply lookup_app_l_Some.
    by rewrite list_lookup_insert_ne. }
  assert (h2 !! instance = Some (ObjC ∅ (Some d))) as H2i.
  { unfold h2. rewrite lookup_app_r by (rewrite length_insert, Hlen; unfold instance; lia).
    by rewrite length_insert, Hlen, Nat.sub_diag. }
  assert (h2 !! d = Some (ObjC P (Some object_prototype))) as H2d
    by (apply Hold; [done|lia]).
  assert (instance ≠ d) as Hid by (unfold instance; lia).
  assert (cells !! (1 + slot w) = Some (ArrC [VExtern hk])) as Hlist.
  { unfold cells, moon_cells, seed, prop.
    destruct w; simpl in Hhook |- *; by rewrite Hhook. }
  assert (h2 !! handlers = Some (ArrC [VExtern hk])) as H2a.
  { apply Hold; [|unfold handlers; lia].
    replace handlers with ((1 + slot w) + length h) by (unfold handlers; lia).
    by apply Hnew. }
  destruct (emit_calls_handlers run fuel (2 + fuel) h2 (tr ++ [EvCompile s]) ck
              instance (4 + length h) (walk_event w) handlers [VExtern hk]
              [(hk, VRef handlers)] data) as (h' & Hemit & Hkeep).
  - by eapply lookup_chain_inherit.
  - eapply get_own; [apply Hold; [exact (Hnew 4 _ eq_refl)|lia]| |by destruct w].
    unfold handlers. by destruct w.
  - exact H2a.
  - by repeat constructor.
  - intros x this h0 Hin. apply list_elem_of_singleton in Hin. injection Hin as -> ->.
    destruct (Hreturns h0) as (v & h1 & Hrun & Hk). exists v, h1. split; [done|].
    intros l Hl. apply Hk. simpl in Hl. by apply list_elem_of_singleton in Hl as ->; left.
  - simpl. lia.
  - exists h'. split.
    + change (3 + fuel) with (S (2 + fuel)).
      erewrite call_method_emit; [|exact H2i|by eapply lookup_chain_inherit].
      change (arg 0 [VStr (walk_event w); data]) with (VStr (walk_event w)).
      change (arg 1 [VStr (walk_event w); data]) with data.
      etransitivity; [exact Hemit|]. unfold calls. simpl. by rewrite <- app_assoc.
    + rewrite Hkeep; [done|by left].
Qed.

End Hooks.

Section MountingDemo.
Import Demo.

Lemma mount_follows_create_handlers_witness :
  (let result := Host.call 5 (VRef 13) VUndef [VNode 5] Programs.mounted in
   result.1 = Ok VUndef
   ∧ trace result.2
     = trace Programs.mounted
       ++ [EvCall (User 1) (VRef creates) [VNode 5]; EvAppendChild 0 (VNode 5)])
  ∧ (let result := Host.call 5 (VRef 13) VUndef [VNode 5] Programs.unmatched in
     result.1 = Throw TypeError
     ∧ trace result.2
       = trace Programs.unmatched ++ [EvCall (User 1) (VRef creates) [VNode 5]]).
Proof.
  split.
  - destruct (mount_follows_create_handlers Host.run 0 (heap Programs.mounted)
                (trace Programs.mounted) (clock Programs.mounted) 13 instance ∅ (Some data) 12
                (VNode 0) VUndef [VNode 5] events creates [hook] [(User 1, VRef creates)])
      as [Hnode _].
    + vm_compute. reflexivity.
    + vm_compute. reflexivity.
    + vm_compute. reflexivity.
    + vm_compute. reflexivity.
    + vm_compute. reflexivity.
    + vm_compute. reflexivity.
    + vm_compute. reflexivity.
    + repeat constructor.
    + apply host_well_behaved.
    + exact (Hnode 0 eq_refl).
  - destruct (mount_follows_create_handlers Host.run 0 (heap Programs.unmatched)
                (trace Programs.unmatched) (clock Programs.unmatched) 13 instance ∅ (Some data) 12
                VNull VUndef [VNode 5] events creates [hook] [(User 1, VRef creates)])
      as [_ Hnull].
    + vm_compute. reflexivity.
    + vm_compute. reflexivity.
    + vm_compute. reflexivity.
    + vm_compute. reflexivity.
    + vm_compute. reflexivity.
    + vm_compute. reflexivity.
    + vm_compute. reflexivity.
    + repeat constructor.
    + apply host_well_behaved.
    + exact (Hnull eq_refl).
Defined.

Lemma hook_receives_its_list_witness :
  ∃ h',
    (App <- Host.Moon 0 (VRef 2) ;;
     instance <- Host.construct 0 App [] ;;
     call_method (Host.call 3) instance "emit" [VStr "create"; VNode 5])
      (State Programs.app_heap [] 100)
    = (Ok VUndef,
       State h' [EvCompile "<p/>"; EvCall (User 1) (VRef creates) [VNode 5]] 100)
    ∧ h' !! creates = Some (ArrC [hook]).
Proof.
  apply (hook_receives_its_list false Host.compile Host.querySelector Host.run 0 Created
           Programs.app_heap [] 100 2 app ∅ (Some object_prototype) "" "<p/>" 0 (User 1)
           (VNode 5)).
  - reflexivity.
  - reflexivity.
  - reflexivity.
  - discriminate.
  - reflexivity.
  - discriminate.
  - reflexivity.
  - reflexivity.
  - reflexivity.
  - intros h0. by exists VUndef, h0.
Defined.

End MountingDemo.
End Mounting.

(** ** [shuffle] *)

Module Shuffling.
Import JS Fuzz.

Lemma assign_inside arr i x : i < length arr → assign arr i x = <[i := x]> arr.
Proof. intros Hi. unfold assign. by rewrite decide_True. Qed.

Lemma swap_inside arr i j x y :
  arr !! i = Some y → arr !! j = Some x →
  swap arr i j = <[j := y]> (<[i := x]> arr).
Proof.
  intros Hi Hj. unfold swap, item_at. rewrite Hi, Hj. simpl.
  apply lookup_lt_Some in Hi. apply lookup_lt_Some in Hj.
  rewrite (assign_inside arr) by done.
  by rewrite assign_inside by (by rewrite length_insert).
Qed.

Lemma swap_length arr i j : i < length arr → j < length arr → length (swap arr i j) = length arr.
Proof.
  intros Hi Hj.
  destruct (lookup_lt_is_Some_2 arr i Hi) as [y Hy].
  destruct (lookup_lt_is_Some_2 arr j Hj) as [x Hx].
  rewrite (swap_inside _ _ _ _ _ Hy Hx). by rewrite !length_insert.
Qed.

Lemma insert_head_perm (l : list value) j x a :
  l !! j = Some x → x :: <[j := a]> l ≡ₚ a :: l.
Proof.
  revert j. induction l as [|b l IH]; intros j Hj; [done|].
  destruct j as [|j]; simpl in *.
  - injection Hj as ->. apply perm_swap.
  - rewrite perm_swap. rewrite (IH j Hj). apply perm_swap.
Qed.

Lemma swap_perm arr i j : i < length arr → j < length arr → swap arr i j ≡ₚ arr.
Proof.
  intros Hi Hj.
  destruct (lookup_lt_is_Some_2 arr i Hi) as [y Hy].
  destruct (lookup_lt_is_Some_2 arr j Hj) as [x Hx].
  rewrite (swap_inside _ _ _ _ _ Hy Hx). clear Hi Hj.
  revert i j Hy Hx. induction arr as [|a arr IH]; intros i j Hy Hx; [done|].
  destruct i as [|i], j as [|j]; simpl in *.
  - by injection Hy as ->.
  - injection Hy as ->. by apply insert_head_perm.
  - injection Hx as ->. by apply insert_head_perm.
  - f_equiv. by apply IH.
Qed.

Lemma shuffle_loop_perm choose i arr :
  (∀ k, choose k ≤ k) → i < length arr → shuffle_loop choose i arr ≡ₚ arr.
Proof.
  intros Hchoose. revert arr. induction i as [|i IH]; intros arr Hi; [done|]. simpl.
  pose proof (Hchoose (S i)).
  rewrite IH by (rewrite swap_length; lia).
  apply swap_perm; lia.
Qed.

(** X24: [shuffle] returns a rearrangement of what it was given: every
    value occurs as often as before. An array of at most one element comes
    back as it is. *)
Theorem shuffle_permutes choose arr :
  (∀ i, choose i ≤ i) →
  shuffle choose arr ≡ₚ arr ∧ (length arr ≤ 1 → shuffle choose arr = arr).
Proof.
  intros Hchoose. unfold shuffle. split.
  - destruct arr as [|a arr]; [done|].
    apply shuffle_loop_perm; [done|simpl; lia].
  - intros Hlen. by replace (length arr - 1) with 0 by lia.
Qed.

(** ** Every order can come out *)

Lemma shuffle_loop_ext choose choose' i arr :
  (∀ k, k ≤ i → choose k = choose' k) →
  shuffle_loop choose i arr = shuffle_loop choose' i arr.
Proof.
  revert arr. induction i as [|i IH]; intros arr Hsame; [done|]. simpl.
  rewrite (Hsame (S i)) by done. apply IH. intros k Hk. apply Hsame. lia.
Qed.

Lemma swap_app arr i j x :
  i < length arr → j < length arr → swap (arr ++ [x]) i j = swap arr i j ++ [x].
Proof.
  intros Hi Hj.
  destruct (lookup_lt_is_Some_2 arr i Hi) as [y Hy].
  destruct (lookup_lt_is_Some_2 arr j Hj) as [z Hz].
  rewrite (swap_inside arr _ _ _ _ Hy Hz).
  rewrite (swap_inside (arr ++ [x]) i j z y) by (by apply lookup_app_l_Some).
  rewrite insert_app_l by done. by rewrite insert_app_l by (by rewrite length_insert).
Qed.

Lemma shuffle_loop_app choose i arr x :
  (∀ k, choose k ≤ k) → i < length arr →
  shuffle_loop choose i (arr ++ [x]) = shuffle_loop choose i arr ++ [x].
Proof.
  intros Hchoose. revert arr. induction i as [|i IH]; intros arr Hi; [done|]. simpl.
  pose proof (Hchoose (S i)).
  rewrite swap_app by lia. apply IH. rewrite swap_length; lia.
Qed.

Lemma shuffle_loop_reaches n : ∀ arr target,
  length arr = S n → target ≡ₚ arr →
  ∃ choose, (∀ i, choose i ≤ i) ∧ shuffle_loop choose n arr = target.
Proof.
  induction n as [|n IH]; intros arr target Hlen Hperm.
  - exists (λ _, 0). split; [intros; lia|]. simpl.
    destruct arr as [|a [|]]; try done. symmetry. by apply Permutation_singleton_r.
  - assert (length target = S (S n)) as Hlt by (by rewrite Hperm).
    destruct (rev target) as [|x rest] eqn:Hrev.
    { apply (f_equal length) in Hrev. rewrite length_rev in Hrev. simpl in Hrev. lia. }
    assert (target = rev rest ++ [x]) as Htarget.
    { rewrite <- (rev_involutive target), Hrev. done. }
    assert (x ∈ arr) as Hx.
    { rewrite <- Hperm, Htarget. apply elem_of_app. right. by left. }
    apply list_elem_of_lookup in Hx as [j Hj].
    assert (j < S (S n)) as Hjlt by (rewrite <- Hlen; by eapply lookup_lt_Some).
    destruct (lookup_lt_is_Some_2 arr (S n)) as [y Hy]; [lia|].
    pose proof (swap_inside arr (S n) j x y Hy Hj) as Hswap.
    set (arr1 := swap arr (S n) j) in *.
    assert (length arr1 = S (S n)) as Hlen1.
    { unfold arr1. rewrite swap_length; lia. }
    assert (arr1 !! S n = Some x) as Hlast.
    { rewrite Hswap. destruct (decide (j = S n)) as [->|Hne].
      - rewrite list_lookup_insert_eq by (rewrite length_insert; lia). congruence.
      - rewrite list_lookup_insert_ne by done.
        apply list_lookup_insert_eq. lia. }
    assert (arr1 = take (S n) arr1 ++ [x]) as Hsplit.
    { rewrite <- (take_drop_middle arr1 (S n) x Hlast) at 1.
      rewrite drop_ge by lia. done. }
    assert (rev rest ≡ₚ take (S n) arr1) as Hperm'.
    { apply (Permutation_app_inv_r [x]). rewrite <- Htarget, <- Hsplit, Hperm.
      symmetry. apply swap_perm; lia. }
    destruct (IH (take (S n) arr1) (rev rest)) as (choose' & Hbound & Hloop);
      [rewrite length_take; lia|done|].
    exists (λ i, if decide (i = S n) then j else choose' i). split.
    { intros i. destruct (decide (i = S n)) as [->|]; [lia|apply Hbound]. }
    simpl. rewrite decide_True by done. fold arr1.
    rewrite (shuffle_loop_ext _ choose').
    2:{ intros k Hk. by rewrite decide_False by lia. }
    rewrite Hsplit, shuffle_loop_app by (rewrite ?length_take; done || lia).
    by rewrite Hloop, Htarget.
Qed.

(** X25: [shuffle] can put the array in any order: for every rearrangement
    of the array there are values of [Math.random()] with which [shuffle]
    returns it. *)
Theorem shuffle_reaches_every_order arr target :
  target ≡ₚ arr →
  ∃ choose, (∀ i, choose i ≤ i) ∧ shuffle choose arr = target.
Proof.
  intros Hperm. unfold shuffle. destruct arr as [|a arr].
  - apply Permutation_nil_r in Hperm as ->. exists (λ _, 0). split; [intros; lia|done].
  - replace (length (a :: arr) - 1) with (length arr) by (simpl; lia).
    by apply shuffle_loop_reaches.
Qed.


Lemma shuffle_permutes_witness :
  shuffle (λ _, 0) [VNum 1; VNum 2; VNum 3] ≡ₚ [VNum 1; VNum 2; VNum 3]
  ∧ shuffle (λ _, 0) [VNum 1] = [VNum 1].
Proof.
  split.
  - apply (shuffle_permutes (λ _, 0) [VNum 1; VNum 2; VNum 3]). intros i. lia.
  - apply (shuffle_permutes (λ _, 0) [VNum 1]); [intros i; lia|simpl; lia].
Defined.

Lemma shuffle_reaches_every_order_witness :
  ∃ choose, (∀ i, choose i ≤ i)
            ∧ shuffle choose [VNum 1; VNum 2; VNum 3] = [VNum 3; VNum 1; VNum 2].
Proof.
  apply (shuffle_reaches_every_order [VNum 1; VNum 2; VNum 3] [VNum 3; VNum 1; VNum 2]).
  etransitivity; [apply perm_swap|]. apply perm_skip, perm_swap.
Defined.

End Shuffling.

(** ** [verify] *)

Module Verifying.
Import Executor Test.

Lemma verify_spec items childNodes :
  verify items childNodes = true
  ↔ ∀ i item, items !! i = Some item →
      ∃ el, childNodes !! i = Some el ∧ verify_as (classify item) items item i el = true.
Proof.
  unfold verify. rewrite forallb_forall. split.
  - intros Hall i item Hi.
    specialize (Hall (i, item)). simpl in Hall.
    destruct (childNodes !! i) as [el|].
    + exists el. split; [done|]. apply Hall.
      apply list_elem_of_In, elem_of_lookup_imap. by exists i, item.
    + discriminate Hall.
      apply list_elem_of_In, elem_of_lookup_imap. by exists i, item.
  - intros Hall [i item] Hin.
    apply list_elem_of_In, elem_of_lookup_imap in Hin as (i' & item' & [= -> ->] & Hi).
    destruct (Hall _ _ Hi) as (el & -> & Hel). done.
Qed.

(** X26: [verify(list)] looks at one child per item and at no other: it
    fails when the element has fewer children than the list has items, and
    children after the first [list.length] do not change its result. *)
Theorem verify_reads_one_child_per_item items childNodes :
  (length childNodes < length items → verify items childNodes = false)
  ∧ (length items ≤ length childNodes →
     ∀ others, verify items (childNodes ++ others) = verify items childNodes).
Proof.
  split.
  - intros Hlen. apply not_true_is_false. intros Hv.
    destruct (lookup_lt_is_Some_2 items (length childNodes) Hlen) as [item Hitem].
    destruct (proj1 (verify_spec _ _) Hv _ _ Hitem) as (el & Hel & _).
    apply lookup_lt_Some in Hel. lia.
  - intros Hlen others. apply eq_true_iff_eq. rewrite !verify_spec.
    split; intros Hall i item Hi; destruct (Hall i item Hi) as (el & Hel & Hok);
      exists el; (split; [|done]); apply lookup_lt_Some in Hi as Hlt.
    + by rewrite lookup_app_l in Hel by lia.
    + by rewrite lookup_app_l by lia.
Qed.

(** X27: the three blocks of [verify] tell the three views apart: no
    element meets the expectations of two different branches, so an item
    rendered by the wrong branch fails the test. *)
Theorem verify_as_exclusive b1 b2 items item i el :
  verify_as b1 items item i el = true →
  verify_as b2 items item i el = true →
  b1 = b2.
Proof.
  unfold verify_as, meets. intros H1 H2.
  repeat (apply andb_prop in H1 as [H1 ?]).
  repeat (apply andb_prop in H2 as [H2 ?]).
  repeat match goal with
         | H : bool_decide _ = true |- _ => apply bool_decide_eq_true in H
         end.
  destruct b1, b2; try done; simpl in *; congruence.
Qed.


Lemma verify_as_exclusive_witness : Else = classify 5.
Proof.
  apply (verify_as_exclusive Else (classify 5) [5%Z] 5 0 Programs.paragraph).
  - vm_compute. reflexivity.
  - vm_compute. reflexivity.
Defined.

End Verifying.
